(* ===== verification/_CoqProject ===== *)
-Q . S2P
Prelude.v
Particles.v
ParticleRender.v
JsString.v
Typing.v
Regex.v
ContactForm.v
Theme.v
Navigation.v
Modal.v
Page.v
Observers.v
