(* ===== verification/Prelude.v ===== *)
(** * A verification development of the portfolio page script

    The repository is a static personal portfolio page. All of its
    behaviour is one browser script, [src/portfolio/assets/js/script.js].
    When the DOM is ready, one listener calls eleven [init*] functions in a
    fixed order (lines 5-18). A second listener sets up the resume download
    (lines 582-632). A third reveals the hero text (lines 660-668). While
    the script is evaluated it also registers a debounced scroll handler
    (lines 635-652) and a load listener (655-657).

    The components share no state with each other. They talk to the
    browser only through DOM attributes, [localStorage], timers
    ([setTimeout], [requestAnimationFrame]) and event listeners. They are
    coupled in two ways:
    - through the start-up order: an [init*] function that throws on a
      missing element stops all the calls after it;
    - through the scope of names: [showNotification] is local to
      [initContactForm], yet the resume handler calls it.

    This development models each component as a state record with one
    Rocq function per handler or timer callback. It composes those
    functions the way the browser dispatches events. A handler runs to
    completion, and the next event or timer callback sees the state it
    left.

    ** Files, in dependency order

    - [Prelude] (this file): the shared machinery. It holds:
      - JavaScript exceptions ([js_error]);
      - event-driven machines: [run], [reachable], and invariant induction
        over event traces;
      - the simulation lemma [run_simulation], used by the refinement
        theorems;
      - boolean comparisons on [Q] with their reflection lemmas;
      - the [portfolio] hint database, the development's tactics, and
        [fold_left_invariant] for loops over lists.
    - [Particles], Module [ParticleField]: the particle field animator,
      [initParticleBackground] (lines 484-579).
      - Its state is the canvas size, the particle array, and the position
        in the [Math.random] stream.
      - It models [resizeCanvas], [createParticle], [initParticles],
        [updateParticles], the frame and resize events, and the
        initialisation, which throws when [.hero] is missing.
      - [Math.random] is the class [MathRandom]: a stream of draws in [0,1).
    - [ParticleRender], Module [Render]: [drawParticles] (lines 534-561).
      - The reference version uses the real distance, with [sqrt] over [R].
      - An executable version compares squared distances over [Q].
    - [JsString], Module [JsStr]: the string built-ins the script calls.
      - [substring], with its clamping and argument swap.
      - [trim], and the whitespace class [\s].
    - [Typing], Module [TypingEffect]: [initTypingEffect] (lines 73-113).
      - The closure's four variables are a record.
      - [typeText] is one timer callback. It returns the next delay or a
        [TypeError].
    - [Regex], Module [Regex]: regular expressions.
      - An inductive matching semantics.
      - An executable matcher by Brzozowski derivatives, proved equal to
        the semantics.
    - [ContactForm], Module [ContactForm]: [initContactForm] (lines
      242-350).
      - [validateForm], with the e-mail pattern as a [Regex.re].
      - [submitForm], which disables the button and schedules a 2000 ms
        timer.
      - [showNotification], with its three timers (100, 5000 and 300 ms).
      - The pending [setTimeout] callbacks are a queue ordered by due time.
    - [Theme], Module [ThemeToggle]: [initThemeToggle] (lines 353-391).
      [localStorage] is a stdpp [gmap string string].
    - [Navigation], Module [Navigation]:
      - the scroll listeners of [initNavigation], [initScrollToTop] and
        [initParallaxEffects], in registration order;
      - the link click and the scroll-to-top click, as the position
        [window.scrollTo] ends at;
      - the mobile menu of [initMobileMenu];
      - [debounce], with its pending timeout as a due time, and its
        abstract specification [executions].
    - [Modal], Module [ProjectModal]: [initProjectModals] (lines 146-239).
      - [projectData] is read through the prototype chain of a JavaScript
        object.
      - [showModal] is modelled statement by statement.
      - The step returns the state after the listener together with the
        error it threw, since the writes made before a throw stay.
    - [Page], Module [Page]: start-up and the resume download.
      - What each [init*] call registers before it returns or throws.
      - The three [DOMContentLoaded] listeners, in order. The particle
        background is started through [ParticleField]. The third one's
        three inline style assignments on [.hero-content] are kept as the
        element's declarations ([setStyle], [revealHero]).
      - The window [load] listener ([onLoad], [windowLoad]) adds
        [loaded] to the body's class list, as [classList.add] does.
      - Modal events are delivered only to the listeners that exist.
      - The resume click handler, statement by statement.
    - [Observers], Module [Observers]: [initScrollAnimations] and
      [initSkillBars] (lines 116-143 and 414-430).
      - The page is the list of elements, with their classes,
        [data-width] and [style.width].
      - Which observed targets intersect is the browser's input to each
        callback.
      - Whether a string is a valid CSS length is a parameter of the
        section, standing for the browser's CSS parser.

    ** Theorems, by group

    - Particles:
      - [particle_inv] holds for every particle of every reachable state.
        It is a band of width [|v|] around the canvas, with the velocity
        pointing back inside whenever the particle is outside.
      - The field always holds exactly [particleCount] particles.
      - A reflection keeps [|vx|], [|vy|] and the size.
      - A particle whose move takes it out of the canvas has [vx]
        reversed and is back at its old [x] the frame after. So positions
        do not stay in [0,width), as the spec says they do.
      - Fresh particles lie in the canvas.
      - The reflection threshold is [x > width], not the spec's
        [x >= width].
    - ParticleRender:
      - The squared-distance test is equivalent to the [sqrt] test.
      - The lines are one per index pair [i < j] closer than 100, each
        pair once, in the order of the nested loops, with an opacity in
        (0,1].
    - Typing:
      - The callback chain never throws.
      - The element always shows the first [charIndex] characters of the
        current phrase.
      - A phrase of length L takes 2L callbacks and [150 L + 2350] ms.
      - Without the element, the first callback throws.
    - ContactForm:
      - [isValidEmail] is characterised exactly, and so is [validateForm].
      - The e-mail is trimmed for the emptiness check but not for the
        pattern.
      - [form_inv] holds in every reachable state. It relates the button's
        state to the pending submission, and each attached notification
        to the one callback that will remove it.
      - Hence [removeChild] never throws.
      - In every reachable state with a submission pending, a second
        [submit] reaching the handler leaves the label stuck at
        ["Sending..."] once the event loop has drained. The proof uses the
        queue's order (sorted by due time, nothing due before the clock,
        a pending submission at most 2000 ms away) and the labels the
        pending submissions will restore ([submitOrigs]).
      - The event loop drains to an idle page within [weight] callbacks.
    - Theme:
      - Refinement: with a stored theme of ["dark"], ["light"] or none,
        the page refines a two-state machine that flips on each click.
      - The theme survives a reload.
      - The icon always matches the theme.
      - Toggling twice is the identity exactly on ["dark"] and ["light"];
        any other value becomes ["dark"] after one toggle.
    - Navigation:
      - The scroll event runs the four listeners [onActiveSection],
        [onNavbarScroll], [onScrollTopScroll] and [onParallaxScroll] in
        registration order. The active link, the strict thresholds of the
        navbar and the scroll-to-top button, and the parallax shift are
        characterised.
      - A link click followed by the scroll it causes marks that link
        active.
      - Hamburger and menu always agree.
      - Refinement: the debounced function runs exactly [executions]
        times, once per gap of at least [wait] and once after the last
        call.
    - Modal:
      - Own keys open the modal.
      - Keys inherited from [Object.prototype] pass the [if (data)] guard
        and throw a [TypeError] in [showModal].
      - The modal is shown exactly when body scrolling is locked.
    - Page:
      - A missing [.modal-close] stops the start-up after the card
        listeners. The modal can then be opened but never closed. The
        body still gets the class [loaded].
      - The particle background starts exactly when every element the
        earlier init calls need is present and [.hero] exists.
      - With every element present, start-up registers every listener
        in source order and reports no error, and [.hero-content] gets
        its opacity, transform and transition.
      - Every resume click downloads the file and then throws a
        [ReferenceError].
    - Observers:
      - Elements keep their markup classes. They gain at most
        [scroll-animate] and [animate], and [animate] only where the
        selector matches.
      - A skill bar reported as intersecting gets the width its
        [data-width] assigns.

    ** Modelling choices, bounds and fuel

    - JavaScript numbers are exact rationals [Q], not IEEE doubles, so
      every theorem about positions is about exact arithmetic. The typing
      and form timers use [Z] milliseconds.
    - [Math.random] is a stream [random : nat -> Q] indexed by the number
      of draws made so far, so the draws happen in the source's order.
    - The unbounded loops ([requestAnimationFrame(animate)] and the
      [setTimeout(typeText, ...)] chain) are modelled by their step
      functions. Their runs are finite prefixes [run step s es].
    - The one fuelled function is [ContactForm.drain], which runs pending
      timers. Its fuel is the [weight] of the queue. Each callback
      decreases that weight (a submission weighs 4, a slide-out 2, the
      others 1), so this fuel is proved to be enough.
    - Strings are [String.string] over 8-bit [ascii]. The whitespace class
      is written out for the code points below 256. Quotes and line breaks
      inside the script's template literals are spelt [dq] and [nl].
    - An uncaught exception in a listener aborts that listener only.
      Components whose later events are pointless after a throw (the
      typing chain, the form's timers) return [js_error + state]. The modal
      and the start-up return the state together with the error, because
      the page goes on.

    ** Not modelled

    - [document.querySelector(href)] in the link click listener is
      modelled as a lookup among the [section[id]] elements. An [href]
      that is not a valid selector (["#"] alone throws a [SyntaxError]) or
      that names an element other than a section is not modelled.
    - Browser layout, which is taken as input: which elements intersect
      the viewport, the sections' offsets, and the scrollable height.
    - The frames of [window.scrollTo]'s smooth animation: only the
      position it ends at is modelled.
    - The markup and the style sheets, and the pixels a canvas command
      produces. The body's classes before [load] are an input of
      [windowLoad]; [heroStyle] holds the inline declarations the script
      writes, starting from none.
    - The TypeErrors that the scroll listeners would throw on a page
      without [.navbar] or [#scrollToTop]: each such listener is modelled
      as if its element exists. Only the start-up's errors are modelled. *)

From Stdlib Require Import List String ZArith QArith Qabs Lia Lqa.
Import ListNotations.

Declare Scope portfolio_scope.
Delimit Scope portfolio_scope with pf.

Create HintDb portfolio discriminated.

(** ** JavaScript exceptions

    The script never catches an exception. An exception thrown by a
    handler aborts that handler, and the model returns it as the [inl]
    side of a sum. *)

Inductive js_error :=
| TypeError (what : string)
| ReferenceError (name : string)
| DOMException (name : string).

(** ** Event-driven machines

    Each component is a step function [step : S -> E -> S]. A handler runs
    to completion before the next event is dispatched, so a run of the
    page is a fold of the step over the list of events. *)

Section Machine.
Context {S E : Type} (step : S -> E -> S).

Definition run (s : S) (es : list E) : S := fold_left step es s.

Inductive reachable (s0 : S) : S -> Prop :=
| reach_init : reachable s0 s0
| reach_step s e : reachable s0 s -> reachable s0 (step s e).

Lemma run_app s es1 es2 : run s (es1 ++ es2) = run (run s es1) es2.
Proof. unfold run. apply fold_left_app. Qed.

Lemma run_snoc s es e : run s (es ++ [e]) = step (run s es) e.
Proof. rewrite run_app. reflexivity. Qed.

Lemma reachable_run s0 es : reachable s0 (run s0 es).
Proof.
  induction es as [|e es IH] using rev_ind; [constructor|].
  rewrite run_snoc. now constructor.
Qed.

Lemma reachable_exists_run s0 s : reachable s0 s -> exists es, s = run s0 es.
Proof.
  induction 1 as [|s e _ [es ->]]; [now exists []|].
  exists (es ++ [e]). now rewrite run_snoc.
Qed.

(** The induction principle every invariant proof uses. *)
Lemma reachable_invariant (P : S -> Prop) s0 :
  P s0 -> (forall s e, P s -> P (step s e)) ->
  forall s, reachable s0 s -> P s.
Proof. intros H0 Hstep s Hr. induction Hr; auto. Qed.

Lemma run_invariant (P : S -> Prop) s0 es :
  P s0 -> (forall s e, P s -> P (step s e)) -> P (run s0 es).
Proof. intros H0 Hstep. eapply reachable_invariant; eauto using reachable_run. Qed.
End Machine.

Arguments reach_init {S E step s0}.
Arguments reach_step {S E step s0 s}.

(** ** Boolean comparisons on rationals

    The script compares JavaScript numbers with [<] and [>] inside [if]
    conditions, so the model needs boolean strict comparisons. *)

Definition Qltb (a b : Q) : bool := negb (Qle_bool b a).

Infix "<?" := Qltb (at level 70, no associativity) : portfolio_scope.
Infix "<=?" := Qle_bool (at level 70, no associativity) : portfolio_scope.

Lemma Qltb_iff a b : Qltb a b = true <-> a < b.
Proof.
  unfold Qltb. rewrite Bool.negb_true_iff, <- Bool.not_true_iff_false, Qle_bool_iff.
  split; [apply Qnot_le_lt | apply Qlt_not_le].
Qed.

Lemma Qltb_false a b : Qltb a b = false <-> b <= a.
Proof.
  unfold Qltb. rewrite Bool.negb_false_iff. apply Qle_bool_iff.
Qed.

(** [qcase] splits on every boolean comparison of the goal and turns each
    branch condition into the proposition it decides. *)
Ltac qcase :=
  repeat match goal with
  | |- context [Qltb ?a ?b] =>
      let H := fresh "Hq" in
      destruct (Qltb a b) eqn:H; [apply Qltb_iff in H | apply Qltb_false in H]
  | |- context [Qle_bool ?a ?b] =>
      let H := fresh "Hq" in
      destruct (Qle_bool a b) eqn:H;
      [apply Qle_bool_iff in H | apply Bool.not_true_iff_false in H; rewrite Qle_bool_iff in H]
  end; cbn [orb andb negb].

(** [Qabs] facts the particle proofs share. *)

Lemma Qabs_spec v : (0 <= v /\ Qabs v == v) \/ (v < 0 /\ Qabs v == - v).
Proof.
  destruct (Qlt_le_dec v 0) as [H|H].
  - right. split; [exact H | now apply Qabs_neg, Qlt_le_weak].
  - left. split; [exact H | now apply Qabs_pos].
Qed.

(** [qabs_elim] replaces every [Qabs t] of the goal and the hypotheses by a
    fresh variable with its two defining cases, so that [lra] can finish. *)
Ltac qabs_elim :=
  repeat match goal with
  | H : context [Qabs _] |- _ => revert H
  end;
  repeat match goal with
  | |- context [Qabs ?t] =>
      let a := fresh "abs" in
      destruct (Qabs_spec t) as [[? ?]|[? ?]]; set (a := Qabs t) in *; clearbody a
  end; intros.

Lemma Qabs_mult_m1 v : Qabs (v * -1) == Qabs v.
Proof. setoid_replace (v * -1) with (- v) by ring. apply Qabs_opp. Qed.

Lemma Qabs_bounds v : - Qabs v <= v <= Qabs v.
Proof. apply Qabs_Qle_condition. apply Qle_refl. Qed.

Lemma Qabs_pos_eq v : 0 < v -> Qabs v == v.
Proof. intros H. apply Qabs_pos. now apply Qlt_le_weak. Qed.

Lemma Qabs_neg_eq v : v < 0 -> Qabs v == - v.
Proof. intros H. apply Qabs_neg. now apply Qlt_le_weak. Qed.

#[export] Hint Resolve Qabs_mult_m1 Qabs_bounds : portfolio.

(** ** Lists *)

Lemma Forall_map_iff {A B} (P : B -> Prop) (f : A -> B) (l : list A) :
  Forall P (map f l) <-> Forall (fun a => P (f a)) l.
Proof. rewrite !Forall_forall. setoid_rewrite in_map_iff. firstorder (subst; auto). Qed.

Lemma Forall_app_iff {A} (P : A -> Prop) (l1 l2 : list A) :
  Forall P (l1 ++ l2) <-> Forall P l1 /\ Forall P l2.
Proof. apply Forall_app. Qed.

#[export] Hint Resolve Forall_nil Forall_cons : portfolio.

(** A property kept by every step of a [fold_left] over the elements it
    visits holds at the end. *)
Lemma fold_left_invariant {A X} (P : A -> Prop) (g : A -> X -> A) (xs : list X) (a : A) :
  P a -> (forall a x, In x xs -> P a -> P (g a x)) -> P (fold_left g xs a).
Proof.
  revert a. induction xs as [|x xs IH]; intros a Ha Hg; cbn; [exact Ha|].
  apply IH; [apply Hg; [left; reflexivity | exact Ha] | intros; apply Hg; [right|]; assumption].
Qed.

(** ** Simulation

    A relation [R] between the states of a machine and those of an
    abstract machine, kept by every event, relates their runs. *)

Lemma run_simulation {S T E} (step : S -> E -> S) (astep : T -> E -> T) (R : S -> T -> Prop) :
  (forall s t e, R s t -> R (step s e) (astep t e)) ->
  forall es s t, R s t -> R (run step s es) (run astep t es).
Proof.
  intros Hsim es. unfold run. induction es as [|e es IH]; intros s t H; cbn; [exact H|].
  apply IH, Hsim, H.
Qed.
