(* ===== verification/Particles.v ===== *)
(** * The particle field animator

    This file models [initParticleBackground], [script.js] lines 484-579:
    its data (particles, the canvas size, the host element), its operations
    ([resizeCanvas], [createParticle], [initParticles], [updateParticles],
    [animate] without the drawing, and the resize listener) and the
    initialisation. The drawing ([drawParticles]) is in [ParticleRender].

    The state is the record [field]. It holds the canvas size (the
    [canvas.width] and [canvas.height] attributes), the [particles] array
    and the number of [Math.random] draws made so far. The draws themselves
    come from the [MathRandom] interface. *)

From Stdlib Require Import String List ZArith QArith Qabs Lia Lqa.
From Stdlib Require Import Morphisms.
From S2P Require Import Prelude.
Import ListNotations.
Local Open Scope Q_scope.
Local Open Scope portfolio_scope.

(** [Math.random()]: the [n]-th draw of the page, a number in [0,1). *)
Class MathRandom := {
  random : nat -> Q;
  random_range : forall n, 0 <= random n < 1
}.

Module ParticleField.

(** A particle is the object literal built by [createParticle]. *)
Record particle := mkParticle { x : Q; y : Q; vx : Q; vy : Q; size : Q }.

(** The canvas attributes [width] and [height] are [unsigned long]. *)
Record canvas := mkCanvas { width : N; height : N }.

(** The layout sizes of the [.hero] element. [offsetWidth] and
    [offsetHeight] are non-negative integers. *)
Record hero := mkHero { offsetWidth : N; offsetHeight : N }.

Record field := mkField { cv : canvas; particles : list particle; seed : nat }.

Definition qW (c : canvas) : Q := inject_Z (Z.of_N (width c)).
Definition qH (c : canvas) : Q := inject_Z (Z.of_N (height c)).

(** [const particleCount = 50;] (line 500). *)
Definition particleCount : nat := 50.

(** Lines 502-505. *)
Definition resizeCanvas (h : hero) : canvas :=
  mkCanvas (offsetWidth h) (offsetHeight h).

Section WithRandom.
Context `{MathRandom}.

(** Lines 507-515. The five fields of the literal are evaluated left
    to right, so they take the draws [n] to [n+4]. *)
Definition createParticle (c : canvas) (n : nat) : particle * nat :=
  (mkParticle (random n * qW c)
              (random (n + 1) * qH c)
              ((random (n + 2) - (1#2)) * (1#2))
              ((random (n + 3) - (1#2)) * (1#2))
              (random (n + 4) * 2 + 1), (n + 5)%nat).

(** The [for] loop of [initParticles]: [k] iterations left, pushing each
    new particle at the end of [acc]. *)
Fixpoint pushParticles (k : nat) (c : canvas) (acc : list particle) (n : nat)
  : list particle * nat :=
  match k with
  | O => (acc, n)
  | S k' => let '(p, n') := createParticle c n in pushParticles k' c (acc ++ [p]) n'
  end.

(** Lines 517-522: [particles = []] then [particleCount] pushes. *)
Definition initParticles (c : canvas) (n : nat) : list particle * nat :=
  pushParticles particleCount c [] n.

(** The resize listener, lines 575-578. The old particles are dropped. *)
Definition onResize (h : hero) (s : field) : field :=
  let c := resizeCanvas h in
  let '(ps, n) := initParticles c (seed s) in
  mkField c ps n.
End WithRandom.

(** The body of the [forEach] of [updateParticles], lines 525-531. The
    position moves first; each velocity component is negated when the
    moved position is outside the closed range [0, width]. *)
Definition updateParticle (c : canvas) (p : particle) : particle :=
  let x' := x p + vx p in
  let y' := y p + vy p in
  let vx' := if (x' <? 0) || (qW c <? x') then vx p * -1 else vx p in
  let vy' := if (y' <? 0) || (qH c <? y') then vy p * -1 else vy p in
  mkParticle x' y' vx' vy' (size p).

(** Lines 524-532. Each particle is a distinct object, so the in-place
    [forEach] is a [map]. *)
Definition updateParticles (c : canvas) (ps : list particle) : list particle :=
  map (updateParticle c) ps.

(** [animate] (lines 563-567) without its drawing. *)
Definition animate (s : field) : field :=
  mkField (cv s) (updateParticles (cv s) (particles s)) (seed s).

(** The events that reach the component: an animation frame, or a
    window resize after which the host element has the given size. *)
Inductive event := Frame | Resize (h : hero).

Definition step `{MathRandom} (s : field) (e : event) : field :=
  match e with
  | Frame => animate s
  | Resize h => onResize h s
  end.

(** Lines 485-572: the canvas is appended to [.hero] (a [TypeError] when
    there is none), sized, filled, and animated once synchronously. The
    canvas starts at the HTML default size 300x150, which [resizeCanvas]
    overwrites before any use. *)
Definition initParticleBackground `{MathRandom} (hero_el : option hero) (n : nat)
  : js_error + field :=
  match hero_el with
  | None => inl (TypeError "hero is null"%string)
  | Some h => inr (animate (onResize h (mkField (mkCanvas 300 150) [] n)))
  end.

(** ** The invariant *)

(** One axis of a particle: the position lies in the band of width [|v|]
    around [0, W], and when it is outside [0, W] the velocity points back
    inside. *)
Definition axis_inv (W p v : Q) : Prop :=
  - Qabs v <= p <= W + Qabs v /\ (p < 0 -> 0 < v) /\ (W < p -> v < 0).

Definition particle_inv (c : canvas) (p : particle) : Prop :=
  axis_inv (qW c) (x p) (vx p) /\ axis_inv (qH c) (y p) (vy p) /\
  Qabs (vx p) <= 1#4 /\ Qabs (vy p) <= 1#4 /\ 1 <= size p < 3.

Definition field_inv (s : field) : Prop :=
  length (particles s) = particleCount /\ Forall (particle_inv (cv s)) (particles s).

(** ** Particle equivalence

    JavaScript compares numbers by value, so two particles whose fields
    are equal rationals behave the same. *)
Definition peq (p q : particle) : Prop :=
  x p == x q /\ y p == y q /\ vx p == vx q /\ vy p == vy q /\ size p == size q.

#[export] Instance peq_equiv : Equivalence peq.
Proof.
  unfold peq. split.
  - intros p. repeat split; reflexivity.
  - intros p q Hpq. repeat split; symmetry; apply Hpq.
  - intros p q r Hpq Hqr. repeat split; (etransitivity; [apply Hpq | apply Hqr]).
Qed.

#[export] Instance Qltb_proper : Proper (Qeq ==> Qeq ==> eq) Qltb.
Proof. intros a a' Ha b b' Hb. unfold Qltb. now rewrite Hb, Ha. Qed.

#[export] Instance updateParticle_proper : Proper (eq ==> peq ==> peq) updateParticle.
Proof.
  intros c c' <- p q (Hx & Hy & Hvx & Hvy & Hs). unfold updateParticle, peq; cbn.
  repeat split; qcase; lra.
Qed.

(** ** Lemmas on one axis and one particle *)

Lemma qW_nonneg c : 0 <= qW c.
Proof. unfold qW. change 0 with (inject_Z 0). rewrite <- Zle_Qle. lia. Qed.

Lemma qH_nonneg c : 0 <= qH c.
Proof. unfold qH. change 0 with (inject_Z 0). rewrite <- Zle_Qle. lia. Qed.

#[export] Hint Resolve qW_nonneg qH_nonneg : portfolio.

(** The reflection rule of one axis: move, then negate the velocity
    when the new position is outside [0, W]. *)
Lemma axis_step W p v :
  0 <= W -> axis_inv W p v ->
  axis_inv W (p + v) (if ((p + v) <? 0) || (W <? p + v) then v * -1 else v).
Proof. unfold axis_inv. intros HW Hinv. qcase; qabs_elim; lra. Qed.

Lemma abs_reflect (b : bool) v : Qabs (if b then v * -1 else v) == Qabs v.
Proof. destruct b; [apply Qabs_mult_m1 | reflexivity]. Qed.

Lemma updateParticle_inv c p : particle_inv c p -> particle_inv c (updateParticle c p).
Proof.
  intros (Hx & Hy & Hvx & Hvy & Hs). unfold particle_inv, updateParticle; cbn.
  rewrite !abs_reflect. auto using axis_step with portfolio.
Qed.

(** [Math.random() * w] lies in [0, w]. *)
Lemma draw_scaled r w : 0 <= r < 1 -> 0 <= w -> 0 <= r * w <= w.
Proof. intros. nra. Qed.

Lemma createParticle_inv `{MathRandom} c n : particle_inv c (fst (createParticle c n)).
Proof.
  pose proof (draw_scaled _ _ (random_range n) (qW_nonneg c)).
  pose proof (draw_scaled _ _ (random_range (n + 1)) (qH_nonneg c)).
  pose proof (random_range (n + 2)). pose proof (random_range (n + 3)).
  pose proof (random_range (n + 4)).
  unfold particle_inv, axis_inv, createParticle; cbn [fst x y vx vy size].
  qabs_elim; repeat split; intros; lra.
Qed.

(** The loop of [initParticles], in closed form: the [i]-th new particle
    is built from the draws [n + 5 i] to [n + 5 i + 4]. *)
Lemma pushParticles_spec `{MathRandom} k c acc n :
  pushParticles k c acc n =
  (acc ++ map (fun i => fst (createParticle c (n + 5 * i))) (seq 0 k), (n + 5 * k)%nat).
Proof.
  revert acc n. induction k as [|k IH]; intros acc n.
  - cbn. now rewrite app_nil_r, Nat.add_0_r.
  - cbn [pushParticles].
    change (createParticle c n) with (fst (createParticle c n), (n + 5)%nat).
    cbv beta iota. rewrite IH, <- app_assoc. f_equal; [|lia]. f_equal.
    cbn [seq map app]. rewrite Nat.mul_0_r, Nat.add_0_r, <- seq_shift, map_map. f_equal.
    apply map_ext. intros i. f_equal. f_equal. lia.
Qed.

Lemma length_initParticles `{MathRandom} c n : length (fst (initParticles c n)) = particleCount.
Proof. unfold initParticles. rewrite pushParticles_spec. cbn [fst app]. now rewrite length_map, length_seq. Qed.

Lemma initParticles_inv `{MathRandom} c n : Forall (particle_inv c) (fst (initParticles c n)).
Proof.
  unfold initParticles. rewrite pushParticles_spec. cbn [fst app].
  apply Forall_map_iff, Forall_forall. intros i _. apply createParticle_inv.
Qed.

Lemma onResize_inv `{MathRandom} h s : field_inv (onResize h s).
Proof.
  unfold onResize, field_inv. destruct (initParticles _ _) as [ps n] eqn:E. cbn.
  pose proof (length_initParticles (resizeCanvas h) (seed s)) as Hl.
  pose proof (initParticles_inv (resizeCanvas h) (seed s)) as Hf.
  rewrite E in Hl, Hf. auto.
Qed.

Lemma animate_inv s : field_inv s -> field_inv (animate s).
Proof.
  intros [Hl Hf]. split; cbn; unfold updateParticles.
  - now rewrite length_map.
  - apply Forall_map_iff. eapply Forall_impl; [|exact Hf]. apply updateParticle_inv.
Qed.

Lemma step_inv `{MathRandom} s e : field_inv s -> field_inv (step s e).
Proof. intros Hs. destruct e; [now apply animate_inv | apply onResize_inv]. Qed.

Lemma initParticleBackground_inv `{MathRandom} h n s :
  initParticleBackground (Some h) n = inr s -> field_inv s.
Proof. unfold initParticleBackground. intros [= <-]. apply animate_inv, onResize_inv. Qed.

(** [Math.random() * w] is below [w] when [w] is positive. *)
Lemma draw_scaled_lt r w : 0 <= r < 1 -> 0 < w -> r * w < w.
Proof. intros. nra. Qed.

Lemma qW_pos c : (0 < width c)%N -> 0 < qW c.
Proof. intros H. unfold qW. change 0 with (inject_Z 0). rewrite <- Zlt_Qlt. lia. Qed.

Lemma qH_pos c : (0 < height c)%N -> 0 < qH c.
Proof. intros H. unfold qH. change 0 with (inject_Z 0). rewrite <- Zlt_Qlt. lia. Qed.

Lemma field_inv_reachable_aux `{MathRandom} s0 s :
  field_inv s0 -> reachable step s0 s -> field_inv s.
Proof. intros H0. apply reachable_invariant; auto using step_inv. Qed.

(** A resize, computed: the canvas of the host's size and [particleCount]
    particles from the next draws. *)
Lemma onResize_eq `{MathRandom} h s :
  onResize h s =
  mkField (resizeCanvas h)
          (map (fun i => fst (createParticle (resizeCanvas h) (seed s + 5 * i))) (seq 0 particleCount))
          (seed s + 250)%nat.
Proof. unfold onResize, initParticles. rewrite pushParticles_spec. reflexivity. Qed.

(** A stream of constant draws, and a 100x100 host, for concrete runs. *)
#[export] Program Instance random_const : MathRandom := {| random := fun _ => 1#1000 |}.
Next Obligation. lra. Qed.

Definition hero100 : hero := mkHero 100 100.

(** ** Properties *)

(** C1. Invariant: after a successful initialisation, every state the
    frame and resize events reach holds exactly [particleCount] particles,
    and each of them satisfies [particle_inv]. *)
Theorem field_inv_reachable `{MathRandom} h n s0 s :
  initParticleBackground (Some h) n = inr s0 -> reachable step s0 s -> field_inv s.
Proof. intros Hi. apply field_inv_reachable_aux. eapply initParticleBackground_inv; eauto. Qed.

Lemma field_inv_reachable_witness :
  exists s0, initParticleBackground (Some hero100) 0 = inr s0 /\
             field_inv (run step s0 [Frame; Resize (mkHero 200 50); Frame]).
Proof.
  eexists. split; [reflexivity|].
  eapply field_inv_reachable; [reflexivity | apply reachable_run].
Defined.

(** C2. Bounds: in every reachable state every particle lies in the canvas
    widened by a quarter pixel on each side. *)
Theorem particles_in_band `{MathRandom} h n s0 s p :
  initParticleBackground (Some h) n = inr s0 -> reachable step s0 s ->
  In p (particles s) ->
  -(1#4) <= x p <= qW (cv s) + (1#4) /\ -(1#4) <= y p <= qH (cv s) + (1#4).
Proof.
  intros Hi Hr Hin. destruct (field_inv_reachable_aux s0 s (initParticleBackground_inv h n s0 Hi) Hr) as [_ Hf].
  rewrite Forall_forall in Hf.
  destruct (Hf p Hin) as ([[? ?] _] & [[? ?] _] & ? & ? & _).
  qabs_elim; lra.
Qed.

Lemma particles_in_band_witness :
  exists s0, initParticleBackground (Some hero100) 0 = inr s0 /\
    forall p, In p (particles (run step s0 [Frame])) ->
      -(1#4) <= x p <= qW (cv (run step s0 [Frame])) + (1#4) /\
      -(1#4) <= y p <= qH (cv (run step s0 [Frame])) + (1#4).
Proof.
  eexists. split; [reflexivity|]. intros p.
  eapply particles_in_band; [reflexivity | apply reachable_run].
Defined.

(** C3. Functional behaviour of one update: the position moves by the
    velocity, a reflection only flips signs (so [|vx|] and [|vy|] are
    kept) and the size is unchanged. *)
Theorem updateParticle_spec c p :
  x (updateParticle c p) == x p + vx p /\ y (updateParticle c p) == y p + vy p /\
  Qabs (vx (updateParticle c p)) == Qabs (vx p) /\
  Qabs (vy (updateParticle c p)) == Qabs (vy p) /\
  size (updateParticle c p) = size p.
Proof. unfold updateParticle; cbn. rewrite !abs_reflect. repeat split; reflexivity. Qed.

(** C4. A particle that lands exactly on the right edge [x = width] is not
    reflected: the test of line 529 is [x > canvas.width], where the spec
    says [x >= width]. *)
Theorem no_reflection_at_edge c p :
  x p + vx p == qW c ->
  vx (updateParticle c p) = vx p /\ x (updateParticle c p) == qW c.
Proof.
  intros Hx. pose proof (qW_nonneg c). unfold updateParticle; cbn. split; [|exact Hx].
  qcase; solve [lra | reflexivity].
Qed.

Lemma no_reflection_at_edge_witness :
  vx (updateParticle (mkCanvas 100 100) (mkParticle 99 50 1 0 2)) = 1 /\
  x (updateParticle (mkCanvas 100 100) (mkParticle 99 50 1 0 2)) == 100.
Proof. apply (no_reflection_at_edge (mkCanvas 100 100) (mkParticle 99 50 1 0 2)). vm_compute. reflexivity. Defined.

(** C5. Liveness of the reflection: a particle inside [0, width] whose
    next move takes it out of the canvas (on either side) has its [vx]
    reversed, so the frame after brings it back to the very [x] it left
    from, moving away from the edge it crossed. *)
Theorem out_of_canvas_returns c p :
  0 <= x p <= qW c -> (x p + vx p < 0 \/ qW c < x p + vx p) ->
  x (updateParticle c (updateParticle c p)) == x p /\
  vx (updateParticle c (updateParticle c p)) == - vx p.
Proof.
  intros Hin Hout. unfold updateParticle; cbn. qcase; cbn [orb] in *; destruct Hout; split; lra.
Qed.

Lemma out_of_canvas_returns_witness :
  x (updateParticle (mkCanvas 100 100) (updateParticle (mkCanvas 100 100) (mkParticle (1#10) 50 (-(1#5)) 0 2)))
    == 1#10 /\
  vx (updateParticle (mkCanvas 100 100) (updateParticle (mkCanvas 100 100) (mkParticle (1#10) 50 (-(1#5)) 0 2)))
    == - (-(1#5)).
Proof.
  apply (out_of_canvas_returns (mkCanvas 100 100) (mkParticle (1#10) 50 (-(1#5)) 0 2)).
  - split; vm_compute; congruence.
  - left. vm_compute. reflexivity.
Defined.

(** C6. Resize replaces the particles: the new array is [particleCount]
    particles built from the next 250 draws on the new canvas, whatever
    the old particles were. *)
Theorem onResize_fresh `{MathRandom} h s :
  cv (onResize h s) = resizeCanvas h /\
  particles (onResize h s) =
    map (fun i => fst (createParticle (resizeCanvas h) (seed s + 5 * i))) (seq 0 particleCount) /\
  seed (onResize h s) = (seed s + 250)%nat.
Proof.
  rewrite onResize_eq. repeat split.
Qed.

(** C7. Bounds after a resize: on a host of positive size every new
    particle lies in [0, width) x [0, height) of the new canvas. *)
Theorem onResize_within `{MathRandom} h s p :
  (0 < offsetWidth h)%N -> (0 < offsetHeight h)%N -> In p (particles (onResize h s)) ->
  0 <= x p < qW (cv (onResize h s)) /\ 0 <= y p < qH (cv (onResize h s)).
Proof.
  intros Hw Hh Hin. rewrite onResize_eq in Hin |- *. cbn [cv particles] in Hin |- *.
  rewrite in_map_iff in Hin. destruct Hin as (i & <- & _).
  pose proof (random_range (seed s + 5 * i)). pose proof (random_range (seed s + 5 * i + 1)).
  pose proof (draw_scaled_lt _ _ (random_range (seed s + 5 * i)) (qW_pos (resizeCanvas h) Hw)).
  pose proof (draw_scaled_lt _ _ (random_range (seed s + 5 * i + 1)) (qH_pos (resizeCanvas h) Hh)).
  pose proof (qW_pos (resizeCanvas h) Hw). pose proof (qH_pos (resizeCanvas h) Hh).
  unfold createParticle; cbn [fst x y]. split; split; try lra; apply Qmult_le_0_compat; lra.
Qed.

Lemma onResize_within_witness :
  0 <= x (fst (createParticle (mkCanvas 200 50) 0)) <
    qW (cv (onResize (mkHero 200 50) (mkField (mkCanvas 100 100) [] 0))) /\
  0 <= y (fst (createParticle (mkCanvas 200 50) 0)) <
    qH (cv (onResize (mkHero 200 50) (mkField (mkCanvas 100 100) [] 0))).
Proof.
  apply onResize_within; [reflexivity | reflexivity |].
  vm_compute. left. reflexivity.
Defined.

(** C8. Error path: initialisation throws a [TypeError] exactly when the
    page has no [.hero] element (line 497, [hero.appendChild]); the spec
    says it should silently do nothing. *)
Theorem initParticleBackground_error `{MathRandom} o n e :
  initParticleBackground o n = inl e <-> o = None /\ e = TypeError "hero is null".
Proof.
  destruct o as [h|]; cbn; split.
  - discriminate.
  - intros [? _]; discriminate.
  - intros [= <-]; auto.
  - intros [_ ->]; reflexivity.
Qed.

End ParticleField.
