(* ===== verification/ParticleRender.v ===== *)
(** * Drawing the particle field

    This file models [drawParticles], [script.js] lines 534-561, as the
    list of canvas commands one frame issues. The reference definition
    [drawParticles] follows the source: it computes the Euclidean distance
    with the real [sqrt] and compares it with 100. The executable
    [connections] compares the squared distance with 10000 over [Q]. The
    two are proved to produce the same lines, with the same opacities. *)

From Stdlib Require Import List NArith QArith Qabs Lia.
From Stdlib Require Import Reals Qreals Lra.
From S2P Require Import Prelude Particles.
Import ListNotations.
Import ParticleField.
Local Open Scope nat_scope.

Module Render.

(** The canvas commands of one frame. A circle stands for
    [beginPath; arc(x, y, size, 0, 2 PI); fillStyle = '#00d4ff'; fill()].
    A line stands for [beginPath; moveTo; lineTo; strokeStyle =
    rgba(0, 212, 255, alpha); lineWidth = 0.5; stroke()]. *)
Inductive draw_cmd :=
| ClearRect (w h : R)
| FillCircle (cx cy r : R)
| StrokeLine (x1 y1 x2 y2 alpha : R).

(** Lines 537-542: one filled circle per particle. *)
Definition circle (p : particle) : draw_cmd :=
  FillCircle (Q2R (x p)) (Q2R (y p)) (Q2R (size p)).

(** Lines 546-559, for one pair: [dx], [dy], [distance = Math.sqrt(dx*dx +
    dy*dy)], and a line of opacity [1 - distance / 100] when the distance
    is below 100. *)
Definition pairLine (p q : particle) : list draw_cmd :=
  let dx := (Q2R (x p) - Q2R (x q))%R in
  let dy := (Q2R (y p) - Q2R (y q))%R in
  let distance := sqrt (dx * dx + dy * dy) in
  if Rlt_dec distance 100 then
    [StrokeLine (Q2R (x p)) (Q2R (y p)) (Q2R (x q)) (Q2R (y q)) (1 - distance / 100)]
  else [].

(** Lines 545-560: particle [i] is paired with every particle of
    [particles.slice(i + 1)], in order. *)
Fixpoint drawConnections (ps : list particle) : list draw_cmd :=
  match ps with
  | [] => []
  | p :: rest => flat_map (pairLine p) rest ++ drawConnections rest
  end.

(** Lines 534-561. *)
Definition drawParticles (c : canvas) (ps : list particle) : list draw_cmd :=
  ClearRect (Q2R (qW c)) (Q2R (qH c)) :: map circle ps ++ drawConnections ps.

(** ** The executable connection test *)

Definition sqdist (p q : particle) : Q :=
  ((x p - x q) * (x p - x q) + (y p - y q) * (y p - y q))%Q.

(** The pairs that get a line, each with its squared distance. *)
Fixpoint connections (ps : list particle) : list (particle * particle * Q) :=
  match ps with
  | [] => []
  | p :: rest =>
      flat_map (fun q => if Qltb (sqdist p q) 10000 then [(p, q, sqdist p q)] else []) rest
      ++ connections rest
  end.

(** The index pairs [i < j < n] in the order of the nested loops:
    [i] ascending, then [j] ascending. *)
Definition pairsFrom (n : nat) : list (nat * nat) :=
  flat_map (fun i => map (fun j => (i, j)) (seq (S i) (n - S i))) (seq 0 n).

Definition lineOf (t : particle * particle * Q) : draw_cmd :=
  let '(p, q, d2) := t in
  StrokeLine (Q2R (x p)) (Q2R (y p)) (Q2R (x q)) (Q2R (y q)) (1 - sqrt (Q2R d2) / 100).

(** ** Lemmas *)

Lemma sqrt_lt_100 a : (0 <= a)%R -> (sqrt a < 100 <-> a < 10000)%R.
Proof.
  intros Ha. assert (E : sqrt 10000 = 100%R).
  { replace 10000%R with (Rsqr 100) by (unfold Rsqr; lra). apply sqrt_Rsqr. lra. }
  rewrite <- E. split; [apply sqrt_lt_0_alt | intros; apply sqrt_lt_1_alt; lra].
Qed.

Lemma Q2R_sqdist p q :
  Q2R (sqdist p q) =
  ((Q2R (x p) - Q2R (x q)) * (Q2R (x p) - Q2R (x q)) +
   (Q2R (y p) - Q2R (y q)) * (Q2R (y p) - Q2R (y q)))%R.
Proof. unfold sqdist. rewrite Q2R_plus, !Q2R_mult, !Q2R_minus. reflexivity. Qed.

Lemma Q2R_sqdist_nonneg p q : (0 <= Q2R (sqdist p q))%R.
Proof. rewrite Q2R_sqdist. apply Rplus_le_le_0_compat; apply Rle_0_sqr. Qed.

Lemma Q2R_10000 : Q2R 10000 = 10000%R.
Proof. unfold Q2R. cbn [Qnum Qden]. rewrite Rinv_1, Rmult_1_r. reflexivity. Qed.

(** One pair: the [sqrt] test and the squared test agree. *)
Lemma pairLine_connections p q :
  pairLine p q =
  map lineOf (if Qltb (sqdist p q) 10000 then [(p, q, sqdist p q)] else []).
Proof.
  unfold pairLine. rewrite <- Q2R_sqdist.
  pose proof (sqrt_lt_100 _ (Q2R_sqdist_nonneg p q)) as Hiff.
  destruct (Qltb (sqdist p q) 10000) eqn:E.
  - apply Qltb_iff, Qlt_Rlt in E. rewrite Q2R_10000 in E.
    destruct (Rlt_dec _ 100) as [_|Hn]; [reflexivity | exfalso; apply Hn, Hiff, E].
  - apply Qltb_false, Qle_Rle in E. rewrite Q2R_10000 in E.
    destruct (Rlt_dec _ 100) as [Hl|_]; [exfalso; apply Hiff in Hl; lra | reflexivity].
Qed.

Lemma flat_map_map {A B C} (f : A -> list B) (g : B -> C) l :
  flat_map (fun a => map g (f a)) l = map g (flat_map f l).
Proof. induction l as [|a l IH]; cbn; [reflexivity|]. now rewrite map_app, IH. Qed.

Lemma length_connections_step p rest :
  length (flat_map (fun q => if Qltb (sqdist p q) 10000 then [(p, q, sqdist p q)] else []) rest)
  <= length rest.
Proof.
  induction rest as [|q rest IH]; cbn; [lia|].
  destruct (Qltb _ _); cbn; lia.
Qed.

Lemma length_connections ps : 2 * length (connections ps) <= length ps * (length ps - 1).
Proof.
  induction ps as [|p ps IH]; cbn; [lia|].
  rewrite length_app. pose proof (length_connections_step p ps). nia.
Qed.

Lemma in_connections_head p rest t :
  In t (flat_map (fun q => if Qltb (sqdist p q) 10000 then [(p, q, sqdist p q)] else []) rest) <->
  exists q, In q rest /\ t = (p, q, sqdist p q) /\ (sqdist p q < 10000)%Q.
Proof.
  rewrite in_flat_map. split.
  - intros (q & Hq & Ht). destruct (Qltb _ _) eqn:E; [|destruct Ht].
    destruct Ht as [<-|[]]. apply Qltb_iff in E. eauto.
  - intros (q & Hq & -> & Hlt). exists q. split; [exact Hq|].
    apply Qltb_iff in Hlt. rewrite Hlt. now left.
Qed.

(** The source's pair loop emits exactly the lines of [connections]. *)
Lemma drawConnections_connections ps : drawConnections ps = map lineOf (connections ps).
Proof.
  induction ps as [|p ps IH]; cbn; [reflexivity|].
  rewrite IH, map_app, <- flat_map_map. f_equal.
  apply flat_map_ext. apply pairLine_connections.
Qed.

(** Each entry of [connections] carries its squared distance, below 10000. *)
Lemma in_connections_sqdist ps p q d : In (p, q, d) (connections ps) -> d = sqdist p q /\ (sqdist p q < 10000)%Q.
Proof.
  induction ps as [|p0 ps IH]; cbn; [intros []|].
  rewrite in_app_iff, in_connections_head. intros [(q' & _ & [= <- <- <-] & Hlt)|H]; [auto | apply IH, H].
Qed.

(** The pairs of [n + 1] indices: those of index 0, then those of
    [n] indices shifted by one. *)
Lemma pairsFrom_S n :
  pairsFrom (S n) = map (fun j => (0, j)) (seq 1 n) ++ map (fun ij => (S (fst ij), S (snd ij))) (pairsFrom n).
Proof.
  unfold pairsFrom. cbn [seq flat_map]. f_equal; [do 2 f_equal; lia|].
  rewrite <- seq_shift, <- flat_map_map. induction (seq 0 n) as [|i l IH]; [reflexivity|].
  cbn [map flat_map]. rewrite IH. f_equal.
  replace (S n - S (S i)) with (n - S i) by lia. rewrite <- seq_shift, !map_map. reflexivity.
Qed.

Lemma flat_map_map_fn {A B C} (f : B -> list C) (g : A -> B) l :
  flat_map f (map g l) = flat_map (fun a => f (g a)) l.
Proof. induction l as [|a l IH]; cbn; [reflexivity | now rewrite IH]. Qed.

Lemma NoDup_map_inj {A B} (f : A -> B) l :
  (forall a b, f a = f b -> a = b) -> NoDup l -> NoDup (map f l).
Proof.
  intros Hf. induction 1 as [|a l Ha _ IH]; cbn; constructor; [|exact IH].
  intros (b & Hb & Hin)%in_map_iff. apply Hf in Hb. subst. contradiction.
Qed.

(** [pairsFrom n] lists every pair [i < j < n], each once. *)
Lemma pairsFrom_spec n :
  NoDup (pairsFrom n) /\ forall i j, In (i, j) (pairsFrom n) <-> i < j < n.
Proof.
  induction n as [|n [IHd IHi]]; [split; [constructor | cbn; lia]|]. rewrite pairsFrom_S. split.
  - apply NoDup_app.
    + apply NoDup_map_inj; [congruence | apply seq_NoDup].
    + apply NoDup_map_inj; [|exact IHd]. intros [a1 a2] [b1 b2]; cbn; congruence.
    + intros ij (j & <- & _)%in_map_iff (kl & E & _)%in_map_iff. congruence.
  - intros i j. rewrite in_app_iff, !in_map_iff. split.
    + intros [(k & [= <- <-] & Hk%in_seq) | ([k l] & [= <- <-] & Hkl%IHi)]; lia.
    + intros Hij. destruct i as [|i].
      * left. exists j. split; [reflexivity|]. apply in_seq. lia.
      * right. destruct j as [|j]; [lia|]. exists (i, j). split; [reflexivity|]. apply IHi. lia.
Qed.

Lemma flat_map_nth_seq {A B} (f : A -> list B) (l : list A) d :
  flat_map f l = flat_map (fun k => f (nth k l d)) (seq 0 (length l)).
Proof.
  induction l as [|a l IH]; [reflexivity|]. cbn [length seq flat_map nth]. rewrite IH.
  f_equal. rewrite <- seq_shift, flat_map_map_fn. reflexivity.
Qed.

(** ** Properties *)

(** C9. Equivalence: the frame drawn by the source (real [sqrt] test,
    opacity [1 - distance / 100]) is the clear, one circle per particle,
    then one line per entry of the executable [connections], which
    compares squared distances over [Q]. *)
Theorem drawParticles_equiv c ps :
  drawParticles c ps =
  ClearRect (Q2R (qW c)) (Q2R (qH c)) :: map circle ps ++ map lineOf (connections ps).
Proof.
  unfold drawParticles. now rewrite drawConnections_connections.
Qed.

(** C10. The lines of a frame are one per pair of indices [i < j] whose
    particles are closer than 100 (squared distance below 10000), each
    pair once, in the order of the nested loops ([i] ascending, then [j]
    ascending). *)
Theorem connections_spec ps d0 :
  connections ps =
    flat_map (fun ij => let p := nth (fst ij) ps d0 in let q := nth (snd ij) ps d0 in
                        if Qltb (sqdist p q) 10000 then [(p, q, sqdist p q)] else [])
             (pairsFrom (length ps)) /\
  NoDup (pairsFrom (length ps)) /\
  (forall i j, In (i, j) (pairsFrom (length ps)) <-> i < j < length ps).
Proof.
  split; [|apply pairsFrom_spec].
  induction ps as [|p ps IH]; [reflexivity|]. cbn [connections length].
  rewrite pairsFrom_S, flat_map_app, !flat_map_map_fn, IH. f_equal.
  rewrite (flat_map_nth_seq _ ps d0), <- seq_shift, flat_map_map_fn. reflexivity.
Qed.

(** C11. Bounds: every line of a frame has an opacity in (0, 1]. *)
Theorem stroke_alpha_bounds c ps x1 y1 x2 y2 a :
  In (StrokeLine x1 y1 x2 y2 a) (drawParticles c ps) -> (0 < a <= 1)%R.
Proof.
  unfold drawParticles. rewrite drawConnections_connections. intros [H|H]; [discriminate|].
  apply in_app_iff in H as [H|H].
  - apply in_map_iff in H as (p & H & _). discriminate.
  - apply in_map_iff in H as ([[p q] d] & Hl & Hin). cbn in Hl. injection Hl as _ _ _ _ <-.
    apply in_connections_sqdist in Hin as (-> & Hlt).
    pose proof (Q2R_sqdist_nonneg p q). apply Qlt_Rlt in Hlt. rewrite Q2R_10000 in Hlt.
    apply sqrt_lt_100 in Hlt; [|assumption]. pose proof (sqrt_pos (Q2R (sqdist p q))). lra.
Qed.

Lemma stroke_alpha_bounds_witness :
  (0 < 1 - sqrt (Q2R 2500) / 100 <= 1)%R.
Proof.
  apply (stroke_alpha_bounds (mkCanvas 100%N 100%N)
           [mkParticle 0 0 0 0 1; mkParticle 50 0 0 0 1] (Q2R 0) (Q2R 0) (Q2R 50) (Q2R 0)).
  unfold drawParticles. rewrite drawConnections_connections. right. apply in_app_iff. right.
  vm_compute connections. left. reflexivity.
Defined.

(** The spec's two examples: particles at (0,0) and (50,0) are joined
    by one line of opacity 0.5; particles at (0,0) and (150,0) are not
    joined. *)
Theorem spec_examples_lines :
  drawConnections [mkParticle 0 0 0 0 1; mkParticle 50 0 0 0 1] =
    [StrokeLine (Q2R 0) (Q2R 0) (Q2R 50) (Q2R 0) (1/2)] /\
  drawConnections [mkParticle 0 0 0 0 1; mkParticle 150 0 0 0 1] = [].
Proof.
  rewrite !drawConnections_connections. split; [|reflexivity].
  vm_compute connections. cbn [map lineOf]. do 2 f_equal.
  assert (S : sqrt (Q2R 2500) = 50%R).
  { replace (Q2R 2500) with (Rsqr 50); [apply sqrt_Rsqr; lra|].
    unfold Q2R, Rsqr. cbn [Qnum Qden]. lra. }
  rewrite S. lra.
Qed.

(** Bounds: a frame issues at most [1 + n + n (n - 1) / 2] commands for
    [n] particles; with the 50 particles of the page, at most 1276. *)
Theorem drawParticles_length c ps :
  2 * length (drawParticles c ps) <= 2 + 2 * length ps + length ps * (length ps - 1).
Proof.
  unfold drawParticles. rewrite drawConnections_connections. cbn [length]. rewrite length_app, !length_map.
  pose proof (length_connections ps). lia.
Qed.

End Render.
