(* ===== verification/JsString.v ===== *)
(** * JavaScript string primitives

    The string operations the script calls, on strings of 8-bit characters:
    [String.prototype.substring] (used by the typing effect),
    [String.prototype.trim] and the whitespace class [\s] (used by the
    contact form). These are ECMAScript built-ins, not code of the
    repository; they are written from the ECMAScript definitions, with
    [substring]'s clamping of its arguments to [0, length] and its swap of
    a reversed range. *)

From Stdlib Require Import List String Ascii ZArith Lia.
From S2P Require Import Prelude.
Import ListNotations.

Module JsStr.

(** [s.substring(start, end)]: both arguments are clamped to
    [0, s.length]; if [start > end] they are swapped. *)
Definition substring (s : string) (start end_ : Z) : string :=
  let len := Z.of_nat (String.length s) in
  let a := Z.min (Z.max start 0) len in
  let b := Z.min (Z.max end_ 0) len in
  String.substring (Z.to_nat (Z.min a b)) (Z.to_nat (Z.max a b - Z.min a b)) s.

(** The first [k] characters of [s]. *)
Definition prefix (k : nat) (s : string) : string := String.substring 0 k s.

(** White space and line terminators of ECMAScript (the class [\s] and
    what [trim] removes), restricted to code points below 256: tab, line
    feed, vertical tab, form feed, carriage return, space and no-break
    space. *)
Definition is_space (c : ascii) : bool :=
  match nat_of_ascii c with
  | 9 | 10 | 11 | 12 | 13 | 32 | 160 => true
  | _ => false
  end.

Fixpoint drop_spaces (l : list ascii) : list ascii :=
  match l with
  | [] => []
  | c :: l' => if is_space c then drop_spaces l' else l
  end.

(** [s.trim()]: white space removed at both ends. *)
Definition trim (s : string) : string :=
  string_of_list_ascii (rev (drop_spaces (rev (drop_spaces (list_ascii_of_string s))))).

(** Characters that a string literal of the development cannot hold
    verbatim, and the indentation inside the script's template literals. *)
Definition dq : string := String (ascii_of_nat 34) EmptyString.
Definition nl : string := String (ascii_of_nat 10) EmptyString.
Definition spaces (n : nat) : string := String.concat "" (repeat " "%string n).

(** ** Lemmas *)

Lemma prefix_length_le k s : String.length (prefix k s) <= k.
Proof.
  unfold prefix. revert k. induction s as [|c s IH]; intros [|k]; cbn; try lia.
  specialize (IH k). lia.
Qed.

Lemma prefix_length k s : k <= String.length s -> String.length (prefix k s) = k.
Proof.
  unfold prefix. revert k. induction s as [|c s IH]; intros [|k] Hk; cbn in *; try lia.
  f_equal. apply IH. lia.
Qed.

Lemma prefix_full s : prefix (String.length s) s = s.
Proof. unfold prefix. induction s as [|c s IH]; cbn; [reflexivity|]. now rewrite IH. Qed.

Lemma prefix_0 s : prefix 0 s = EmptyString.
Proof. destruct s; reflexivity. Qed.

(** [substring] from 0 to an index in range is the prefix of that length;
    an index below 0 is clamped to 0. *)
Lemma substring_0 s k :
  (k <= Z.of_nat (String.length s))%Z -> substring s 0 k = prefix (Z.to_nat k) s.
Proof.
  intros Hk. unfold substring, prefix.
  set (len := Z.of_nat (String.length s)) in *.
  assert (Ea : Z.min (Z.max 0 0) len = 0%Z) by lia.
  assert (Eb : Z.min (Z.max k 0) len = Z.max k 0) by lia.
  rewrite Ea, Eb. replace (Z.min 0 (Z.max k 0)) with 0%Z by lia.
  replace (Z.max 0 (Z.max k 0) - 0)%Z with (Z.max k 0) by lia.
  f_equal. lia.
Qed.

End JsStr.
