(* ===== verification/Typing.v ===== *)
(** * The typing effect

    This file models [initTypingEffect], [script.js] lines 73-113. The
    closure variables [textIndex], [charIndex] and [isDeleting], and the
    [textContent] of the [.typing-text] element, form the record [typer].
    [typeText] is one timer callback: it returns the new state and the
    delay it passes to [setTimeout], or the [TypeError] the callback throws.
    [ticks n] runs [n] consecutive callbacks and adds up their delays. *)

From Stdlib Require Import String Ascii List ZArith Lia.
From S2P Require Import Prelude JsString.
Import ListNotations.
Local Open Scope bool_scope.

Module TypingEffect.

(** Lines 75-80. *)
Definition texts : list string :=
  [ "Building the future with code";
    "Creating amazing digital experiences";
    "Transforming ideas into reality";
    "Innovating with technology" ]%string.

(** The closure state, and the text shown by the element ([None] when
    [document.querySelector('.typing-text')] found nothing). *)
Record typer := mkTyper {
  textIndex : nat;
  charIndex : Z;
  isDeleting : bool;
  textContent : option string
}.

(** Lines 82-84: the state before the first callback. *)
Definition initTyper (content : option string) : typer := mkTyper 0 0 false content.

(** Lines 86-109, for a list of phrases [ts]. [ts[textIndex]] is
    [undefined] out of range, and reading its [substring] throws. *)
Definition typeText (ts : list string) (s : typer) : js_error + (typer * Z) :=
  match nth_error ts (textIndex s) with
  | None => inl (TypeError "currentText is undefined")
  | Some currentText =>
      let ci := if isDeleting s then (charIndex s - 1)%Z else (charIndex s + 1)%Z in
      match textContent s with
      | None => inl (TypeError "typingElement is null")
      | Some _ =>
          let content := Some (JsStr.substring currentText 0 ci) in
          let typeSpeed := if isDeleting s then 50%Z else 100%Z in
          if negb (isDeleting s) && (ci =? Z.of_nat (String.length currentText))%Z then
            inr (mkTyper (textIndex s) ci true content, 2000%Z)
          else if isDeleting s && (ci =? 0)%Z then
            inr (mkTyper (Nat.modulo (textIndex s + 1) (length ts)) ci false content, 500%Z)
          else inr (mkTyper (textIndex s) ci (isDeleting s) content, typeSpeed)
      end
  end.

(** [n] consecutive callbacks of the [setTimeout] chain: the final state
    and the sum of the delays they scheduled. *)
Fixpoint ticks (ts : list string) (n : nat) (s : typer) : js_error + (typer * Z) :=
  match n with
  | O => inr (s, 0%Z)
  | S n' =>
      match typeText ts s with
      | inl e => inl e
      | inr (s', d) =>
          match ticks ts n' s' with
          | inl e => inl e
          | inr (s'', t) => inr (s'', (d + t)%Z)
          end
      end
  end.

(** The chain as an event-driven machine: each event is one timer firing.
    An exception stops the chain, so an error state is final. *)
Definition tick (ts : list string) (r : js_error + typer) (_ : unit) : js_error + typer :=
  match r with
  | inl e => inl e
  | inr s => match typeText ts s with inl e => inl e | inr (s', _) => inr s' end
  end.

(** ** The invariant *)

(** [charIndex] counts the characters shown: below the phrase's length
    while typing, at least 1 while deleting. Once a callback has run, the
    element shows exactly that many characters of the current phrase. *)
Definition typer_inv (ts : list string) (s : typer) : Prop :=
  exists t, nth_error ts (textIndex s) = Some t /\
    (if isDeleting s then (1 <= charIndex s <= Z.of_nat (String.length t))%Z
     else (0 <= charIndex s < Z.of_nat (String.length t))%Z) /\
    textContent s <> None.

Definition shows_prefix (ts : list string) (s : typer) : Prop :=
  exists t, nth_error ts (textIndex s) = Some t /\
    textContent s = Some (JsStr.prefix (Z.to_nat (charIndex s)) t).

(** ** One callback, branch by branch *)

Section Phrase.
Variables (ts : list string) (i : nat) (t : string).
Hypothesis Hnth : nth_error ts i = Some t.

Local Abbreviation L := (Z.of_nat (String.length t)).

Lemma typeText_typing c cont :
  (0 <= c)%Z -> (c + 1 < L)%Z ->
  typeText ts (mkTyper i c false (Some cont)) =
  inr (mkTyper i (c + 1) false (Some (JsStr.substring t 0 (c + 1))), 100%Z).
Proof.
  intros H0 H1. unfold typeText. cbn [textIndex]. rewrite Hnth. cbn.
  destruct (Z.eqb_spec (c + 1) L); [lia | reflexivity].
Qed.

Lemma typeText_typed c cont :
  (c + 1 = L)%Z ->
  typeText ts (mkTyper i c false (Some cont)) = inr (mkTyper i L true (Some t), 2000%Z).
Proof.
  intros H1. unfold typeText. cbn [textIndex]. rewrite Hnth. cbn.
  rewrite H1, Z.eqb_refl. do 4 f_equal.
  rewrite JsStr.substring_0 by lia. rewrite Nat2Z.id. apply JsStr.prefix_full.
Qed.

Lemma typeText_deleting c cont :
  (2 <= c)%Z ->
  typeText ts (mkTyper i c true (Some cont)) =
  inr (mkTyper i (c - 1) true (Some (JsStr.substring t 0 (c - 1))), 50%Z).
Proof.
  intros H. unfold typeText. cbn [textIndex]. rewrite Hnth. cbn.
  destruct (Z.eqb_spec (c - 1) 0); [lia | reflexivity].
Qed.

Lemma typeText_deleted cont :
  typeText ts (mkTyper i 1 true (Some cont)) =
  inr (mkTyper (Nat.modulo (i + 1) (length ts)) 0 false (Some EmptyString), 500%Z).
Proof.
  unfold typeText. cbn [textIndex]. rewrite Hnth. cbn.
  rewrite (JsStr.substring_0 t 0) by lia. now rewrite JsStr.prefix_0.
Qed.

(** The typing phase: [k] callbacks from [charIndex = c] add [k]
    characters, 100 ms apart. *)
Lemma typing_phase k : forall c cont,
  (0 <= c)%Z -> (c + Z.of_nat k < L)%Z ->
  exists cont', ticks ts k (mkTyper i c false (Some cont)) =
                inr (mkTyper i (c + Z.of_nat k) false (Some cont'), (100 * Z.of_nat k)%Z).
Proof.
  induction k as [|k IH]; intros c cont H0 H1; cbn [ticks].
  - exists cont. now rewrite Z.add_0_r.
  - rewrite typeText_typing by lia.
    destruct (IH (c + 1)%Z (JsStr.substring t 0 (c + 1))) as [cont' ->]; [lia | lia |].
    exists cont'. do 2 f_equal; [f_equal|]; lia.
Qed.

(** The deleting phase: [k] callbacks remove [k] characters, 50 ms apart,
    as long as at least one character is left. *)
Lemma deleting_phase k : forall c cont,
  (1 <= c - Z.of_nat k)%Z ->
  exists cont', ticks ts k (mkTyper i c true (Some cont)) =
                inr (mkTyper i (c - Z.of_nat k) true (Some cont'), (50 * Z.of_nat k)%Z).
Proof.
  induction k as [|k IH]; intros c cont H; cbn [ticks].
  - exists cont. now rewrite Z.sub_0_r.
  - rewrite typeText_deleting by lia.
    destruct (IH (c - 1)%Z (JsStr.substring t 0 (c - 1))) as [cont' ->]; [lia |].
    exists cont'. do 2 f_equal; [f_equal|]; lia.
Qed.
End Phrase.

Lemma ticks_add ts a b s :
  ticks ts (a + b) s =
  match ticks ts a s with
  | inl e => inl e
  | inr (s', t1) => match ticks ts b s' with
                    | inl e => inl e
                    | inr (s'', t2) => inr (s'', (t1 + t2)%Z)
                    end
  end.
Proof.
  revert s. induction a as [|a IH]; intros s; cbn [ticks Nat.add].
  - destruct (ticks ts b s) as [|[]]; reflexivity.
  - destruct (typeText ts s) as [e|[s' d]]; [reflexivity|]. rewrite IH.
    destruct (ticks ts a s') as [e|[s'' t1]]; [reflexivity|].
    destruct (ticks ts b s'') as [e|[s3 t2]]; [reflexivity|]. now rewrite Z.add_assoc.
Qed.

(** The phrase after the last one wraps around to a non-empty phrase. *)
Lemma nth_next ts i t :
  Forall (fun t => String.length t <> 0) ts -> nth_error ts i = Some t ->
  exists t', nth_error ts (Nat.modulo (i + 1) (length ts)) = Some t' /\ String.length t' <> 0.
Proof.
  intros Hne Hnth.
  assert (Hlen : (i < length ts)%nat) by (apply nth_error_Some; congruence).
  assert (Hj : (Nat.modulo (i + 1) (length ts) < length ts)%nat) by (apply Nat.mod_upper_bound; lia).
  apply nth_error_Some in Hj.
  destruct (nth_error ts (Nat.modulo (i + 1) (length ts))) as [t'|] eqn:Ht'; [|congruence].
  exists t'. split; [reflexivity|]. rewrite Forall_forall in Hne. eauto using nth_error_In.
Qed.

(** After any callback from a state satisfying [typer_inv], the new state
    satisfies it again and shows the right prefix. *)
Lemma typeText_inv ts s :
  Forall (fun t => String.length t <> 0) ts -> typer_inv ts s ->
  exists s' d, typeText ts s = inr (s', d) /\ typer_inv ts s' /\ shows_prefix ts s'.
Proof.
  intros Hne (t & Hnth & Hc & Hel). destruct s as [i c del [cont|]]; [|now destruct Hel].
  cbn [textIndex charIndex isDeleting textContent] in *.
  unfold typer_inv, shows_prefix.
  destruct del.
  - destruct (Z.eq_dec c 1) as [->|Hc1].
    + destruct (nth_next ts i t Hne Hnth) as (t' & Ht' & Hl').
      rewrite (typeText_deleted ts i t Hnth). do 2 eexists. split; [reflexivity|]. cbn.
      split; exists t'; rewrite Ht'; repeat split; try lia; try discriminate.
      now rewrite JsStr.prefix_0.
    + rewrite (typeText_deleting ts i t Hnth) by lia. do 2 eexists. split; [reflexivity|]. cbn.
      split; exists t; rewrite Hnth; repeat split; try lia; try discriminate.
      rewrite JsStr.substring_0 by lia. reflexivity.
  - destruct (Z.eq_dec (c + 1) (Z.of_nat (String.length t))) as [He|Hn].
    + rewrite (typeText_typed ts i t Hnth) by exact He. do 2 eexists. split; [reflexivity|]. cbn.
      split; exists t; rewrite Hnth; repeat split; try lia; try discriminate.
      rewrite Nat2Z.id, JsStr.prefix_full. reflexivity.
    + rewrite (typeText_typing ts i t Hnth) by lia. do 2 eexists. split; [reflexivity|]. cbn.
      split; exists t; rewrite Hnth; repeat split; try lia; try discriminate.
      rewrite JsStr.substring_0 by lia. reflexivity.
Qed.

Lemma initTyper_inv ts t cont :
  nth_error ts 0 = Some t -> String.length t <> 0 -> typer_inv ts (initTyper (Some cont)).
Proof. intros H Hl. exists t. cbn. repeat split; try lia; try discriminate. assumption. Qed.

Lemma tick_inv ts s :
  Forall (fun t => String.length t <> 0) ts -> typer_inv ts s ->
  exists s', tick ts (inr s) tt = inr s' /\ typer_inv ts s' /\ shows_prefix ts s'.
Proof.
  intros Hne Hs. destruct (typeText_inv ts s Hne Hs) as (s' & d & E & H1 & H2).
  exists s'. cbn. rewrite E. auto.
Qed.

Lemma run_tick_error ts e es : run (tick ts) (inl e) es = inl e.
Proof. induction es as [|[] es IH]; [reflexivity | exact IH]. Qed.

(** ** Properties *)

(** C12. Invariant and safety: with non-empty phrases, the chain never
    throws; after every callback [charIndex] is in range for the current
    phrase and the element shows exactly its first [charIndex]
    characters. *)
Theorem typing_invariant ts t0 cont es :
  Forall (fun t => String.length t <> 0) ts -> nth_error ts 0 = Some t0 ->
  exists s, run (tick ts) (inr (initTyper (Some cont))) (tt :: es) = inr s /\
            typer_inv ts s /\ shows_prefix ts s.
Proof.
  intros Hne H0. assert (Hl0 : String.length t0 <> 0).
  { rewrite Forall_forall in Hne. eauto using nth_error_In. }
  destruct (tick_inv ts _ Hne (initTyper_inv ts t0 cont H0 Hl0)) as (s1 & E1 & Hi1 & Hp1).
  cbn [run fold_left]. rewrite E1.
  apply (run_invariant (tick ts) (fun r => exists s, r = inr s /\ typer_inv ts s /\ shows_prefix ts s)).
  - eauto.
  - intros r [] (s & -> & Hs & _). destruct (tick_inv ts s Hne Hs) as (s' & -> & ? & ?). eauto.
Qed.

Lemma typing_invariant_witness :
  exists s, run (tick texts) (inr (initTyper (Some ""%string))) [tt; tt; tt] = inr s /\
            typer_inv texts s /\ shows_prefix texts s.
Proof.
  apply (typing_invariant texts "Building the future with code"%string ""%string [tt; tt]).
  - repeat constructor; discriminate.
  - reflexivity.
Defined.

(** C13. A phrase of length [L > 0] is typed and erased in exactly [2 L]
    callbacks taking [150 L + 2350] ms (typing 100 ms apart, a 2000 ms
    pause, erasing 50 ms apart, a 500 ms pause); then the next phrase,
    modulo the number of phrases, starts from an empty text. *)
Theorem phrase_cycle ts i t cont :
  nth_error ts i = Some t -> String.length t <> 0 ->
  ticks ts (2 * String.length t) (mkTyper i 0 false (Some cont)) =
  inr (mkTyper (Nat.modulo (i + 1) (length ts)) 0 false (Some EmptyString),
       (150 * Z.of_nat (String.length t) + 2350)%Z).
Proof.
  intros Hnth Hl. destruct (String.length t) as [|m] eqn:Hm; [lia|].
  replace (2 * S m) with (m + (1 + (m + 1))) by lia.
  rewrite ticks_add.
  destruct (typing_phase ts i t Hnth m 0 cont) as [c1 ->]; [lia | rewrite Hm; lia |].
  rewrite ticks_add. cbn [ticks]. rewrite (typeText_typed ts i t Hnth) by (rewrite Hm; lia).
  rewrite ticks_add.
  destruct (deleting_phase ts i t Hnth m (Z.of_nat (String.length t)) t) as [c2 ->];
    [rewrite Hm; lia |].
  cbn [ticks]. replace (Z.of_nat (String.length t) - Z.of_nat m)%Z with 1%Z by (rewrite Hm; lia).
  rewrite (typeText_deleted ts i t Hnth). do 2 f_equal. lia.
Qed.

Lemma phrase_cycle_witness :
  ticks texts (2 * String.length "Creating amazing digital experiences")
    (mkTyper 1 0 false (Some "x"%string)) =
  inr (mkTyper (Nat.modulo (1 + 1) (length texts)) 0 false (Some EmptyString),
       (150 * Z.of_nat (String.length "Creating amazing digital experiences") + 2350)%Z).
Proof. apply phrase_cycle; [reflexivity | discriminate]. Defined.

(** C14. Liveness of the display: [L] callbacks after a phrase starts, the
    element shows the whole phrase. The delays these callbacks schedule
    add up to [100 L + 1900] ms: the [L - 1] waits of 100 ms before the
    last character appears, then the 2000 ms pause the [L]-th callback
    schedules while the whole phrase stays on screen. *)
Theorem phrase_shown ts i t cont :
  nth_error ts i = Some t -> String.length t <> 0 ->
  ticks ts (String.length t) (mkTyper i 0 false (Some cont)) =
  inr (mkTyper i (Z.of_nat (String.length t)) true (Some t),
       (100 * Z.of_nat (String.length t) + 1900)%Z).
Proof.
  intros Hnth Hl. destruct (String.length t) as [|m] eqn:Hm; [lia|].
  replace (S m) with (m + 1) at 1 by lia. rewrite ticks_add.
  destruct (typing_phase ts i t Hnth m 0 cont) as [c1 ->]; [lia | rewrite Hm; lia |].
  cbn [ticks]. rewrite (typeText_typed ts i t Hnth) by (rewrite Hm; lia).
  rewrite Hm. do 2 f_equal. lia.
Qed.

Lemma phrase_shown_witness :
  ticks texts (String.length "Building the future with code")
    (mkTyper 0 0 false (Some ""%string)) =
  inr (mkTyper 0 (Z.of_nat (String.length "Building the future with code")) true
         (Some "Building the future with code"%string),
       (100 * Z.of_nat (String.length "Building the future with code") + 1900)%Z).
Proof. apply phrase_shown; [reflexivity | discriminate]. Defined.

(** C15. Error path: without a [.typing-text] element the first callback
    (one second after load) throws a [TypeError], and the chain stops. *)
Theorem typing_no_element ts t0 es :
  nth_error ts 0 = Some t0 ->
  run (tick ts) (inr (initTyper None)) (tt :: es) = inl (TypeError "typingElement is null").
Proof.
  intros H0. cbn [run fold_left]. unfold tick, typeText, initTyper.
  cbn [textIndex textContent]. rewrite H0. apply run_tick_error.
Qed.

Lemma typing_no_element_witness :
  run (tick texts) (inr (initTyper None)) [tt; tt] = inl (TypeError "typingElement is null").
Proof. apply (typing_no_element texts "Building the future with code"%string [tt]). reflexivity. Defined.

End TypingEffect.
