(* ===== verification/Regex.v ===== *)
(** * Regular expressions, as [RegExp.prototype.test] runs them

    The contact form validates e-mail addresses with a regular-expression
    literal anchored at both ends. This file gives the subset of
    JavaScript regular expressions that literal uses: character classes,
    concatenation, alternation and repetition ([r+] is [r r*]). It has
    two meanings. [matches] is the inductive language semantics. [matchb]
    is an executable matcher by Brzozowski derivatives, proved equal to
    it. The regex engine is the browser's, not code of the repository,
    so it is written from the ECMAScript semantics of these operators. *)

From Stdlib Require Import List Ascii Bool.
From S2P Require Import Prelude.
Import ListNotations.

Module Regex.

Inductive re :=
| Empty
| Eps
| Chr (p : ascii -> bool)
| Alt (r1 r2 : re)
| Seq (r1 r2 : re)
| Star (r : re).

(** [r+]. *)
Definition Plus (r : re) : re := Seq r (Star r).

Inductive matches : re -> list ascii -> Prop :=
| m_eps : matches Eps []
| m_chr p c : p c = true -> matches (Chr p) [c]
| m_alt_l r1 r2 l : matches r1 l -> matches (Alt r1 r2) l
| m_alt_r r1 r2 l : matches r2 l -> matches (Alt r1 r2) l
| m_seq r1 r2 l1 l2 : matches r1 l1 -> matches r2 l2 -> matches (Seq r1 r2) (l1 ++ l2)
| m_star_nil r : matches (Star r) []
| m_star_cons r l1 l2 : matches r l1 -> matches (Star r) l2 -> matches (Star r) (l1 ++ l2).

#[export] Hint Constructors matches : portfolio.

Fixpoint nullable (r : re) : bool :=
  match r with
  | Empty | Chr _ => false
  | Eps | Star _ => true
  | Alt r1 r2 => nullable r1 || nullable r2
  | Seq r1 r2 => nullable r1 && nullable r2
  end.

Fixpoint deriv (c : ascii) (r : re) : re :=
  match r with
  | Empty | Eps => Empty
  | Chr p => if p c then Eps else Empty
  | Alt r1 r2 => Alt (deriv c r1) (deriv c r2)
  | Seq r1 r2 =>
      if nullable r1 then Alt (Seq (deriv c r1) r2) (deriv c r2) else Seq (deriv c r1) r2
  | Star r1 => Seq (deriv c r1) (Star r1)
  end.

(** A whole-input match, as a pattern anchored by [^] and [$] without the
    [m] flag. *)
Fixpoint matchb (r : re) (l : list ascii) : bool :=
  match l with
  | [] => nullable r
  | c :: l' => matchb (deriv c r) l'
  end.

(** ** Correctness of the matcher *)

Lemma seq_iff r1 r2 l :
  matches (Seq r1 r2) l <-> exists l1 l2, l = l1 ++ l2 /\ matches r1 l1 /\ matches r2 l2.
Proof.
  split.
  - intros H. inversion H; subst. eauto.
  - intros (l1 & l2 & -> & H1 & H2). now constructor.
Qed.

Lemma chr_iff p l : matches (Chr p) l <-> exists c, l = [c] /\ p c = true.
Proof.
  split.
  - intros H. inversion H; subst. eauto.
  - intros (c & -> & H). now constructor.
Qed.

Lemma nullable_correct r : nullable r = true <-> matches r [].
Proof.
  induction r as [| |p|r1 IH1 r2 IH2|r1 IH1 r2 IH2|r IH]; cbn; split; intros H.
  - discriminate.
  - inversion H.
  - constructor.
  - reflexivity.
  - discriminate.
  - inversion H.
  - apply orb_true_iff in H as [H|H]; [apply m_alt_l, IH1 | apply m_alt_r, IH2]; exact H.
  - apply orb_true_iff. inversion H; subst; [left; apply IH1 | right; apply IH2]; assumption.
  - apply andb_true_iff in H as [H1 H2]. apply (m_seq _ _ [] []); [apply IH1 | apply IH2]; assumption.
  - apply andb_true_iff. apply seq_iff in H as (l1 & l2 & E & H1 & H2).
    symmetry in E. apply app_eq_nil in E as [-> ->]. split; [apply IH1 | apply IH2]; assumption.
  - constructor.
  - reflexivity.
Qed.

(** A non-empty word in [r*] starts with a non-empty word of [r]. *)
Lemma star_cons_inv r c l :
  matches (Star r) (c :: l) ->
  exists l1 l2, l = l1 ++ l2 /\ matches r (c :: l1) /\ matches (Star r) l2.
Proof.
  intros H. remember (Star r) as s eqn:Es. remember (c :: l) as w eqn:Ew.
  revert c l Ew. induction H as [| | | | | |r0 l1 l2 H1 _ H2 IH2];
    intros c0 l0 Ew; try discriminate.
  injection Es as ->. destruct l1 as [|c1 l1]; cbn in Ew.
  - now apply (IH2 eq_refl).
  - injection Ew as -> <-. exists l1, l2. auto.
Qed.

Lemma deriv_correct c r l : matches (deriv c r) l <-> matches r (c :: l).
Proof.
  revert l. induction r as [| |p|r1 IH1 r2 IH2|r1 IH1 r2 IH2|r IH]; intros l; cbn; split; intros H.
  - inversion H.
  - inversion H.
  - inversion H.
  - inversion H.
  - destruct (p c) eqn:E; inversion H; subst. now constructor.
  - inversion H as [|? ? Hc| | | | |]; subst. rewrite Hc. constructor.
  - inversion H; subst; [apply m_alt_l, IH1 | apply m_alt_r, IH2]; assumption.
  - inversion H; subst; [apply m_alt_l, IH1 | apply m_alt_r, IH2]; assumption.
  - destruct (nullable r1) eqn:N.
    + inversion H as [| |? ? ? H'|? ? ? H'| | |]; subst.
      * apply seq_iff in H' as (l1 & l2 & -> & H1 & H2).
        apply IH1 in H1. now apply (m_seq r1 r2 (c :: l1) l2).
      * apply nullable_correct in N. apply IH2 in H'. now apply (m_seq r1 r2 [] (c :: l)).
    + apply seq_iff in H as (l1 & l2 & -> & H1 & H2).
      apply IH1 in H1. now apply (m_seq r1 r2 (c :: l1) l2).
  - apply seq_iff in H as (l1 & l2 & E & H1 & H2).
    destruct l1 as [|c1 l1]; cbn in E.
    + subst l2. assert (N : nullable r1 = true) by now apply nullable_correct.
      rewrite N. apply m_alt_r, IH2. assumption.
    + injection E as Ec El. subst c1. rewrite El.
      assert (D : matches (Seq (deriv c r1) r2) (l1 ++ l2))
        by (constructor; [apply IH1 |]; assumption).
      destruct (nullable r1); [apply m_alt_l|]; exact D.
  - apply seq_iff in H as (l1 & l2 & -> & H1 & H2).
    apply IH in H1. now apply (m_star_cons r (c :: l1) l2).
  - apply star_cons_inv in H as (l1 & l2 & -> & H1 & H2).
    constructor; [apply IH |]; assumption.
Qed.

Theorem matchb_correct r l : matchb r l = true <-> matches r l.
Proof.
  revert r. induction l as [|c l IH]; intros r; cbn.
  - apply nullable_correct.
  - rewrite IH. apply deriv_correct.
Qed.

(** ** Derived forms *)

(** A word of [r*], for a one-character class [r], is any word of that
    class. *)
Lemma star_chr_iff p l : matches (Star (Chr p)) l <-> Forall (fun c => p c = true) l.
Proof.
  split.
  - remember (Star (Chr p)) as s eqn:Es. intros H. induction H; try discriminate.
    + constructor.
    + injection Es as ->. inversion H; subst. constructor; auto.
  - induction 1 as [|c l Hc _ IH]; [constructor|].
    apply (m_star_cons _ [c] l); [constructor|]; assumption.
Qed.

Lemma plus_chr_iff p l : matches (Plus (Chr p)) l <-> l <> [] /\ Forall (fun c => p c = true) l.
Proof.
  unfold Plus. split.
  - intros H. apply seq_iff in H as (l1 & l2 & -> & H1 & H2).
    inversion H1; subst. apply star_chr_iff in H2. split; [discriminate | constructor; auto].
  - intros [Hne HF]. destruct l as [|c l]; [contradiction|]. inversion HF; subst.
    apply (m_seq _ _ [c] l); [constructor; assumption | apply star_chr_iff; assumption].
Qed.


End Regex.
