(* ===== verification/ContactForm.v ===== *)
(** * The contact form

    This file models [initContactForm], [script.js] lines 242-350: the
    submit listener, [validateForm], [isValidEmail], [submitForm] and
    [showNotification]. The state [form_state] holds the form's field
    values, the submit button's label and [disabled] flag, the
    notifications attached to [document.body] with their slide phase, the
    clock, and the pending [setTimeout] callbacks. A step is one event: the
    user editing the fields, a [submit] event, or the next timer firing.

    [setTimeout] is modelled as a queue ordered by due time, where timers
    with the same due time fire in the order they were scheduled. *)

From Stdlib Require Import String Ascii List ZArith Lia Bool Sorted Permutation.
From S2P Require Import Prelude JsString Regex.
Import ListNotations.
Local Open Scope bool_scope.
Local Open Scope string_scope.

Module ContactForm.
Import Regex.

(** Lines 250-255: the four values read from [FormData]. *)
Record formData := mkFormData { name : string; email : string; subject : string; message : string }.

(** The fields after [form.reset()]: the markup gives them no default. *)
Definition emptyForm : formData := mkFormData "" "" "" "".

(** ** [isValidEmail], lines 293-296 *)

(** [[^\s@]]. *)
Definition notSpaceAt (c : ascii) : bool := negb (JsStr.is_space c) && negb (c =? "@")%char.

(** [/^[^\s@]+@[^\s@]+\.[^\s@]+$/]. *)
Definition emailRegex : re :=
  Seq (Plus (Chr notSpaceAt))
      (Seq (Chr (fun c => (c =? "@")%char))
           (Seq (Plus (Chr notSpaceAt))
                (Seq (Chr (fun c => (c =? ".")%char)) (Plus (Chr notSpaceAt))))).

Definition isValidEmail (email : string) : bool := matchb emailRegex (list_ascii_of_string email).

(** ** [validateForm], lines 264-291 *)

Definition blank (s : string) : bool := (JsStr.trim s =? "")%string.

(** The [errors] array, in the order the checks push into it. *)
Definition validationErrors (d : formData) : list string :=
  (if blank (name d) then ["Name is required"] else []) ++
  (if blank (email d) then ["Email is required"]
   else if negb (isValidEmail (email d)) then ["Please enter a valid email address"] else []) ++
  (if blank (subject d) then ["Subject is required"] else []) ++
  (if blank (message d) then ["Message is required"] else []).

(** ** Notifications and timers *)

Inductive kind := KSuccess | KError.

(** The slide of a notification: [translateX(400px)] when it enters,
    [translateX(0)] once shown, [translateX(400px)] again when it leaves. *)
Inductive phase := Entering | Shown | Leaving.

Record notif := mkNotif { nid : nat; ntext : string; nkind : kind; nphase : phase }.

(** The callbacks the component passes to [setTimeout]. *)
Inductive callback :=
| CbSubmitDone (originalText : string)   (* lines 306-311 *)
| CbSlideIn (id : nat)                   (* lines 338-340 *)
| CbSlideOut (id : nat)                  (* lines 343-348 *)
| CbRemove (id : nat).                   (* lines 345-347 *)

Record timer := mkTimer { due : Z; cb : callback }.

Record form_state := mkForm {
  fields : formData;
  btnText : string;
  btnDisabled : bool;
  body : list notif;
  nextId : nat;
  now : Z;
  timers : list timer
}.

(** Scheduling: a timer goes after every timer due no later than it. *)
Fixpoint schedule (t : timer) (ts : list timer) : list timer :=
  match ts with
  | [] => [t]
  | t' :: ts' => if (due t <? due t')%Z then t :: ts else t' :: schedule t ts'
  end.

Definition setTimeout (c : callback) (delay : Z) (s : form_state) : form_state :=
  mkForm (fields s) (btnText s) (btnDisabled s) (body s) (nextId s) (now s)
         (schedule (mkTimer (now s + delay) c) (timers s)).

(** Lines 314-349: append the element, then schedule its slide-in after
    100 ms and its slide-out after 5000 ms. *)
Definition showNotification (msg : string) (k : kind) (s : form_state) : form_state :=
  let id := nextId s in
  let s1 := mkForm (fields s) (btnText s) (btnDisabled s)
                   (body s ++ [mkNotif id msg k Entering]) (S id) (now s) (timers s) in
  setTimeout (CbSlideOut id) 5000 (setTimeout (CbSlideIn id) 100 s1).

Definition setPhase (id : nat) (ph : phase) (ns : list notif) : list notif :=
  map (fun n => if Nat.eqb (nid n) id then mkNotif (nid n) (ntext n) (nkind n) ph else n) ns.

Definition withBody (ns : list notif) (s : form_state) : form_state :=
  mkForm (fields s) (btnText s) (btnDisabled s) ns (nextId s) (now s) (timers s).

(** Lines 264-291: [validateForm] returns whether the data is valid; when
    it is not, it has shown the errors joined by [", "]. *)
Definition validateForm (d : formData) (s : form_state) : bool * form_state :=
  match validationErrors d with
  | [] => (true, s)
  | errs => (false, showNotification (String.concat ", " errs) KError s)
  end.

(** Lines 298-312: [submitForm]. *)
Definition submitForm (s : form_state) : form_state :=
  setTimeout (CbSubmitDone (btnText s)) 2000
    (mkForm (fields s) "Sending..." true (body s) (nextId s) (now s) (timers s)).

(** Lines 245-262: the submit listener ([e.preventDefault()] keeps the
    page where it is). *)
Definition onSubmit (s : form_state) : form_state :=
  let '(ok, s1) := validateForm (fields s) s in
  if ok then submitForm s1 else s1.

(** Running one callback. [removeChild] of an element that is not a child
    of [document.body] throws a [NotFoundError]. *)
Definition runCallback (c : callback) (s : form_state) : js_error + form_state :=
  match c with
  | CbSubmitDone orig =>
      let s1 := showNotification "Message sent successfully!" KSuccess s in
      inr (mkForm emptyForm orig false (body s1) (nextId s1) (now s1) (timers s1))
  | CbSlideIn id => inr (withBody (setPhase id Shown (body s)) s)
  | CbSlideOut id => inr (setTimeout (CbRemove id) 300 (withBody (setPhase id Leaving (body s)) s))
  | CbRemove id =>
      if existsb (fun n => Nat.eqb (nid n) id) (body s)
      then inr (withBody (filter (fun n => negb (Nat.eqb (nid n) id)) (body s)) s)
      else inl (DOMException "NotFoundError")
  end.

(** The next timer fires: the clock moves to its due time. *)
Definition fire (s : form_state) : js_error + form_state :=
  match timers s with
  | [] => inr s
  | t :: ts => runCallback (cb t) (mkForm (fields s) (btnText s) (btnDisabled s) (body s)
                                          (nextId s) (due t) ts)
  end.

Inductive event := Input (d : formData) | Submit | Fire.

(** The handlers as written: a [submit] event runs [onSubmit] whatever the
    state of the button. *)
Definition step (s : form_state) (e : event) : js_error + form_state :=
  match e with
  | Input d => inr (mkForm d (btnText s) (btnDisabled s) (body s) (nextId s) (now s) (timers s))
  | Submit => inr (onSubmit s)
  | Fire => fire s
  end.

(** The browser does not submit a form through a disabled submit button:
    clicking it does nothing, and implicit submission is blocked. *)
Definition browser_step (s : form_state) (e : event) : js_error + form_state :=
  match e with
  | Submit => if btnDisabled s then inr s else step s e
  | _ => step s e
  end.

Definition lift (f : form_state -> event -> js_error + form_state)
  (r : js_error + form_state) (e : event) : js_error + form_state :=
  match r with inl err => inl err | inr s => f s e end.

(** The page after load: empty fields, an enabled button with label [T],
    no notification, no timer. *)
Definition idle (T : string) : form_state := mkForm emptyForm T false [] 0 0 [].

(** ** The e-mail pattern, in plain terms *)

(** A local part, an [@], a domain part, a [.] and a last part, all three
    non-empty and free of white space and [@]. The domain part may itself
    contain dots. *)
Definition email_shape (l : list ascii) : Prop :=
  exists a b c, l = (a ++ "@"%char :: b ++ "."%char :: c)%list /\
    a <> [] /\ b <> [] /\ c <> [] /\ Forall (fun x => notSpaceAt x = true) (a ++ b ++ c)%list.

(** ** The pending timers, counted *)

Definition countp (f : callback -> bool) (ts : list timer) : nat :=
  length (filter (fun t => f (cb t)) ts).

Definition isSubmit (c : callback) : bool :=
  match c with CbSubmitDone _ => true | _ => false end.

Definition isSubmitOf (T : string) (c : callback) : bool :=
  match c with CbSubmitDone o => (o =? T)%string | _ => false end.

(** The callbacks that will end notification [id]: its slide-out, or its
    removal once the slide-out has run. *)
Definition isOutOf (id : nat) (c : callback) : bool :=
  match c with CbSlideOut j | CbRemove j => Nat.eqb j id | _ => false end.

Definition live (id : nat) (ns : list notif) : bool :=
  existsb (fun i => Nat.eqb i id) (map nid ns).

(** The button shows its label [T] and no submission is pending, or it is
    disabled, shows ["Sending..."] and exactly one submission is pending,
    which will restore [T]. *)
Definition button_inv (T : string) (s : form_state) : Prop :=
  (btnDisabled s = false /\ btnText s = T /\ countp isSubmit (timers s) = 0) \/
  (btnDisabled s = true /\ btnText s = "Sending..." /\
   countp isSubmit (timers s) = 1 /\ countp (isSubmitOf T) (timers s) = 1).

(** Notification identifiers are distinct and fresh, and each attached
    notification has exactly one pending callback that will end it. *)
Definition notif_inv (s : form_state) : Prop :=
  NoDup (map nid (body s)) /\ Forall (fun i => i < nextId s) (map nid (body s)) /\
  forall id, countp (isOutOf id) (timers s) = if live id (body s) then 1 else 0.

Definition form_inv (T : string) (s : form_state) : Prop := button_inv T s /\ notif_inv s.

(** The weight of the pending work: a submission still has to schedule a
    slide-in and a slide-out, a slide-out still has to schedule a removal. *)
Definition cbWeight (c : callback) : nat :=
  match c with CbSubmitDone _ => 4 | CbSlideOut _ => 2 | CbSlideIn _ | CbRemove _ => 1 end.

Fixpoint weight (ts : list timer) : nat :=
  match ts with [] => 0 | t :: ts' => cbWeight (cb t) + weight ts' end.

(** The event loop running the pending timers, at most [n] of them. *)
Fixpoint drain (n : nat) (s : form_state) : js_error + form_state :=
  match n with
  | O => inr s
  | S n' =>
      match timers s with
      | [] => inr s
      | _ :: _ => match fire s with inl e => inl e | inr s' => drain n' s' end
      end
  end.

Lemma countp_cons f t ts : countp f (t :: ts) = (if f (cb t) then 1 else 0) + countp f ts.
Proof. unfold countp. cbn. destruct (f (cb t)); reflexivity. Qed.

Lemma countp_schedule f t ts : countp f (schedule t ts) = countp f (t :: ts).
Proof.
  induction ts as [|t' ts IH]; cbn [schedule]; [reflexivity|].
  destruct (_ <? _)%Z; [reflexivity|]. rewrite !countp_cons, IH, countp_cons. lia.
Qed.

Lemma countp_setTimeout f c d s :
  countp f (timers (setTimeout c d s)) = (if f c then 1 else 0) + countp f (timers s).
Proof. unfold setTimeout. cbn [timers]. rewrite countp_schedule, countp_cons. reflexivity. Qed.

Lemma countp_mono f g ts : (forall c, f c = true -> g c = true) -> countp f ts <= countp g ts.
Proof.
  intros Hfg. induction ts as [|t ts IH]; [cbn; lia|]. rewrite !countp_cons.
  destruct (f (cb t)) eqn:E; [rewrite (Hfg _ E)|destruct (g (cb t))]; lia.
Qed.

Lemma weight_schedule t ts : weight (schedule t ts) = cbWeight (cb t) + weight ts.
Proof.
  induction ts as [|t' ts IH]; cbn [schedule]; [reflexivity|].
  destruct (_ <? _)%Z; [reflexivity|]. cbn [weight]. rewrite IH. lia.
Qed.

Lemma weight_setTimeout c d s : weight (timers (setTimeout c d s)) = cbWeight c + weight (timers s).
Proof. apply weight_schedule. Qed.

Lemma live_app j ns n : live j (ns ++ [n]) = live j ns || Nat.eqb (nid n) j.
Proof. unfold live. rewrite map_app, existsb_app. cbn. now rewrite orb_false_r. Qed.

Lemma live_fresh j ns : Forall (fun i => i < j) (map nid ns) -> live j ns = false.
Proof.
  unfold live. induction (map nid ns) as [|i l IH]; intros H; [reflexivity|].
  inversion H as [|? ? Hi Hl]; subst. cbn. rewrite (IH Hl).
  destruct (Nat.eqb_spec i j); [lia | reflexivity].
Qed.

Lemma map_nid_setPhase id ph ns : map nid (setPhase id ph ns) = map nid ns.
Proof.
  unfold setPhase. rewrite map_map. apply map_ext. intros n. now destruct (Nat.eqb (nid n) id).
Qed.

Lemma live_setPhase j id ph ns : live j (setPhase id ph ns) = live j ns.
Proof. unfold live. now rewrite map_nid_setPhase. Qed.

Lemma map_nid_filter id ns :
  map nid (filter (fun n => negb (Nat.eqb (nid n) id)) ns) =
  filter (fun i => negb (Nat.eqb i id)) (map nid ns).
Proof.
  induction ns as [|n ns IH]; cbn; [reflexivity|].
  destruct (Nat.eqb (nid n) id); cbn; now rewrite IH.
Qed.

(** The check of [CbRemove] is [live]. *)
Lemma existsb_live id ns : existsb (fun n => Nat.eqb (nid n) id) ns = live id ns.
Proof. unfold live. induction ns as [|n ns IH]; cbn; [reflexivity|]. now rewrite IH. Qed.

Lemma live_filter j id ns :
  live j (filter (fun n => negb (Nat.eqb (nid n) id)) ns) = live j ns && negb (Nat.eqb j id).
Proof.
  unfold live. rewrite map_nid_filter. induction (map nid ns) as [|i l IH]; cbn; [reflexivity|].
  destruct (Nat.eqb i id) eqn:E1; cbn; rewrite IH;
    destruct (Nat.eqb i j) eqn:E2, (Nat.eqb j id) eqn:E3, (existsb _ l); cbn; try reflexivity;
    repeat match goal with
    | H : Nat.eqb _ _ = true |- _ => apply Nat.eqb_eq in H
    | H : Nat.eqb _ _ = false |- _ => apply Nat.eqb_neq in H
    end; subst; congruence.
Qed.


(** ** Preservation of the invariant, operation by operation *)

Ltac timers_simpl :=
  repeat first [ rewrite countp_setTimeout in * | rewrite countp_schedule in *
               | rewrite countp_cons in * | rewrite weight_setTimeout in *
               | rewrite weight_schedule in *
               | progress cbn [isSubmit isSubmitOf isOutOf cbWeight cb timers btnDisabled btnText
                               body nextId fields now setTimeout showNotification withBody
                               weight Nat.add] in * ].

Lemma NoDup_snoc {A} (l : list A) x : NoDup l -> ~ In x l -> NoDup (l ++ [x]).
Proof.
  intros Hl Hx. apply NoDup_app; [exact Hl | repeat constructor; auto |].
  intros a Ha [<-|[]]. contradiction.
Qed.

Lemma Forall_lt_In j l : Forall (fun i => i < j) l -> ~ In j l.
Proof. intros H Hin. rewrite Forall_forall in H. specialize (H j Hin). lia. Qed.

Lemma showNotification_notif m k s : notif_inv s -> notif_inv (showNotification m k s).
Proof.
  intros (Hnd & Hlt & Hc). unfold notif_inv. timers_simpl. rewrite map_app. cbn [map nid].
  split; [|split].
  - apply NoDup_snoc; [exact Hnd | now apply Forall_lt_In].
  - apply Forall_app. split; [|repeat constructor].
    eapply Forall_impl; [|exact Hlt]. cbn. lia.
  - intros j. timers_simpl. rewrite live_app, Hc. cbn [nid].
    destruct (Nat.eqb_spec (nextId s) j) as [<-|Hne].
    + rewrite (live_fresh _ _ Hlt). reflexivity.
    + now rewrite orb_false_r.
Qed.

Lemma showNotification_button T m k s : button_inv T s -> button_inv T (showNotification m k s).
Proof. unfold button_inv. timers_simpl. tauto. Qed.

Lemma showNotification_inv T m k s : form_inv T s -> form_inv T (showNotification m k s).
Proof. intros [Hb Hn]. split; [apply showNotification_button | apply showNotification_notif]; assumption. Qed.

Lemma submitForm_notif s : notif_inv s -> notif_inv (submitForm s).
Proof.
  intros (Hnd & Hlt & Ho). unfold submitForm, notif_inv. timers_simpl.
  repeat split; auto. intros j. timers_simpl. apply Ho.
Qed.

Lemma submitForm_inv T s :
  btnDisabled s = false -> btnText s = T -> countp isSubmit (timers s) = 0 -> notif_inv s ->
  form_inv T (submitForm s).
Proof.
  intros Hd Ht Hc Hn. split; [|now apply submitForm_notif].
  assert (Hm : countp (isSubmitOf T) (timers s) <= countp isSubmit (timers s))
    by (apply countp_mono; intros [] H; cbn in *; congruence).
  unfold submitForm, button_inv. timers_simpl. rewrite Ht, String.eqb_refl.
  right. repeat split; try reflexivity; lia.
Qed.

(** The pieces of the invariant at a timer [t] about to fire, once it has
    been taken off the queue. *)
Lemma notif_inv_pop s t ts :
  timers s = t :: ts -> (forall j, isOutOf j (cb t) = false) ->
  notif_inv s -> notif_inv (mkForm (fields s) (btnText s) (btnDisabled s) (body s) (nextId s) (due t) ts).
Proof.
  intros Ht Hno (Hnd & Hlt & Hc). unfold notif_inv; cbn [body nextId timers].
  repeat split; auto. intros j. rewrite <- Hc, Ht, countp_cons, Hno. reflexivity.
Qed.

Lemma button_inv_pop T s t ts :
  timers s = t :: ts -> isSubmit (cb t) = false ->
  button_inv T s -> button_inv T (mkForm (fields s) (btnText s) (btnDisabled s) (body s) (nextId s) (due t) ts).
Proof.
  intros Ht Hs. unfold button_inv; cbn [btnDisabled btnText timers]. rewrite Ht, !countp_cons, Hs.
  assert (Hs' : isSubmitOf T (cb t) = false) by (destruct (cb t); cbn in *; congruence).
  rewrite Hs'. tauto.
Qed.

(** The notification half of the invariant: a fire keeps [notif_inv],
    never throws, and lowers the weight of the queue. *)
Lemma fire_notif s :
  notif_inv s ->
  exists s', fire s = inr s' /\ notif_inv s' /\ (timers s <> [] -> weight (timers s') < weight (timers s)).
Proof.
  intros Hn. unfold fire. destruct (timers s) as [|t ts] eqn:Ht.
  - exists s. split; [reflexivity|]. split; [assumption | congruence].
  - destruct t as [d c]. cbn [cb due].
    destruct c as [orig|id|id|id]; cbn [runCallback].
    + (* the submission completes *)
      assert (Hn0 : notif_inv (mkForm (fields s) (btnText s) (btnDisabled s) (body s) (nextId s) d ts))
        by (apply (notif_inv_pop s (mkTimer d (CbSubmitDone orig)) ts); auto).
      pose proof (showNotification_notif "Message sent successfully!" KSuccess _ Hn0) as Hn1.
      eexists. split; [reflexivity|]. split.
      * destruct Hn1 as (? & ? & ?). unfold notif_inv. cbn. auto.
      * intros _. timers_simpl. lia.
    + (* slide-in *)
      eexists. split; [reflexivity|]. split.
      * destruct Hn as (Hnd & Hlt & Hc). unfold notif_inv, withBody; cbn [body nextId timers].
        rewrite map_nid_setPhase. repeat split; auto. intros j.
        rewrite live_setPhase, <- Hc, Ht, countp_cons. reflexivity.
      * intros _. cbn. lia.
    + (* slide-out: the removal is scheduled *)
      eexists. split; [reflexivity|]. split.
      * destruct Hn as (Hnd & Hlt & Hc). unfold notif_inv. timers_simpl.
        rewrite map_nid_setPhase. repeat split; auto. intros j.
        timers_simpl. rewrite live_setPhase, <- Hc, Ht, countp_cons. timers_simpl. reflexivity.
      * intros _. timers_simpl. lia.
    + (* removal: the element is still attached *)
      destruct Hn as (Hnd & Hlt & Hc).
      assert (Hl : live id (body s) = true).
      { specialize (Hc id). rewrite Ht, countp_cons in Hc. cbn in Hc. rewrite Nat.eqb_refl in Hc.
        destruct (live id (body s)); [reflexivity | lia]. }
      cbn [body]. rewrite existsb_live, Hl.
      eexists. split; [reflexivity|]. split.
      * unfold notif_inv, withBody; cbn [body nextId timers]. rewrite map_nid_filter. split; [|split].
        -- now apply NoDup_filter.
        -- rewrite Forall_forall in *. intros i Hi. apply filter_In in Hi. apply Hlt, Hi.
        -- intros j. rewrite live_filter. specialize (Hc j). rewrite Ht, countp_cons in Hc.
           cbn in Hc. destruct (Nat.eqb_spec id j) as [<-|Hne].
           ++ rewrite Hl in Hc. rewrite Nat.eqb_refl, andb_false_r. lia.
           ++ rewrite (proj2 (Nat.eqb_neq j id) (not_eq_sym Hne)), andb_true_r. exact Hc.
      * intros _. cbn. lia.
Qed.

(** The button half: a fire that returns keeps [button_inv]. *)
Lemma fire_button T s s' : button_inv T s -> fire s = inr s' -> button_inv T s'.
Proof.
  intros Hb Hf. unfold fire in Hf. destruct (timers s) as [|t ts] eqn:Ht; [now injection Hf as <-|].
  destruct t as [d c]. cbn [cb due] in Hf.
  destruct c as [orig|id|id|id]; cbn [runCallback] in Hf.
  - (* the pending submission is the one that restores [T] *)
    assert (orig = T) as ->.
    { destruct Hb as [(_ & _ & H0)|(Hd & _ & H1 & HT)]; rewrite Ht, countp_cons in *; cbn in *; [lia|].
      assert (countp (isSubmitOf T) ts <= countp isSubmit ts) by
        (apply countp_mono; intros []; cbn; congruence).
      destruct (String.eqb_spec orig T); [auto | lia]. }
    injection Hf as <-. left. unfold button_inv in Hb. rewrite Ht, countp_cons in Hb. cbn in Hb. timers_simpl.
    repeat split; try reflexivity. destruct Hb as [(? & _ & ?)|(_ & _ & ? & _)]; lia.
  - injection Hf as <-. unfold withBody. apply (button_inv_pop T s (mkTimer d (CbSlideIn id)) ts); auto.
  - injection Hf as <-. unfold button_inv in *. rewrite Ht, !countp_cons in Hb. timers_simpl. exact Hb.
  - destruct (existsb _ _); [|discriminate]. injection Hf as <-.
    unfold withBody. apply (button_inv_pop T s (mkTimer d (CbRemove id)) ts); auto.
Qed.

Lemma fire_inv T s :
  form_inv T s ->
  exists s', fire s = inr s' /\ form_inv T s' /\ (timers s <> [] -> weight (timers s') < weight (timers s)).
Proof.
  intros [Hb Hn]. destruct (fire_notif s Hn) as (s' & E & Hn' & Hw).
  exists s'. split; [exact E|]. split; [split; [exact (fire_button T s s' Hb E) | exact Hn'] | exact Hw].
Qed.

Lemma browser_step_inv T s e :
  form_inv T s -> exists s', browser_step s e = inr s' /\ form_inv T s'.
Proof.
  intros Hs. destruct e as [d| |]; cbn [browser_step step].
  - eexists. split; [reflexivity|]. destruct Hs as [Hb Hn]. split; assumption.
  - destruct (btnDisabled s) eqn:Hd; [eauto|].
    eexists. split; [reflexivity|]. unfold onSubmit, validateForm.
    destruct (validationErrors (fields s)) as [|err errs].
    + destruct Hs as [[(_ & Ht & Hc)|(Hd' & _)] Hn]; [|congruence]. now apply submitForm_inv.
    + now apply showNotification_inv.
  - destruct (fire_inv T s Hs) as (s' & E & Hs' & _). eauto.
Qed.

Lemma idle_inv T : form_inv T (idle T).
Proof.
  split; [left; repeat split|].
  repeat split; cbn; auto using NoDup_nil.
Qed.

Lemma timers_nil_of_weight ts : weight ts = 0 -> ts = [].
Proof. destruct ts as [|[d []] ts]; cbn; [reflexivity | lia..]. Qed.

(** A property that every fire keeps is kept by the event loop. *)
Lemma drain_preserves (P : form_state -> Prop) :
  (forall s s', P s -> fire s = inr s' -> P s') ->
  forall n s s', P s -> drain n s = inr s' -> P s'.
Proof.
  intros Hf n. induction n as [|n IH]; intros s s' Hs E; cbn [drain] in E; [now injection E as <-|].
  destruct (timers s); [now injection E as <-|].
  destruct (fire s) as [e|s1] eqn:F; [discriminate|]. exact (IH s1 s' (Hf s s1 Hs F) E).
Qed.

(** With [notif_inv], [weight] callbacks are enough to empty the queue,
    and none of them throws. *)
Lemma drain_notif n : forall s,
  notif_inv s -> weight (timers s) <= n ->
  exists s', drain n s = inr s' /\ notif_inv s' /\ timers s' = [].
Proof.
  induction n as [|n IH]; intros s Hs Hw.
  - exists s. split; [reflexivity|]. split; [exact Hs|]. apply timers_nil_of_weight. lia.
  - cbn [drain]. destruct (timers s) as [|t ts] eqn:Ht; [eauto|].
    destruct (fire_notif s Hs) as (s' & -> & Hs' & Hlt).
    apply IH; [exact Hs'|]. rewrite Ht in Hlt. specialize (Hlt ltac:(discriminate)). lia.
Qed.

Lemma drain_inv T n s :
  form_inv T s -> weight (timers s) <= n ->
  exists s', drain n s = inr s' /\ form_inv T s' /\ timers s' = [].
Proof.
  intros [Hb Hn] Hw. destruct (drain_notif n s Hn Hw) as (s' & E & Hn' & Ht).
  exists s'. split; [exact E|]. split; [split; [|exact Hn'] | exact Ht].
  exact (drain_preserves (button_inv T) (fire_button T) n s s' Hb E).
Qed.

(** ** The order of the timer queue *)

(** The queue is sorted by due time, and nothing in it is due before the
    current time. *)
Definition due_le (a b : timer) : Prop := (due a <= due b)%Z.

Definition queue_inv (s : form_state) : Prop :=
  Sorted due_le (timers s) /\ Forall (fun t => (now s <= due t)%Z) (timers s).

Lemma schedule_perm t ts : Permutation (schedule t ts) (t :: ts).
Proof.
  induction ts as [|t' ts IH]; cbn [schedule]; [reflexivity|].
  destruct (_ <? _)%Z; [reflexivity|]. rewrite IH. apply perm_swap.
Qed.

Lemma schedule_sorted t ts : Sorted due_le ts -> Sorted due_le (schedule t ts).
Proof.
  intros H. induction H as [|t' ts Hs IH Hhd]; cbn [schedule]; [repeat constructor|].
  destruct (Z.ltb_spec (due t) (due t')) as [Hlt|Hge].
  - constructor; [constructor; assumption | constructor; unfold due_le; lia].
  - constructor; [exact IH|]. destruct ts as [|t'' ts]; cbn [schedule].
    + constructor. unfold due_le. lia.
    + destruct (_ <? _)%Z; constructor; [unfold due_le; lia | inversion Hhd; assumption].
Qed.

Lemma setTimeout_queue c d s : (0 <= d)%Z -> queue_inv s -> queue_inv (setTimeout c d s).
Proof.
  intros Hd [Hs Hn]. unfold setTimeout, queue_inv. cbn [timers now]. split; [now apply schedule_sorted|].
  eapply Permutation_Forall; [symmetry; apply schedule_perm|]. constructor; [cbn; lia | exact Hn].
Qed.

(** Operations that keep the clock and the queue. *)
Lemma queue_inv_same s s' : timers s' = timers s -> now s' = now s -> queue_inv s -> queue_inv s'.
Proof. intros Ht Hn. unfold queue_inv. now rewrite Ht, Hn. Qed.

Lemma showNotification_queue m k s : queue_inv s -> queue_inv (showNotification m k s).
Proof.
  intros H. unfold showNotification. apply setTimeout_queue; [lia|]. apply setTimeout_queue; [lia|].
  apply (queue_inv_same s); auto.
Qed.

Lemma onSubmit_queue s : queue_inv s -> queue_inv (onSubmit s).
Proof.
  intros H. unfold onSubmit, validateForm. destruct (validationErrors (fields s)).
  - unfold submitForm. apply setTimeout_queue; [lia|]. apply (queue_inv_same s); auto.
  - now apply showNotification_queue.
Qed.

(** Firing takes the earliest timer and moves the clock to its due time. *)
Lemma fire_queue s s' : queue_inv s -> fire s = inr s' -> queue_inv s' /\ (now s <= now s')%Z.
Proof.
  intros [Hs Hn] Hf. unfold fire in Hf. destruct (timers s) as [|t ts] eqn:Ht.
  - injection Hf as <-. unfold queue_inv. rewrite Ht. split; [split; constructor | lia].
  - apply Sorted_StronglySorted in Hs; [|intros a b c; unfold due_le; lia].
    inversion Hs as [|? ? Hts Hall]; subst. inversion Hn as [|? ? Hnow _]; subst.
    set (s1 := mkForm (fields s) (btnText s) (btnDisabled s) (body s) (nextId s) (due t) ts).
    assert (H1 : queue_inv s1).
    { split; [now apply StronglySorted_Sorted|]. cbn. eapply Forall_impl; [|exact Hall]. unfold due_le. lia. }
    destruct (cb t) as [o|id|id|id]; cbn [runCallback] in Hf.
    + injection Hf as <-. split; [|cbn; lia].
      pose proof (showNotification_queue "Message sent successfully!" KSuccess s1 H1) as [Q1 Q2].
      split; exact Q1 || exact Q2.
    + injection Hf as <-. split; [apply (queue_inv_same s1); auto | cbn; lia].
    + injection Hf as <-. split; [|cbn; lia]. apply setTimeout_queue; [lia|]. apply (queue_inv_same s1); auto.
    + destruct (existsb _ _); [|discriminate]. injection Hf as <-.
      split; [apply (queue_inv_same s1); auto | cbn; lia].
Qed.

(** Pending submissions are at most 2000 ms away: each was scheduled
    [2000] ms after a time no later than the clock. *)
Definition submit_due_inv (s : form_state) : Prop :=
  Forall (fun t => isSubmit (cb t) = true -> (due t <= now s + 2000)%Z) (timers s).

Definition order_inv (s : form_state) : Prop := queue_inv s /\ submit_due_inv s.

Lemma setTimeout_submit_due c d s : isSubmit c = false -> submit_due_inv s -> submit_due_inv (setTimeout c d s).
Proof.
  intros Hc Hs. unfold setTimeout, submit_due_inv. cbn [timers now].
  eapply Permutation_Forall; [symmetry; apply schedule_perm|]. constructor; [cbn; congruence | exact Hs].
Qed.

Lemma submit_due_same s s' : timers s' = timers s -> now s' = now s -> submit_due_inv s -> submit_due_inv s'.
Proof. intros Ht Hn. unfold submit_due_inv. now rewrite Ht, Hn. Qed.

Lemma showNotification_submit_due m k s : submit_due_inv s -> submit_due_inv (showNotification m k s).
Proof.
  intros H. unfold showNotification.
  apply setTimeout_submit_due; [reflexivity|]. apply setTimeout_submit_due; [reflexivity|].
  apply (submit_due_same s); auto.
Qed.

Lemma onSubmit_order s : order_inv s -> order_inv (onSubmit s).
Proof.
  intros [Hq Hs]. split; [now apply onSubmit_queue|]. unfold onSubmit, validateForm.
  destruct (validationErrors (fields s)); [|now apply showNotification_submit_due].
  unfold submitForm, setTimeout, submit_due_inv. cbn [timers now].
  eapply Permutation_Forall; [symmetry; apply schedule_perm|]. constructor; [cbn; lia | exact Hs].
Qed.

Lemma fire_order s s' : order_inv s -> fire s = inr s' -> order_inv s'.
Proof.
  intros [Hq Hs] Hf. destruct (fire_queue s s' Hq Hf) as [Hq' Hle]. split; [exact Hq'|].
  destruct Hq as [_ Hnow]. unfold submit_due_inv in Hs. unfold fire in Hf.
  destruct (timers s) as [|t ts] eqn:Ht; [injection Hf as <-; unfold submit_due_inv; rewrite Ht; constructor|].
  inversion Hs as [|? ? _ Hts]; subst.
  inversion Hnow as [|? ? Hd _]; subst.
  set (s1 := mkForm (fields s) (btnText s) (btnDisabled s) (body s) (nextId s) (due t) ts).
  assert (H1 : submit_due_inv s1) by (eapply Forall_impl; [|exact Hts]; cbn; intros t' Ht' Hs'; specialize (Ht' Hs'); lia).
  destruct (cb t) as [o|id|id|id]; cbn [runCallback] in Hf.
  - injection Hf as <-. pose proof (showNotification_submit_due "Message sent successfully!" KSuccess s1 H1) as H2.
    exact H2.
  - injection Hf as <-. apply (submit_due_same s1); auto.
  - injection Hf as <-. apply setTimeout_submit_due; [reflexivity|]. apply (submit_due_same s1); auto.
  - destruct (existsb _ _); [|discriminate]. injection Hf as <-. apply (submit_due_same s1); auto.
Qed.

(** Every state the browser reaches satisfies both invariants. *)
Lemma browser_reachable_inv T s :
  reachable (lift browser_step) (inr (idle T)) (inr s) -> form_inv T s /\ order_inv s.
Proof.
  intros Hr. apply (reachable_invariant (lift browser_step)
    (fun r => forall s, r = inr s -> form_inv T s /\ order_inv s) (inr (idle T))) with (inr s); auto.
  - intros s0 [= <-]. split; [apply idle_inv | split; [split; constructor | constructor]].
  - intros [e|s0] ev IH s' E; [discriminate|]. destruct (IH s0 eq_refl) as [Hf Ho].
    destruct (browser_step_inv T s0 ev Hf) as (s1 & E1 & Hs1). cbn [lift] in E. rewrite E1 in E.
    injection E as <-. split; [exact Hs1|].
    destruct ev as [d| |]; cbn [browser_step step] in E1.
    + injection E1 as <-. destruct Ho as [Hq Hd].
      split; [apply (queue_inv_same s0) | apply (submit_due_same s0)]; auto.
    + destruct (btnDisabled s0); injection E1 as <-; [exact Ho | now apply onSubmit_order].
    + exact (fire_order s0 s1 Ho E1).
Qed.

(** ** The labels the pending submissions will restore *)

(** The labels the [CbSubmitDone] callbacks will restore, in the order
    they will fire. *)
Fixpoint submitOrigs (ts : list timer) : list string :=
  match ts with
  | [] => []
  | t :: ts' => match cb t with CbSubmitDone o => o :: submitOrigs ts' | _ => submitOrigs ts' end
  end.

(** The label and [disabled] flag the button will have once every pending
    timer has fired. *)
Definition pendingLabel (s : form_state) : string := last (submitOrigs (timers s)) (btnText s).

Definition pendingDisabled (s : form_state) : bool :=
  match submitOrigs (timers s) with [] => btnDisabled s | _ => false end.

Lemma last_cons_default {A} (l : list A) : forall a d, last (a :: l) d = last l a.
Proof.
  induction l as [|b l IH]; intros a d; [reflexivity|].
  transitivity (last (b :: l) d); [reflexivity|]. rewrite IH. symmetry. apply IH.
Qed.

Lemma submitOrigs_schedule c d ts : isSubmit c = false -> submitOrigs (schedule (mkTimer d c) ts) = submitOrigs ts.
Proof.
  intros Hc. induction ts as [|t ts IH]; cbn [schedule due].
  - cbn. destruct c; cbn in Hc; congruence.
  - destruct (_ <? _)%Z; cbn [submitOrigs cb]; [destruct c; cbn in Hc; congruence | now rewrite IH].
Qed.

Lemma submitOrigs_none d ts :
  Forall (fun t => isSubmit (cb t) = true -> (due t <= d)%Z) ts -> Forall (fun t => (d < due t)%Z) ts ->
  submitOrigs ts = [].
Proof.
  induction ts as [|t ts IH]; intros Hs Hl; [reflexivity|]. inversion Hs as [|? ? Ht Hs']; inversion Hl as [|? ? Hd Hl']; subst.
  cbn [submitOrigs]. destruct (cb t) eqn:E; [specialize (Ht eq_refl); lia | apply IH; auto..].
Qed.

(** A submission scheduled no earlier than every pending one fires last. *)
Lemma submitOrigs_schedule_last o d ts :
  Sorted due_le ts -> Forall (fun t => isSubmit (cb t) = true -> (due t <= d)%Z) ts ->
  submitOrigs (schedule (mkTimer d (CbSubmitDone o)) ts) = app (submitOrigs ts) [o].
Proof.
  intros Hs. apply Sorted_StronglySorted in Hs; [|intros a b c; unfold due_le; lia].
  induction Hs as [|t ts Hs IH Hall]; intros Hd; [reflexivity|]. inversion Hd as [|? ? Ht Hd']; subst.
  cbn [schedule due]. destruct (Z.ltb_spec d (due t)) as [Hlt|Hge].
  - transitivity (o :: submitOrigs (t :: ts)); [reflexivity|].
    rewrite (submitOrigs_none d (t :: ts)); [reflexivity | exact Hd|].
    constructor; [exact Hlt|]. eapply Forall_impl; [|exact Hall]. unfold due_le. intros; lia.
  - cbn [submitOrigs]. rewrite IH by exact Hd'. destruct (cb t); reflexivity.
Qed.

Lemma submitOrigs_nil ts : countp isSubmit ts = 0 -> submitOrigs ts = [].
Proof.
  induction ts as [|t ts IH]; [reflexivity|]. rewrite countp_cons. cbn [submitOrigs].
  destruct (cb t); cbn; [lia | apply IH..].
Qed.

Lemma submitOrigs_single T ts : countp isSubmit ts = 1 -> countp (isSubmitOf T) ts = 1 -> submitOrigs ts = [T].
Proof.
  induction ts as [|t ts IH]; [discriminate|]. rewrite !countp_cons. cbn [submitOrigs].
  assert (countp (isSubmitOf T) ts <= countp isSubmit ts) by (apply countp_mono; intros []; cbn; congruence).
  destruct (cb t) as [o| | |]; cbn [isSubmit isSubmitOf]; [|apply IH..].
  intros H1 H2. rewrite submitOrigs_nil by lia. destruct (String.eqb_spec o T) as [->|]; [reflexivity | lia].
Qed.

(** A fire never changes the label and flag the button will end with. *)
Lemma fire_pending s s' : fire s = inr s' -> pendingLabel s' = pendingLabel s /\ pendingDisabled s' = pendingDisabled s.
Proof.
  intros Hf. unfold fire in Hf. unfold pendingLabel, pendingDisabled.
  destruct (timers s) as [|[d c] ts] eqn:Ht; [injection Hf as <-; rewrite Ht; auto|].
  cbn [cb] in Hf. destruct c as [o|id|id|id]; cbn [runCallback] in Hf.
  - injection Hf as <-. cbn [showNotification setTimeout timers btnText btnDisabled].
    rewrite !submitOrigs_schedule by reflexivity. cbn [submitOrigs cb].
    rewrite last_cons_default. destruct (submitOrigs ts); auto.
  - injection Hf as <-. auto.
  - injection Hf as <-. cbn [setTimeout withBody timers btnText btnDisabled].
    rewrite submitOrigs_schedule by reflexivity. auto.
  - destruct (existsb _ _); [|discriminate]. injection Hf as <-. auto.
Qed.

(** ** Properties *)

(** C16. Equivalence: [isValidEmail], the derivative matcher run on the
    transcribed literal [/^[^\s@]+@[^\s@]+\.[^\s@]+$/], accepts exactly the
    strings of [email_shape]. *)
Theorem isValidEmail_spec s : isValidEmail s = true <-> email_shape (list_ascii_of_string s).
Proof.
  unfold isValidEmail, emailRegex. rewrite matchb_correct. unfold email_shape. split.
  - intros H. apply seq_iff in H as (a & r1 & -> & Ha & H).
    apply seq_iff in H as (l1 & r2 & -> & Hat & H). apply chr_iff in Hat as (x & -> & Hx).
    apply seq_iff in H as (b & r3 & -> & Hb & H). apply seq_iff in H as (l2 & c & -> & Hdot & Hc).
    apply chr_iff in Hdot as (y & -> & Hy).
    apply Ascii.eqb_eq in Hx, Hy. subst x y.
    apply plus_chr_iff in Ha as [Ha Fa], Hb as [Hb Fb], Hc as [Hc Fc].
    exists a, b, c. repeat split; auto. rewrite !Forall_app. auto.
  - intros (a & b & c & -> & Ha & Hb & Hc & HF). rewrite !Forall_app in HF.
    destruct HF as (Fa & Fb & Fc).
    apply (m_seq _ _ a); [apply plus_chr_iff; auto|].
    apply (m_seq _ _ ["@"%char] (b ++ "."%char :: c)%list); [constructor; reflexivity|].
    apply (m_seq _ _ b); [apply plus_chr_iff; auto|].
    apply (m_seq _ _ ["."%char] c); [constructor; reflexivity | apply plus_chr_iff; auto].
Qed.

(** C17. [validateForm] accepts exactly the data whose four fields are
    non-blank after [trim] and whose (untrimmed) e-mail matches the
    pattern. *)
Theorem validateForm_spec d s :
  fst (validateForm d s) = true <->
  blank (name d) = false /\ blank (email d) = false /\ isValidEmail (email d) = true /\
  blank (subject d) = false /\ blank (message d) = false.
Proof.
  unfold validateForm, validationErrors.
  destruct (blank (name d)), (blank (email d)), (isValidEmail (email d)),
    (blank (subject d)), (blank (message d)); cbn; split; intros H;
    repeat match goal with H : _ /\ _ |- _ => destruct H end;
    try discriminate; auto.
Qed.

(** The e-mail is trimmed for the "required" check but not for the
    pattern: an address typed with a leading space is reported as
    invalid, with that single error. *)
Theorem untrimmed_email_rejected :
  validationErrors (mkFormData "Ada" " ada@example.com" "Hi" "Hello") =
    ["Please enter a valid email address"] /\
  blank " ada@example.com" = false /\
  isValidEmail "ada@example.com" = true.
Proof. vm_compute. repeat split. Qed.

(** C18. Invariant and safety: under the browser's rule that a disabled
    submit button does not submit, every reachable state of the form is
    error-free ([removeChild] always finds its notification) and satisfies
    [form_inv]: the button is idle with its label, or disabled with
    exactly one pending submission that restores the label, and every
    attached notification has exactly one pending callback that ends it. *)
Theorem form_inv_reachable T r :
  reachable (lift browser_step) (inr (idle T)) r -> exists s, r = inr s /\ form_inv T s.
Proof.
  intros Hr. apply (reachable_invariant (lift browser_step)
                      (fun r => exists s, r = inr s /\ form_inv T s) (inr (idle T))); [| |exact Hr].
  - eauto using idle_inv.
  - intros r' e (s & -> & Hs). cbn [lift]. destruct (browser_step_inv T s e Hs) as (s' & -> & Hs').
    eauto.
Qed.

Definition sample : formData := mkFormData "Ada" "ada@example.com" "Hi" "Hello".

Lemma form_inv_reachable_witness :
  exists s, run (lift browser_step) (inr (idle "Send Message")) [Input sample; Submit; Submit; Fire] = inr s /\
            form_inv "Send Message" s.
Proof. apply form_inv_reachable. apply reachable_run. Defined.

(** C19. The submit handler does not check that a submission is pending.
    In any state the browser reaches where the button is disabled by a
    pending submission and the fields are valid, a second [submit] event
    that reaches the handler captures ["Sending..."] as the original
    label; once the event loop has run every pending timer (none throws),
    the button is enabled again but keeps the label ["Sending..."]. *)
Theorem double_submit_label_stuck T s :
  reachable (lift browser_step) (inr (idle T)) (inr s) ->
  btnDisabled s = true -> validationErrors (fields s) = [] ->
  exists s', drain (weight (timers (onSubmit s))) (onSubmit s) = inr s' /\
    timers s' = [] /\ btnDisabled s' = false /\ btnText s' = "Sending...".
Proof.
  intros Hr Hd Hv. destruct (browser_reachable_inv T s Hr) as [[Hb Hn] [[Hsort _] Hdue]].
  destruct Hb as [(Hd' & _)|(_ & Ht & H1 & HT)]; [congruence|].
  assert (Hs2 : onSubmit s = submitForm s) by (unfold onSubmit, validateForm; now rewrite Hv).
  assert (Ho : submitOrigs (timers (onSubmit s)) = [T; "Sending..."]).
  { rewrite Hs2. unfold submitForm, setTimeout. cbn [timers now btnText]. rewrite Ht.
    rewrite submitOrigs_schedule_last by assumption. now rewrite (submitOrigs_single T). }
  assert (Hn2 : notif_inv (onSubmit s)) by (rewrite Hs2; now apply submitForm_notif).
  destruct (drain_notif _ (onSubmit s) Hn2 (le_n _)) as (s' & E & _ & Hts).
  exists s'. split; [exact E|]. split; [exact Hts|].
  destruct (drain_preserves (fun x => pendingLabel x = pendingLabel (onSubmit s) /\
                                      pendingDisabled x = pendingDisabled (onSubmit s))
              ltac:(intros a b [Ha Hb'] F; destruct (fire_pending a b F); split; congruence)
              _ _ _ (conj eq_refl eq_refl) E) as [HL HD].
  unfold pendingLabel, pendingDisabled in HL, HD. rewrite Hts, Ho in HL, HD. cbn in HL, HD. auto.
Qed.

Lemma double_submit_label_stuck_witness :
  exists s', drain (weight (timers (onSubmit (mkForm sample "Sending..." true [] 0 0
                                               [mkTimer 2000 (CbSubmitDone "Send Message")]))))
                   (onSubmit (mkForm sample "Sending..." true [] 0 0 [mkTimer 2000 (CbSubmitDone "Send Message")]))
               = inr s' /\ timers s' = [] /\ btnDisabled s' = false /\ btnText s' = "Sending...".
Proof.
  apply (double_submit_label_stuck "Send Message"); [|reflexivity | vm_compute; reflexivity].
  replace (inr (mkForm sample "Sending..." true [] 0 0 [mkTimer 2000 (CbSubmitDone "Send Message")]))
    with (run (lift browser_step) (inr (idle "Send Message")) [Input sample; Submit])
    by (vm_compute; reflexivity).
  apply reachable_run.
Defined.

(** C20. Termination of the pending work: from any state satisfying the
    invariant, the event loop runs out of timers after at most [weight]
    callbacks, and leaves the page idle: no notification attached, the
    button enabled with its label. *)
Theorem drain_to_idle T s :
  form_inv T s ->
  exists s', drain (weight (timers s)) s = inr s' /\ timers s' = [] /\ body s' = [] /\
             btnDisabled s' = false /\ btnText s' = T.
Proof.
  intros Hs. destruct (drain_inv T _ s Hs (le_n _)) as (s' & E & [Hb (_ & _ & Hc)] & Ht).
  exists s'. split; [exact E|]. split; [exact Ht|].
  unfold button_inv in Hb. rewrite Ht in Hb, Hc. split.
  - destruct (body s') as [|n ns] eqn:Hbody; [reflexivity|].
    specialize (Hc (nid n)). unfold live in Hc. cbn in Hc.
    rewrite Nat.eqb_refl in Hc. discriminate.
  - destruct Hb as [(? & ? & _)|(_ & _ & H1 & _)]; [auto | discriminate].
Qed.

Lemma drain_to_idle_witness :
  exists s, run (lift browser_step) (inr (idle "Send Message")) [Input sample; Submit] = inr s /\
  exists s', drain (weight (timers s)) s = inr s' /\ timers s' = [] /\ body s' = [] /\
             btnDisabled s' = false /\ btnText s' = "Send Message".
Proof.
  eexists. split; [reflexivity|]. apply drain_to_idle.
  destruct (browser_step_inv "Send Message" _ (Input sample) (idle_inv _)) as (s1 & E1 & H1).
  destruct (browser_step_inv "Send Message" _ Submit H1) as (s2 & E2 & H2).
  vm_compute in E1. injection E1 as <-. vm_compute in E2. injection E2 as <-. exact H2.
Defined.

End ContactForm.
