(* ===== verification/Theme.v ===== *)
(** * The theme switch

    This file models [initThemeToggle], [script.js] lines 353-391. The
    page state [theme_page] holds the [data-theme] attribute of [body],
    [localStorage] as a finite map from keys to strings (stdpp's [gmap]),
    the class of the toggle button's icon, and [body.style.transition]
    with the number of pending 300 ms timers that clear it. Whether the
    button [#themeToggleNav] and its [<i>] icon exist is part of the page. *)

From stdpp Require Import base gmap strings.
From S2P Require Import Prelude.
Local Open Scope string_scope.

Module ThemeToggle.

Record theme_page := mkPage {
  hasToggle : bool;            (* [#themeToggleNav] exists *)
  iconClass : option string;   (* the icon's [className]; [None] if there is no icon *)
  dataTheme : string;          (* [body.getAttribute('data-theme')] *)
  storage : gmap string string;
  transition : string;         (* [body.style.transition] *)
  pendingClear : nat           (* pending [setTimeout(() => transition = '', 300)] *)
}.

(** [a || b] on a string-or-null: [null] and [""] are falsy. *)
Definition js_or (o : option string) (d : string) : string :=
  match o with
  | Some v => if decide (v = "") then d else v
  | None => d
  end.

(** Lines 382-390. *)
Definition updateThemeIcons (theme : string) (p : theme_page) : theme_page :=
  if hasToggle p then
    match iconClass p with
    | Some _ =>
        mkPage (hasToggle p) (Some (if decide (theme = "dark") then "fas fa-sun" else "fas fa-moon"))
               (dataTheme p) (storage p) (transition p) (pendingClear p)
    | None => p
    end
  else p.

Definition setTheme (t : string) (p : theme_page) : theme_page :=
  mkPage (hasToggle p) (iconClass p) t (storage p) (transition p) (pendingClear p).

(** Lines 354-365: the saved theme, or ["dark"]. *)
Definition initThemeToggle (p : theme_page) : theme_page :=
  let savedTheme := js_or (storage p !! "theme") "dark" in
  updateThemeIcons savedTheme (setTheme savedTheme p).

(** Lines 367-380. *)
Definition toggleTheme (p : theme_page) : theme_page :=
  let newTheme := if decide (dataTheme p = "dark") then "light" else "dark" in
  let p1 := setTheme newTheme p in
  let p2 := mkPage (hasToggle p1) (iconClass p1) (dataTheme p1)
                   (<["theme" := newTheme]> (storage p1)) (transition p1) (pendingClear p1) in
  let p3 := updateThemeIcons newTheme p2 in
  mkPage (hasToggle p3) (iconClass p3) (dataTheme p3) (storage p3)
         "background 0.3s ease, color 0.3s ease" (S (pendingClear p3)).

Inductive event := Click | ClearTransition.

(** A click reaches [toggleTheme] only if the button exists (line 363). *)
Definition step (p : theme_page) (e : event) : theme_page :=
  match e with
  | Click => if hasToggle p then toggleTheme p else p
  | ClearTransition =>
      match pendingClear p with
      | O => p
      | S n => mkPage (hasToggle p) (iconClass p) (dataTheme p) (storage p) "" n
      end
  end.

(** A reload keeps [localStorage] and nothing else of the page's state. *)
Definition reload (p : theme_page) : theme_page :=
  initThemeToggle (mkPage (hasToggle p) (iconClass p) "" (storage p) "" 0).

(** ** The abstract theme switch

    What the component promises: one of two themes, flipped by each click
    when the button exists, and nothing else changes it. *)

Inductive atheme := Dark | Light.

Definition aflip (t : atheme) : atheme := match t with Dark => Light | Light => Dark end.

Definition astep (enabled : bool) (t : atheme) (e : event) : atheme :=
  match e with Click => if enabled then aflip t else t | ClearTransition => t end.

Definition themeName (t : atheme) : string := match t with Dark => "dark" | Light => "light" end.

(** The theme a page loads with, from what [localStorage] holds. *)
Definition parseTheme (o : option string) : atheme :=
  if decide (js_or o "dark" = "light") then Light else Dark.

(** ** Invariants *)

Definition icon_ok (p : theme_page) : Prop :=
  hasToggle p = true -> iconClass p <> None ->
  iconClass p = Some (if decide (dataTheme p = "dark") then "fas fa-sun" else "fas fa-moon").

Definition stored_ok (p : theme_page) : Prop := js_or (storage p !! "theme") "dark" = dataTheme p.

Lemma updateThemeIcons_fields t p :
  hasToggle (updateThemeIcons t p) = hasToggle p /\ dataTheme (updateThemeIcons t p) = dataTheme p /\
  storage (updateThemeIcons t p) = storage p /\ transition (updateThemeIcons t p) = transition p /\
  pendingClear (updateThemeIcons t p) = pendingClear p /\
  (iconClass (updateThemeIcons t p) = None <-> iconClass p = None).
Proof.
  unfold updateThemeIcons. destruct (hasToggle p) eqn:Ht; [destruct (iconClass p) eqn:Hi|]; cbn;
    repeat split; intros; congruence.
Qed.

Lemma updateThemeIcons_ok p : icon_ok (updateThemeIcons (dataTheme p) p).
Proof.
  unfold icon_ok, updateThemeIcons. destruct (hasToggle p) eqn:Ht; cbn; [|intros; congruence].
  destruct (iconClass p) eqn:Hi; cbn; intros H1 H2; [reflexivity | congruence].
Qed.

Lemma js_or_nonempty v d : v <> "" -> js_or (Some v) d = v.
Proof. intros H. cbn. by case_decide. Qed.

Lemma initThemeToggle_ok p : icon_ok (initThemeToggle p) /\ stored_ok (initThemeToggle p).
Proof.
  unfold initThemeToggle. split.
  - apply (updateThemeIcons_ok (setTheme _ p)).
  - unfold stored_ok. destruct (updateThemeIcons_fields (js_or (storage p !! "theme") "dark")
                                 (setTheme (js_or (storage p !! "theme") "dark") p)) as (_ & -> & -> & _).
    done.
Qed.

Lemma toggleTheme_ok p : icon_ok (toggleTheme p) /\ stored_ok (toggleTheme p).
Proof.
  set (t := if decide (dataTheme p = "dark") then "light" else "dark").
  assert (Ht : t <> "") by (unfold t; case_decide; done).
  unfold toggleTheme; fold t.
  cbn [setTheme hasToggle iconClass dataTheme storage transition pendingClear]. split.
  - unfold icon_ok. cbn [hasToggle iconClass dataTheme].
    pose proof (updateThemeIcons_ok (mkPage (hasToggle p) (iconClass p) t
                  (<["theme":=t]> (storage p)) (transition p) (pendingClear p))) as H. exact H.
  - unfold stored_ok. cbn [storage dataTheme].
    destruct (updateThemeIcons_fields t (mkPage (hasToggle p) (iconClass p) t
                  (<["theme":=t]> (storage p)) (transition p) (pendingClear p))) as (_ & -> & -> & _).
    cbn. rewrite lookup_insert_eq. by apply js_or_nonempty.
Qed.

Lemma step_ok p e : icon_ok p /\ stored_ok p -> icon_ok (step p e) /\ stored_ok (step p e).
Proof.
  intros Hp. destruct e; cbn [step].
  - destruct (hasToggle p); [apply toggleTheme_ok | exact Hp].
  - destruct (pendingClear p); [exact Hp|]. exact Hp.
Qed.

Lemma initThemeToggle_theme p : dataTheme (initThemeToggle p) = js_or (storage p !! "theme") "dark".
Proof. unfold initThemeToggle. apply updateThemeIcons_fields. Qed.

Lemma toggleTheme_theme p :
  dataTheme (toggleTheme p) = if decide (dataTheme p = "dark") then "light" else "dark".
Proof.
  unfold toggleTheme. cbn [setTheme hasToggle iconClass dataTheme storage transition pendingClear].
  apply updateThemeIcons_fields.
Qed.

Lemma toggleTheme_hasToggle p : hasToggle (toggleTheme p) = hasToggle p.
Proof.
  unfold toggleTheme. cbn [setTheme hasToggle iconClass dataTheme storage transition pendingClear].
  rewrite (proj1 (updateThemeIcons_fields _ _)). reflexivity.
Qed.

Lemma run_ok p0 es : icon_ok (run step (initThemeToggle p0) es) /\ stored_ok (run step (initThemeToggle p0) es).
Proof. apply run_invariant; [apply initThemeToggle_ok | apply step_ok]. Qed.

(** ** Properties *)

(** C22. Round trip through [localStorage]: whatever clicks and timers
    happened since the page loaded, reloading the page restores the theme
    the page shows now. *)
Theorem theme_persists p0 es :
  dataTheme (reload (run step (initThemeToggle p0) es)) = dataTheme (run step (initThemeToggle p0) es).
Proof.
  destruct (run_ok p0 es) as [_ Hs]. unfold reload. rewrite initThemeToggle_theme. exact Hs.
Qed.

(** C23. Invariant: in every state after load, the toggle's icon (when
    the button and its icon exist) is the sun in the dark theme and the
    moon otherwise. *)
Theorem icon_matches_theme p0 es :
  hasToggle (run step (initThemeToggle p0) es) = true ->
  iconClass (run step (initThemeToggle p0) es) <> None ->
  iconClass (run step (initThemeToggle p0) es) =
    Some (if decide (dataTheme (run step (initThemeToggle p0) es) = "dark") then "fas fa-sun" else "fas fa-moon").
Proof. apply run_ok. Qed.

Lemma icon_matches_theme_witness :
  iconClass (run step (initThemeToggle (mkPage true (Some "fas fa-moon") "" ∅ "" 0)) [Click]) =
    Some (if decide (dataTheme (run step (initThemeToggle (mkPage true (Some "fas fa-moon") "" ∅ "" 0)) [Click])
                     = "dark") then "fas fa-sun" else "fas fa-moon").
Proof. apply icon_matches_theme; [reflexivity | discriminate]. Defined.

(** C24. Toggling twice restores the theme exactly when it is ["dark"] or
    ["light"]; any other stored value (say ["blue"]) becomes ["dark"]
    after one toggle, because the test is [currentTheme === 'dark']. *)
Theorem toggle_twice p :
  (dataTheme (toggleTheme (toggleTheme p)) = dataTheme p <-> dataTheme p = "dark" \/ dataTheme p = "light") /\
  (dataTheme p <> "dark" -> dataTheme (toggleTheme p) = "dark").
Proof.
  rewrite !toggleTheme_theme.
  destruct (decide (dataTheme p = "dark")) as [E|E]; rewrite ?E.
  - rewrite decide_False by done. split; [split; auto | done].
  - rewrite decide_True by done. split; [split; [intros <-; auto | intros [?|?]; done] | done].
Qed.

Lemma toggle_twice_witness :
  (dataTheme (toggleTheme (toggleTheme (mkPage true (Some "fas fa-moon") "blue" ∅ "" 0))) = "blue" <->
     "blue" = "dark" \/ "blue" = "light") /\
  ("blue" <> "dark" -> dataTheme (toggleTheme (mkPage true (Some "fas fa-moon") "blue" ∅ "" 0)) = "dark").
Proof. apply (toggle_twice (mkPage true (Some "fas fa-moon") "blue" ∅ "" 0)). Defined.

(** The concrete page shows the abstract theme, and the button is the
    one it loaded with. *)
Definition shows (en : bool) (p : theme_page) (t : atheme) : Prop :=
  dataTheme p = themeName t /\ hasToggle p = en.

Lemma step_shows en p t e : shows en p t -> shows en (step p e) (astep en t e).
Proof.
  intros [Hd Hh]. destruct e; cbn [step astep].
  - rewrite Hh. destruct en; [|split; assumption].
    split; [|rewrite toggleTheme_hasToggle; exact Hh].
    rewrite toggleTheme_theme, Hd. destruct t; reflexivity.
  - destruct (pendingClear p); split; assumption.
Qed.

(** C21. Refinement: when [localStorage] holds no theme, an empty one,
    ["dark"] or ["light"], the page's [data-theme] after any clicks and
    timers is the name of the abstract theme: the stored one (["dark"] by
    default), flipped once per click when the button exists. *)
Theorem theme_refinement p0 es :
  (forall v, storage p0 !! "theme" = Some v -> v = "" \/ v = "dark" \/ v = "light") ->
  dataTheme (run step (initThemeToggle p0) es) =
  themeName (run (astep (hasToggle p0)) (parseTheme (storage p0 !! "theme")) es).
Proof.
  intros Hv. apply (run_simulation step (astep (hasToggle p0)) (shows (hasToggle p0))).
  - apply step_shows.
  - split.
    + rewrite initThemeToggle_theme. unfold parseTheme.
      destruct (storage p0 !! "theme") as [v|] eqn:E; [|reflexivity].
      destruct (Hv v eq_refl) as [-> | [-> | ->]]; reflexivity.
    + unfold initThemeToggle. rewrite (proj1 (updateThemeIcons_fields _ _)). reflexivity.
Qed.

Lemma theme_refinement_witness :
  dataTheme (run step (initThemeToggle (mkPage true (Some "fas fa-moon") "" (<["theme" := "light"]> ∅) "" 0)) [Click; ClearTransition; Click; Click]) =
  themeName (run (astep (hasToggle (mkPage true (Some "fas fa-moon") "" (<["theme" := "light"]> ∅) "" 0))) (parseTheme (storage (mkPage true (Some "fas fa-moon") "" (<["theme" := "light"]> ∅) "" 0) !! "theme")) [Click; ClearTransition; Click; Click]).
Proof.
  apply (theme_refinement (mkPage true (Some "fas fa-moon") "" (<["theme" := "light"]> ∅) "" 0) [Click; ClearTransition; Click; Click]).
  intros v Hv. cbn in Hv. rewrite lookup_insert_eq in Hv. injection Hv as <-. auto.
Defined.

End ThemeToggle.
