(* ===== verification/Navigation.v ===== *)
(** * Navigation, scrolling effects and the mobile menu

    This file models the window [scroll] listeners of [initNavigation]
    (lines 43-69), [initScrollToTop] (lines 397-403) and
    [initParallaxEffects] (lines 473-480), the link click of
    [initNavigation] (lines 26-40), the mobile menu of [initMobileMenu]
    (lines 433-467), and [debounce] (lines 635-645). The scroll listeners
    run in registration order; each reads the scroll position and writes
    its part of [view]. Scroll positions are JavaScript numbers, modelled
    as rationals; layout offsets are integers. *)

From Stdlib Require Import String List ZArith QArith Lia Lqa Bool.
From S2P Require Import Prelude.
Import ListNotations.
Local Open Scope bool_scope.
Local Open Scope string_scope.

Module Navigation.

(** A [section[id]] with its layout. *)
Record section := mkSection { sid : string; offsetTop : Z; clientHeight : Z }.

(** A [.nav-link]: its [href] and whether it has the class [active]. *)
Record link := mkLink { href : string; active : bool }.

(** What the scroll listeners write. [heroShift] is [None] when the page
    has no [.geometric-pattern]. *)
Record view := mkView {
  links : list link;
  navbarBg : string;
  scrollTopShown : bool;
  heroShift : option Q
}.

(** Lines 46-50: the test of one section. *)
Definition inSection (y : Q) (sec : section) : bool :=
  let sectionTop := inject_Z (offsetTop sec - 100) in
  Qle_bool sectionTop y && Qltb y (sectionTop + inject_Z (clientHeight sec)).

(** Lines 44-51: [current] is overwritten by every section that contains
    the position. *)
Definition currentSection (y : Q) (secs : list section) : string :=
  fold_left (fun current sec => if inSection y sec then sid sec else current) secs "".

(** Lines 53-58. *)
Definition highlight (current : string) (ls : list link) : list link :=
  map (fun l => mkLink (href l) (String.eqb (href l) ("#" ++ current))) ls.

(** Lines 63-69. *)
Definition navbarBackground (y : Q) : string :=
  if Qltb 100 y then "rgba(10, 10, 10, 0.98)" else "rgba(10, 10, 10, 0.95)".

(** Lines 43-59: the active-section listener. *)
Definition onActiveSection (secs : list section) (y : Q) (v : view) : view :=
  mkView (highlight (currentSection y secs) (links v)) (navbarBg v) (scrollTopShown v) (heroShift v).

(** Lines 63-69: the navbar listener. *)
Definition onNavbarScroll (y : Q) (v : view) : view :=
  mkView (links v) (navbarBackground y) (scrollTopShown v) (heroShift v).

(** Lines 397-403: the scroll-to-top listener ([show] when [scrollY > 500]). *)
Definition onScrollTopScroll (y : Q) (v : view) : view :=
  mkView (links v) (navbarBg v) (Qltb 500 y) (heroShift v).

(** Lines 473-480: the parallax listener, when [.geometric-pattern]
    exists ([heroShift] is [None] when it does not). *)
Definition onParallaxScroll (y : Q) (v : view) : view :=
  mkView (links v) (navbarBg v) (scrollTopShown v)
         (match heroShift v with Some _ => Some (y * (1#2)) | None => None end).

(** The scroll event: the listeners in the order the init calls of lines
    7-16 register them. [window.scrollY] and [window.pageYOffset] are the
    same number. *)
Definition onScroll (secs : list section) (y : Q) (v : view) : view :=
  onParallaxScroll y (onScrollTopScroll y (onNavbarScroll y (onActiveSection secs y v))).

(** Lines 27-39: a link click scrolls to 80 px above its target section,
    when [document.querySelector(href)] finds one. *)
Definition scrollTarget (secs : list section) (l : link) : option Z :=
  match find (fun sec => String.eqb ("#" ++ sid sec) (href l)) secs with
  | Some sec => Some (offsetTop sec - 80)%Z
  | None => None
  end.

(** [window.scrollTo({top, behavior: 'smooth'})] once the animation has
    ended: the position is clamped to [0, maxScroll], the document's
    scrollable height. *)
Definition scrollTo (maxScroll top : Z) : Z := Z.max 0 (Z.min top maxScroll).

(** Lines 27-39: the position after a link click, when the page was at [y]. *)
Definition onNavClick (secs : list section) (maxScroll : Z) (l : link) (y : Z) : Z :=
  match scrollTarget secs l with Some top => scrollTo maxScroll top | None => y end.

(** Lines 405-410: the scroll-to-top button. *)
Definition onScrollTopClick (maxScroll : Z) (y : Z) : Z := scrollTo maxScroll 0.

(** ** The mobile menu, lines 433-467 *)

Record menu := mkMenu {
  hamburgerActive : bool;
  menuActive : bool;
  bar0 : string;   (* bars[0].style.transform *)
  bar1 : string;   (* bars[1].style.opacity *)
  bar2 : string    (* bars[2].style.transform *)
}.

Definition initMenu : menu := mkMenu false false "" "" "".

(** Lines 438-453. *)
Definition onHamburgerClick (m : menu) : menu :=
  let h := negb (hamburgerActive m) in
  let n := negb (menuActive m) in
  if h then mkMenu h n "rotate(-45deg) translate(-5px, 6px)" "0" "rotate(45deg) translate(-5px, -6px)"
  else mkMenu h n "" "1" "".

(** Lines 457-465. *)
Definition onNavLinkClick (m : menu) : menu := mkMenu false false "" "1" "".

Inductive menu_event := HamburgerClick | NavLinkClick.

Definition menu_step (m : menu) (e : menu_event) : menu :=
  match e with HamburgerClick => onHamburgerClick m | NavLinkClick => onNavLinkClick m end.

(** ** [debounce], lines 635-645 *)

(** The closure variable [timeout] (the due time of the pending call, if
    any) and the number of times [func] has run. *)
Record debouncer := mkDebouncer { pending : option Q; runs : nat }.

(** [executedFunction] called at time [t]: the pending call is cancelled
    and a new one is scheduled [wait] ms later. *)
Definition executedFunction (wait t : Q) (d : debouncer) : debouncer :=
  mkDebouncer (Some (t + wait)) (runs d).

(** Time advances to [t]: the pending call runs if it is due ([later]
    clears the timeout, then calls [func]). *)
Definition advance (t : Q) (d : debouncer) : debouncer :=
  match pending d with
  | Some due => if Qle_bool due t then mkDebouncer None (S (runs d)) else d
  | None => d
  end.

(** [n] calls of the debounced function at the times [ts]: before each
    call, time advances to the call's time. *)
Definition calls (wait : Q) (ts : list Q) (d : debouncer) : debouncer :=
  fold_left (fun d t => executedFunction wait t (advance t d)) ts d.

(** Consecutive calls less than [wait] apart, in time order. *)
Fixpoint close_calls (wait : Q) (ts : list Q) : bool :=
  match ts with
  | t1 :: ((t2 :: _) as rest) => Qle_bool t1 t2 && Qltb (t2 - t1) wait && close_calls wait rest
  | _ => true
  end.

(** The abstract behaviour of a debounced function: over calls at the
    times [ts], it runs once for each gap of at least [wait] between
    consecutive calls, and once more after the last call when time [T] is
    at least [wait] after it. *)
Fixpoint gaps (wait : Q) (ts : list Q) : nat :=
  match ts with
  | t1 :: ((t2 :: _) as rest) => (if Qle_bool (t1 + wait) t2 then 1 else 0) + gaps wait rest
  | _ => 0
  end.

Definition executions (wait : Q) (ts : list Q) (T : Q) : nat :=
  match ts with
  | [] => 0
  | t :: _ => gaps wait ts + (if Qle_bool (last ts t + wait) T then 1 else 0)
  end.

(** ** Lemmas *)

Lemma currentSection_acc y secs acc :
  fold_left (fun current sec => if inSection y sec then sid sec else current) secs acc =
  match rev (filter (inSection y) secs) with sec :: _ => sid sec | [] => acc end.
Proof.
  induction secs as [|sec secs IH] using rev_ind; [reflexivity|].
  rewrite fold_left_app, IH, filter_app. cbn. destruct (inSection y sec); cbn.
  - now rewrite rev_app_distr.
  - now rewrite app_nil_r.
Qed.

Lemma highlight_highlight c c' ls : highlight c (highlight c' ls) = highlight c ls.
Proof. unfold highlight. rewrite map_map. reflexivity. Qed.

Lemma menu_inv_step m e :
  menuActive m = hamburgerActive m ->
  menuActive (menu_step m e) = hamburgerActive (menu_step m e).
Proof. intros H. destruct e; cbn; [|reflexivity]. unfold onHamburgerClick. rewrite H. now destruct (hamburgerActive m). Qed.

Lemma last_default {A} (x : A) l d1 d2 : last (x :: l) d1 = last (x :: l) d2.
Proof. revert x. induction l as [|a l IH]; intros x; [reflexivity|]. apply IH. Qed.

Lemma advance_due t due d : pending d = Some due -> due <= t -> advance t d = mkDebouncer None (S (runs d)).
Proof. intros Hp Ht. unfold advance. rewrite Hp. apply Qle_bool_iff in Ht. now rewrite Ht. Qed.

Lemma advance_not_due t due d : pending d = Some due -> t < due -> advance t d = d.
Proof.
  intros Hp Ht. unfold advance. rewrite Hp.
  destruct (Qle_bool due t) eqn:E; [apply Qle_bool_iff in E; lra | reflexivity].
Qed.

(** The calls after the first, with the first one's timeout pending. *)
Lemma calls_pending wait T t rest : forall d0,
  pending d0 = Some (t + wait) ->
  runs (advance T (fold_left (fun d t => executedFunction wait t (advance t d)) rest d0)) =
  (runs d0 + gaps wait (t :: rest) + (if Qle_bool (last (t :: rest) t + wait) T then 1 else 0))%nat.
Proof.
  revert t. induction rest as [|t2 rest IH]; intros t d0 Hp.
  - cbn [fold_left gaps last]. unfold advance. rewrite Hp. destruct (Qle_bool (t + wait) T); cbn; lia.
  - cbn [fold_left]. rewrite (IH t2 (executedFunction wait t2 (advance t2 d0)) eq_refl). cbn [runs executedFunction].
    change (gaps wait (t :: t2 :: rest)) with ((if Qle_bool (t + wait) t2 then 1 else 0) + gaps wait (t2 :: rest))%nat.
    change (last (t :: t2 :: rest) t) with (last (t2 :: rest) t). rewrite (last_default t2 rest t t2).
    unfold advance. rewrite Hp. destruct (Qle_bool (t + wait) t2); cbn [runs]; lia.
Qed.

Lemma scrollTo_in maxScroll top : (0 <= top <= maxScroll)%Z -> scrollTo maxScroll top = top.
Proof. unfold scrollTo. lia. Qed.

(** A section contains the position 80 px below its top when it is more
    than 20 px high. *)
Lemma inSection_target sec :
  (20 < clientHeight sec)%Z -> inSection (inject_Z (offsetTop sec - 80)) sec = true.
Proof.
  intros Hh. unfold inSection. apply andb_true_iff. split.
  - apply Qle_bool_iff. rewrite <- Zle_Qle. lia.
  - apply Qltb_iff. rewrite <- inject_Z_plus, <- Zlt_Qlt. lia.
Qed.

(** The last element of a filtered list, when it is the only one kept. *)
Lemma rev_filter_single {A} (f : A -> bool) (l : list A) a :
  In a l -> f a = true -> (forall b, In b l -> f b = true -> b = a) ->
  exists rest, rev (filter f l) = a :: rest.
Proof.
  intros Ha Hf Hu. destruct (rev (filter f l)) as [|b rest] eqn:E.
  - exfalso. assert (In a (rev (filter f l))) by (apply in_rev; rewrite rev_involutive; apply filter_In; auto).
    rewrite E in H. destruct H.
  - exists rest. f_equal. assert (Hb : In b (filter f l)) by (apply in_rev; rewrite E; left; reflexivity).
    apply filter_In in Hb as [Hb Hfb]. apply Hu; assumption.
Qed.

(** ** Properties *)

(** C25. The active-link listener marks exactly the links whose [href] is
    ["#"] followed by the id of the last section, in document order, that
    contains the scroll position; when no section contains it, that id is
    empty and the links with [href="#"] are marked. *)
Theorem onScroll_links secs y v :
  links (onScroll secs y v) =
  map (fun l => mkLink (href l)
         (String.eqb (href l)
            ("#" ++ match rev (filter (inSection y) secs) with sec :: _ => sid sec | [] => "" end)))
      (links v).
Proof. cbn. unfold currentSection. now rewrite currentSection_acc. Qed.

(** C26. The view after a scroll event depends on the scroll position
    only, not on earlier scrolls; the navbar darkens strictly above 100
    px, the scroll-to-top button shows strictly above 500 px, and the
    hero pattern moves by half the scroll distance. *)
Theorem onScroll_position_only secs y y' v :
  onScroll secs y (onScroll secs y' v) = onScroll secs y v /\
  (scrollTopShown (onScroll secs y v) = true <-> 500 < y) /\
  (navbarBg (onScroll secs y v) = "rgba(10, 10, 10, 0.98)" <-> 100 < y) /\
  heroShift (onScroll secs y v) = option_map (fun _ => y * (1#2)) (heroShift v).
Proof.
  unfold onScroll, onParallaxScroll, onScrollTopScroll, onNavbarScroll, onActiveSection.
  cbn [links navbarBg scrollTopShown heroShift]. rewrite highlight_highlight. split.
  - destruct (heroShift v); reflexivity.
  - split; [apply Qltb_iff|]. split; [|destruct (heroShift v); reflexivity].
    unfold navbarBackground. destruct (Qltb 100 y) eqn:E.
    + apply Qltb_iff in E. tauto.
    + apply Qltb_false in E. split; [discriminate | intros H; exfalso; apply (Qlt_not_le _ _ H E)].
Qed.

(** C28. Invariant of the mobile menu: the hamburger and the menu are
    always both open or both closed, whatever the sequence of hamburger
    and link clicks, and the bars show the cross exactly when open. *)
Theorem menu_consistent es :
  menuActive (run menu_step initMenu es) = hamburgerActive (run menu_step initMenu es) /\
  (hamburgerActive (run menu_step initMenu es) = true <->
   bar1 (run menu_step initMenu es) = "0").
Proof.
  apply (run_invariant menu_step
           (fun m => menuActive m = hamburgerActive m /\ (hamburgerActive m = true <-> bar1 m = "0"))).
  - cbn. split; [reflexivity | split; discriminate].
  - intros m e [H1 H2]. split; [now apply menu_inv_step|].
    destruct e; cbn; [|split; discriminate].
    unfold onHamburgerClick. destruct (hamburgerActive m); cbn; split; congruence.
Qed.

(** [debounce]: a burst of calls, each less than [wait] after the
    previous one, runs the function once, [wait] ms after the last call,
    and not before. *)
Theorem debounce_burst wait t ts d :
  pending d = None -> close_calls wait (t :: ts) = true ->
  runs (calls wait (t :: ts) d) = runs d /\
  pending (calls wait (t :: ts) d) = Some (last (t :: ts) t + wait) /\
  runs (advance (last (t :: ts) t + wait) (calls wait (t :: ts) d)) = S (runs d).
Proof.
  intros Hp Hc. unfold calls.
  assert (H : forall t ts d0, pending d0 = Some (t + wait) -> runs d0 = runs d ->
            close_calls wait (t :: ts) = true ->
            runs (fold_left (fun d t => executedFunction wait t (advance t d)) ts d0) = runs d /\
            pending (fold_left (fun d t => executedFunction wait t (advance t d)) ts d0) =
              Some (last (t :: ts) t + wait)).
  { clear t ts Hp Hc. intros t ts. revert t. induction ts as [|t2 ts IH]; intros t1 d0 Hp0 Hr0 Hc0.
    - cbn. auto.
    - cbn [close_calls] in Hc0. apply andb_true_iff in Hc0 as [Hc0 Hrest].
      apply andb_true_iff in Hc0 as [_ Hgap]. apply Qltb_iff in Hgap.
      cbn [fold_left]. rewrite (advance_not_due t2 (t1 + wait) d0 Hp0) by lra.
      destruct (IH t2 (executedFunction wait t2 d0)) as [IH1 IH2]; [reflexivity | exact Hr0 | exact Hrest |].
      split; [exact IH1|]. rewrite IH2. cbn [last]. destruct ts; [reflexivity|]. now rewrite (last_default _ _ t2 t1). }
  cbn [fold_left]. replace (advance t d) with d by (unfold advance; now rewrite Hp).
  destruct (H t ts (executedFunction wait t d)) as [H1 H2]; [reflexivity | reflexivity | exact Hc |].
  split; [exact H1|]. split; [exact H2|].
  rewrite (advance_due _ _ _ H2) by apply Qle_refl. cbn. now rewrite H1.
Qed.

Lemma debounce_burst_witness :
  runs (calls 10%Q [0; 5; 12]%Q (mkDebouncer None 0%nat)) = 0%nat /\
  pending (calls 10%Q [0; 5; 12]%Q (mkDebouncer None 0%nat)) = Some (last [0; 5; 12]%Q 0%Q + 10)%Q /\
  runs (advance (last [0; 5; 12]%Q 0%Q + 10)%Q (calls 10%Q [0; 5; 12]%Q (mkDebouncer None 0%nat))) = 1%nat.
Proof. apply (debounce_burst 10%Q 0%Q [5; 12]%Q (mkDebouncer None 0%nat)); reflexivity. Defined.

(** C29. Refinement: whatever the call times, the number of times the
    debounced function has run once time reaches [T] is [executions]: one
    run per gap of at least [wait] between consecutive calls, and one
    after the last call if [T] is at least [wait] later. *)
Theorem debounce_refinement wait ts T d :
  pending d = None -> runs (advance T (calls wait ts d)) = (runs d + executions wait ts T)%nat.
Proof.
  intros Hp. unfold calls. destruct ts as [|t rest]; cbn [fold_left executions].
  - unfold advance. rewrite Hp. cbn. lia.
  - replace (advance t d) with d by (unfold advance; now rewrite Hp).
    rewrite (calls_pending wait T t rest (executedFunction wait t d) eq_refl). cbn [runs executedFunction]. lia.
Qed.

Lemma debounce_refinement_witness :
  pending (mkDebouncer None 0%nat) = None /\
  runs (advance 100%Q (calls 10%Q [0; 5; 30; 32; 60]%Q (mkDebouncer None 0%nat))) =
    (0 + executions 10%Q [0; 5; 30; 32; 60]%Q 100%Q)%nat.
Proof. split; [reflexivity | apply debounce_refinement; reflexivity]. Defined.

(** C27. Composition of two listeners: after a click on a link whose
    target section is more than 20 px high, starts at least 80 px down,
    is within the scrollable height, and is the only section containing
    the landing point, the scroll it causes marks that link active. *)
Theorem nav_click_highlights secs maxScroll l y v sec :
  find (fun sec => String.eqb ("#" ++ sid sec) (href l)) secs = Some sec ->
  (0 <= offsetTop sec - 80 <= maxScroll)%Z -> (20 < clientHeight sec)%Z ->
  (forall sec', In sec' secs -> inSection (inject_Z (offsetTop sec - 80)) sec' = true -> sec' = sec) ->
  In l (links v) ->
  In (mkLink (href l) true) (links (onScroll secs (inject_Z (onNavClick secs maxScroll l y)) v)).
Proof.
  intros Hf Hr Hh Hu Hl. unfold onNavClick, scrollTarget. rewrite Hf, scrollTo_in by exact Hr.
  cbn [onScroll onParallaxScroll onScrollTopScroll onNavbarScroll onActiveSection links]. unfold currentSection. rewrite currentSection_acc.
  apply find_some in Hf as [Hin Heq]. apply String.eqb_eq in Heq.
  destruct (rev_filter_single _ secs sec Hin (inSection_target sec Hh) Hu) as [rest ->].
  unfold highlight. apply in_map_iff. exists l. split; [|exact Hl].
  rewrite Heq, String.eqb_refl. reflexivity.
Qed.

Lemma nav_click_highlights_witness :
  In (mkLink "#about" true)
     (links (onScroll [mkSection "home" 0 600; mkSection "about" 600 800]
                      (inject_Z (onNavClick [mkSection "home" 0 600; mkSection "about" 600 800] 2000
                                            (mkLink "#about" false) 0))
                      (mkView [mkLink "#home" true; mkLink "#about" false] "" false None))).
Proof.
  apply (nav_click_highlights _ _ (mkLink "#about" false) _ _ (mkSection "about" 600 800)).
  - reflexivity.
  - cbn. lia.
  - cbn. lia.
  - intros sec' [<-|[<-|[]]] H; [discriminate H | reflexivity].
  - cbn. auto.
Defined.

End Navigation.
