(* ===== verification/Modal.v ===== *)
(** * The project modal

    This file models [initProjectModals], [script.js] lines 146-239: the
    table [projectData], the card click that looks a project up by the
    card's [data-project] attribute, [showModal], [closeModal] and the
    three ways of closing (the close button, a click on the backdrop, the
    Escape key). A property read [projectData[projectId]] follows the
    prototype chain of the object literal, so the lookup is modelled with
    the members of [Object.prototype] (ECMAScript, section 20.1.3).

    An exception thrown by a listener does not stop the page: the DOM
    writes made before it stay, and the error is reported. The step
    function therefore returns the state after the listener together with
    the error it threw, if any. *)

From Stdlib Require Import String Ascii List Bool.
From S2P Require Import Prelude.
From S2P Require Import JsString.
Import ListNotations.
Local Open Scope string_scope.

Module ProjectModal.

Record project := mkProject {
  title : string;
  description : string;
  tech : list string;
  demo : string;     (* [links.demo] *)
  github : string    (* [links.github] *)
}.

(** Lines 151-182, keyed by the property names of the object literal. *)
Definition projectData : list (string * project) := [
  ("1", mkProject "E-Commerce Platform"
     "A comprehensive full-stack e-commerce solution built with React, Node.js, and MongoDB. Features include user authentication, payment processing with Stripe, inventory management, order tracking, and an admin dashboard. The application handles high traffic with Redis caching and implements real-time notifications."
     ["React"; "Node.js"; "MongoDB"; "Stripe"; "Redis"; "Socket.io"] "#" "#");
  ("2", mkProject "Task Management App"
     "A collaborative task management application built with Vue.js, Express, and PostgreSQL. Features real-time updates, team collaboration, file sharing, progress tracking, and deadline management. Implements role-based access control and integrates with popular project management tools."
     ["Vue.js"; "Express"; "PostgreSQL"; "WebSocket"; "AWS S3"; "JWT"] "#" "#");
  ("3", mkProject "Social Media Dashboard"
     "A comprehensive social media analytics dashboard built with React, TypeScript, and Firebase. Provides real-time analytics, engagement metrics, content scheduling, and performance insights across multiple social media platforms. Features interactive charts and customizable reports."
     ["React"; "TypeScript"; "Firebase"; "Chart.js"; "Material-UI"; "REST APIs"] "#" "#")
].

(** The members of [Object.prototype]: [__proto__] is an accessor that
    returns [Object.prototype] itself, the others are functions. *)
Definition objectPrototype : list string :=
  ["constructor"; "__defineGetter__"; "__defineSetter__"; "hasOwnProperty";
   "__lookupGetter__"; "__lookupSetter__"; "isPrototypeOf"; "propertyIsEnumerable";
   "toString"; "valueOf"; "__proto__"; "toLocaleString"].

(** The values [projectData[k]] can have. *)
Inductive jsval := VProject (p : project) | VFunction (name : string) | VObjectProto | VUndefined.

Definition truthy (v : jsval) : bool := match v with VUndefined => false | _ => true end.

Fixpoint assoc (k : string) (l : list (string * project)) : option project :=
  match l with
  | [] => None
  | (k', p) :: l' => if String.eqb k k' then Some p else assoc k l'
  end.

(** [ToPropertyKey] of [getAttribute]'s result: [null] becomes ["null"]. *)
Definition toPropertyKey (a : option string) : string :=
  match a with Some k => k | None => "null" end.

(** [projectData[k]]: own properties first, then the prototype chain. *)
Definition lookupProject (k : string) : jsval :=
  match assoc k projectData with
  | Some p => VProject p
  | None =>
      if existsb (String.eqb k) objectPrototype then
        (if String.eqb k "__proto__" then VObjectProto else VFunction k)
      else VUndefined
  end.

(** Property reads on a value: only a project has these properties. *)
Definition prop_title (v : jsval) : option string := match v with VProject p => Some (title p) | _ => None end.
Definition prop_description (v : jsval) : option string :=
  match v with VProject p => Some (description p) | _ => None end.
Definition prop_tech (v : jsval) : option (list string) := match v with VProject p => Some (tech p) | _ => None end.
Definition prop_links (v : jsval) : option (string * string) :=
  match v with VProject p => Some (demo p, github p) | _ => None end.

(** [el.textContent = x]: [undefined] converts to [null], which empties
    the element. *)
Definition textContent (o : option string) : string := match o with Some s => s | None => "" end.

Local Abbreviation dq := JsStr.dq.
Local Abbreviation nl := JsStr.nl.
Local Abbreviation spaces := JsStr.spaces.

(** Lines 216-218. *)
Definition techHTML (ts : list string) : string :=
  String.concat "" (map (fun t => "<span class=" ++ dq ++ "tech-badge" ++ dq ++ ">" ++ t ++ "</span>") ts).

(** Lines 220-229, the template literal with its line breaks. *)
Definition linksHTML (demoUrl githubUrl : string) : string :=
  nl ++ spaces 12 ++ "<a href=" ++ dq ++ demoUrl ++ dq ++ " class=" ++ dq ++ "btn btn-primary" ++ dq
     ++ " target=" ++ dq ++ "_blank" ++ dq ++ ">" ++
  nl ++ spaces 16 ++ "<i class=" ++ dq ++ "fas fa-external-link-alt" ++ dq ++ "></i>" ++
  nl ++ spaces 16 ++ "Live Demo" ++
  nl ++ spaces 12 ++ "</a>" ++
  nl ++ spaces 12 ++ "<a href=" ++ dq ++ githubUrl ++ dq ++ " class=" ++ dq ++ "btn btn-secondary" ++ dq
     ++ " target=" ++ dq ++ "_blank" ++ dq ++ ">" ++
  nl ++ spaces 16 ++ "<i class=" ++ dq ++ "fab fa-github" ++ dq ++ "></i>" ++
  nl ++ spaces 16 ++ "GitHub" ++
  nl ++ spaces 12 ++ "</a>" ++
  nl ++ spaces 8.

(** The modal and [document.body.style.overflow]. *)
Record modal_state := mkModal {
  display : string;        (* [modal.style.display] *)
  overflow : string;       (* [document.body.style.overflow] *)
  mTitle : string;
  mDescription : string;
  mTech : string;          (* [.modal-tech] innerHTML *)
  mLinks : string          (* [.modal-links] innerHTML *)
}.

Definition initModal : modal_state := mkModal "" "" "" "" "" "".

Definition undefinedRead (prop : string) : js_error :=
  TypeError ("Cannot read properties of undefined (reading '" ++ prop ++ "')").

(** Lines 207-233, statement by statement. *)
Definition showModal (v : jsval) (s : modal_state) : modal_state * option js_error :=
  let s1 := mkModal (display s) (overflow s) (textContent (prop_title v)) (mDescription s) (mTech s) (mLinks s) in
  let s2 := mkModal (display s1) (overflow s1) (mTitle s1) (textContent (prop_description v)) (mTech s1) (mLinks s1) in
  match prop_tech v with
  | None => (s2, Some (undefinedRead "map"))
  | Some ts =>
      let s3 := mkModal (display s2) (overflow s2) (mTitle s2) (mDescription s2) (techHTML ts) (mLinks s2) in
      match prop_links v with
      | None => (s3, Some (undefinedRead "demo"))
      | Some (d, g) =>
          let s4 := mkModal (display s3) (overflow s3) (mTitle s3) (mDescription s3) (mTech s3) (linksHTML d g) in
          (mkModal "block" "hidden" (mTitle s4) (mDescription s4) (mTech s4) (mLinks s4), None)
      end
  end.

(** Lines 235-238. *)
Definition closeModal (s : modal_state) : modal_state :=
  mkModal "none" "auto" (mTitle s) (mDescription s) (mTech s) (mLinks s).

(** Card click (lines 185-192), close button (195), click on the modal
    element, [true] when the click is on the backdrop itself (196-200),
    key press (203-205). *)
Inductive event := CardClick (dataProject : option string) | CloseClick | ModalClick (onBackdrop : bool)
                 | KeyDown (key : string).

Definition step (s : modal_state) (e : event) : modal_state * option js_error :=
  match e with
  | CardClick a =>
      let data := lookupProject (toPropertyKey a) in
      if truthy data then showModal data s else (s, None)
  | CloseClick => (closeModal s, None)
  | ModalClick b => if b then (closeModal s, None) else (s, None)
  | KeyDown k => if String.eqb k "Escape" && String.eqb (display s) "block" then (closeModal s, None) else (s, None)
  end.

(** The page goes on after an uncaught error in a listener. *)
Definition page_step (s : modal_state) (e : event) : modal_state := fst (step s e).

(** The modal showing project [p]. *)
Definition opened (p : project) : modal_state :=
  mkModal "block" "hidden" (title p) (description p) (techHTML (tech p)) (linksHTML (demo p) (github p)).

(** The modal after a listener read an inherited member: the title and
    the description are emptied, nothing else changes. *)
Definition emptied (s : modal_state) : modal_state :=
  mkModal (display s) (overflow s) "" "" (mTech s) (mLinks s).

(** ** Lemmas *)

Lemma showModal_project p s : showModal (VProject p) s = (opened p, None).
Proof. reflexivity. Qed.

Lemma showModal_inherited v s : (forall p, v <> VProject p) -> showModal v s = (emptied s, Some (undefinedRead "map")).
Proof. intros Hv. destruct v; [now destruct (Hv p) | reflexivity..]. Qed.

(** A card click leaves an open modal open. *)
Lemma card_click_keeps_open s a : display s = "block" -> display (page_step s (CardClick a)) = "block".
Proof.
  intros Hs. unfold page_step. cbn [step]. destruct (truthy _); [|exact Hs].
  destruct (lookupProject (toPropertyKey a)); [reflexivity | exact Hs..].
Qed.

(** No own key of [projectData] is a member of [Object.prototype]. *)
Lemma assoc_objectPrototype k : In k objectPrototype -> assoc k projectData = None.
Proof. intros H. repeat (destruct H as [<-|H]; [reflexivity|]). destruct H. Qed.

Lemma existsb_eqb_In k l : existsb (String.eqb k) l = true <-> In k l.
Proof.
  rewrite existsb_exists. split.
  - intros (x & Hx & E). apply String.eqb_eq in E. now subst.
  - intros H. exists k. split; [exact H | apply String.eqb_refl].
Qed.

Lemma lookupProject_inherited k :
  In k objectPrototype -> lookupProject k = if String.eqb k "__proto__" then VObjectProto else VFunction k.
Proof. intros H. unfold lookupProject. rewrite (assoc_objectPrototype k H). now apply existsb_eqb_In in H as ->. Qed.

Definition modal_inv (s : modal_state) : Prop :=
  (display s = "block" <-> overflow s = "hidden") /\ In (display s) [""; "none"; "block"].

Lemma closeModal_inv s : modal_inv (closeModal s).
Proof. split; [split; discriminate | cbn; auto]. Qed.

Lemma modal_step_inv s e : modal_inv s -> modal_inv (page_step s e).
Proof.
  intros Hs. unfold page_step. destruct e as [a| |b|k]; cbn [step fst].
  - destruct (truthy (lookupProject (toPropertyKey a))); [|exact Hs].
    destruct (lookupProject (toPropertyKey a)) eqn:E; cbn [showModal fst];
      [split; [split; reflexivity | cbn; auto] | exact Hs..].
  - apply closeModal_inv.
  - destruct b; [apply closeModal_inv | exact Hs].
  - destruct (_ && _); [apply closeModal_inv | exact Hs].
Qed.

(** ** Properties *)

(** C30. A click on a card whose [data-project] is one of the keys of
    [projectData] opens the modal on that project: title, description,
    technology badges and links, body scrolling locked, no error. *)
Theorem card_click_own k p s :
  assoc k projectData = Some p -> step s (CardClick (Some k)) = (opened p, None).
Proof. intros H. cbn [step toPropertyKey]. unfold lookupProject. now rewrite H. Qed.

Lemma card_click_own_witness :
  step initModal (CardClick (Some "2")) =
    (opened (mkProject "Task Management App"
     "A collaborative task management application built with Vue.js, Express, and PostgreSQL. Features real-time updates, team collaboration, file sharing, progress tracking, and deadline management. Implements role-based access control and integrates with popular project management tools."
     ["Vue.js"; "Express"; "PostgreSQL"; "WebSocket"; "AWS S3"; "JWT"] "#" "#"), None).
Proof. apply card_click_own. reflexivity. Defined.

(** C31. The guard [if (data)] lets through the members [projectData]
    inherits from [Object.prototype]: a card whose [data-project] is, say,
    ["toString"] makes [showModal] empty the title and the description and
    then throw a [TypeError] at [data.tech.map]; the modal stays as it was
    (open, if it was open). *)
Theorem card_click_inherited a s :
  In (toPropertyKey a) objectPrototype ->
  step s (CardClick a) = (emptied s, Some (undefinedRead "map")).
Proof.
  intros H. cbn [step]. rewrite (lookupProject_inherited _ H).
  destruct (String.eqb _ "__proto__"); apply showModal_inherited; discriminate.
Qed.

Lemma card_click_inherited_witness :
  step (opened (mkProject "t" "d" [] "#" "#")) (CardClick (Some "toString")) =
    (emptied (opened (mkProject "t" "d" [] "#" "#")), Some (undefinedRead "map")).
Proof. apply card_click_inherited. cbn. tauto. Defined.

(** C32. Invariant: whatever the clicks and key presses, including those
    whose listener throws, the modal is shown exactly when body scrolling
    is locked, and its [display] is never anything but [""], ["none"] or
    ["block"]. *)
Theorem modal_inv_reachable es :
  (display (run page_step initModal es) = "block" <-> overflow (run page_step initModal es) = "hidden") /\
  In (display (run page_step initModal es)) [""; "none"; "block"].
Proof.
  apply (run_invariant page_step modal_inv); [|apply modal_step_inv].
  split; [split; discriminate | cbn; auto].
Qed.

End ProjectModal.
