(* ===== verification/Page.v ===== *)
(** * Page start-up and the resume download

    This file models how the script starts: the listeners it registers
    while it is evaluated (lines 652 and 655), the three [DOMContentLoaded]
    listeners in registration order (lines 5-18, 630-632 and 660-668), and
    what each [init*] function registers before it returns or throws. An
    exception thrown by a listener ends that listener, so the [init*]
    calls after a throwing one never run; the other [DOMContentLoaded]
    listeners still run, and the error is reported. The particle
    background is started by [ParticleField.initParticleBackground]; the
    third listener writes three inline styles on [.hero-content], and the
    window [load] listener adds [loaded] to the body's classes.

    It also models the click listener of [initResumeDownload] (lines
    582-627): the object URL, the temporary link, the download, and the
    call of [showNotification], a function local to [initContactForm]. *)

From Stdlib Require Import String List Bool Arith Lia.
From S2P Require Import Prelude.
From S2P Require Import JsString.
From S2P Require Import Particles.
From S2P Require Import Modal.
Import ListNotations.
Local Open Scope string_scope.

Module Page.

(** The elements whose absence makes an [init*] function throw, and the
    optional ones. *)
Record dom := mkDom {
  hasModal : bool;           (* #projectModal *)
  hasModalClose : bool;      (* .modal-close *)
  hasForm : bool;            (* .contact-form *)
  hasThemeToggle : bool;     (* #themeToggleNav *)
  hasScrollTopBtn : bool;    (* #scrollToTop *)
  hasHamburger : bool;       (* .hamburger *)
  heroEl : option ParticleField.hero;   (* .hero *)
  hasResumeBtn : bool;       (* #resumeDownload *)
  hasHeroContent : bool      (* .hero-content *)
}.

(** Lines 7-17. *)
Inductive component :=
  CNavigation | CTypingEffect | CScrollAnimations | CProjectModals | CContactForm | CThemeToggle
| CScrollToTop | CSkillBars | CMobileMenu | CParallaxEffects | CParticleBackground.

Definition initAll : list component :=
  [CNavigation; CTypingEffect; CScrollAnimations; CProjectModals; CContactForm; CThemeToggle;
   CScrollToTop; CSkillBars; CMobileMenu; CParallaxEffects; CParticleBackground].

(** The listeners, observers and timers the script registers. *)
Inductive listener :=
  LDebouncedScroll | LLoad
| LNavLinkClick | LActiveSection | LNavbarScroll | LTypingTimer | LScrollObserver
| LCardClick | LModalCloseClick | LModalBackdropClick | LEscapeKey | LFormSubmit | LThemeClick
| LScrollTopScroll | LScrollTopClick | LSkillObserver | LHamburgerClick | LMenuLinkClick
| LParallaxScroll | LAnimationFrame | LResize | LResumeClick.

Definition listener_eq_dec (a b : listener) : {a = b} + {a <> b}.
Proof. decide equality. Defined.

Record page := mkPage {
  listeners : list listener;
  field : option ParticleField.field;   (* the particle animation, once started *)
  heroStyle : list (string * string);   (* inline style of .hero-content *)
  errors : list js_error                (* errors reported by listeners *)
}.

(** Lines 652 and 655, run while the script is evaluated. *)
Definition scriptLoaded : page := mkPage [LDebouncedScroll; LLoad] None [] [].

Definition nullRead (prop : string) : js_error :=
  TypeError ("Cannot read properties of null (reading '" ++ prop ++ "')").

Definition addListeners (ls : list listener) (p : page) : page :=
  mkPage (listeners p ++ ls) (field p) (heroStyle p) (errors p).

Section Startup.
Context `{MathRandom}.

(** One [init*] call: the page after the statements that ran, and the
    error it threw, if any. *)
Definition initComponent (d : dom) (c : component) (p : page) : page * option js_error :=
  match c with
  | CNavigation => (addListeners [LNavLinkClick; LActiveSection; LNavbarScroll] p, None)
  | CTypingEffect => (addListeners [LTypingTimer] p, None)
  | CScrollAnimations => (addListeners [LScrollObserver] p, None)
  | CProjectModals =>
      (* the cards' listeners (185-193), then [modalClose] (195), then [modal] (196-201) *)
      let p1 := addListeners [LCardClick] p in
      if negb (hasModalClose d) then (p1, Some (nullRead "addEventListener")) else
      let p2 := addListeners [LModalCloseClick] p1 in
      if negb (hasModal d) then (p2, Some (nullRead "addEventListener")) else
      (addListeners [LModalBackdropClick; LEscapeKey] p2, None)
  | CContactForm =>
      if hasForm d then (addListeners [LFormSubmit] p, None) else (p, Some (nullRead "addEventListener"))
  | CThemeToggle => (if hasThemeToggle d then addListeners [LThemeClick] p else p, None)
  | CScrollToTop =>
      (* the window listener (397-403) is registered before the button's (405) *)
      let p1 := addListeners [LScrollTopScroll] p in
      if hasScrollTopBtn d then (addListeners [LScrollTopClick] p1, None)
      else (p1, Some (nullRead "addEventListener"))
  | CSkillBars => (addListeners [LSkillObserver] p, None)
  | CMobileMenu =>
      if hasHamburger d then (addListeners [LHamburgerClick; LMenuLinkClick] p, None)
      else (p, Some (nullRead "addEventListener"))
  | CParallaxEffects => (addListeners [LParallaxScroll] p, None)
  | CParticleBackground =>
      match ParticleField.initParticleBackground (heroEl d) 0 with
      | inl e => (p, Some e)
      | inr f => (mkPage (listeners p ++ [LAnimationFrame; LResize]) (Some f) (heroStyle p) (errors p), None)
      end
  end.

(** The body of the first [DOMContentLoaded] listener: the calls in
    order, up to the first that throws. *)
Fixpoint runInits (d : dom) (cs : list component) (p : page) : page * option js_error :=
  match cs with
  | [] => (p, None)
  | c :: cs' =>
      match initComponent d c p with
      | (p', Some e) => (p', Some e)
      | (p', None) => runInits d cs' p'
      end
  end.

(** A listener's error is reported and the next listener runs. *)
Definition report (r : page * option js_error) : page :=
  match r with
  | (p, Some e) => mkPage (listeners p) (field p) (heroStyle p) (errors p ++ [e])
  | (p, None) => p
  end.

(** Lines 582-584. *)
Definition initResumeDownload (d : dom) (p : page) : page * option js_error :=
  if hasResumeBtn d then (addListeners [LResumeClick] p, None) else (p, Some (nullRead "addEventListener")).

(** [el.style.prop = v]: the new declaration replaces an earlier one. *)
Definition setStyle (prop v : string) (st : list (string * string)) : list (string * string) :=
  (prop, v) :: filter (fun pv => negb (String.eqb (fst pv) prop)) st.

(** Lines 660-668: the three assignments, in order, when [.hero-content]
    exists. *)
Definition revealHero (d : dom) (p : page) : page :=
  if hasHeroContent d then
    let st1 := setStyle "opacity" "1" (heroStyle p) in
    let st2 := setStyle "transform" "translateY(0)" st1 in
    let st3 := setStyle "transition" "all 1s ease-out" st2 in
    mkPage (listeners p) (field p) st3 (errors p)
  else p.

Definition domContentLoaded (d : dom) : page :=
  let p1 := report (runInits d initAll scriptLoaded) in
  let p2 := report (initResumeDownload d p1) in
  revealHero d p2.

End Startup.

(** Lines 655-657: the window [load] listener adds the class [loaded] to
    [document.body]; [classList.add] does not add a class twice. *)
Definition onLoad (bodyClasses : list string) : list string :=
  if existsb (String.eqb "loaded") bodyClasses then bodyClasses else app bodyClasses ["loaded"].

(** The [load] event, which the browser fires after [DOMContentLoaded],
    runs the load listener when it is registered. *)
Definition windowLoad (p : page) (bodyClasses : list string) : list string :=
  if in_dec listener_eq_dec LLoad (listeners p) then onLoad bodyClasses else bodyClasses.

(** ** Events of the modal, delivered to the listeners that exist *)

Definition listenerOf (e : ProjectModal.event) : listener :=
  match e with
  | ProjectModal.CardClick _ => LCardClick
  | ProjectModal.CloseClick => LModalCloseClick
  | ProjectModal.ModalClick _ => LModalBackdropClick
  | ProjectModal.KeyDown _ => LEscapeKey
  end.

Definition dispatch (ls : list listener) (s : ProjectModal.modal_state) (e : ProjectModal.event) :=
  if in_dec listener_eq_dec (listenerOf e) ls then ProjectModal.page_step s e else s.

(** ** The resume download, lines 584-626 *)

Record download := mkDownload { fileName : string; mime : string; content : string }.

Record resume_state := mkResume {
  downloads : list download;   (* files the browser saved *)
  bodyChildren : nat;          (* children of [document.body] *)
  liveUrls : list nat;         (* object URLs not yet revoked *)
  nextUrl : nat
}.

Definition resumeLines : list string :=
  ["ALEX DEVELOPER"; "Full Stack Developer"; ""; "CONTACT"; "Email: alex.developer@email.com";
   "Phone: +1 (555) 123-4567"; "Location: San Francisco, CA"; ""; "EXPERIENCE";
   "Senior Full Stack Developer - TechCorp Solutions (2023-Present)";
   "• Led development of scalable web applications"; "• Mentored junior developers";
   "• Implemented CI/CD pipelines"; "";
   "Full Stack Developer - Digital Innovations Inc. (2021-2023)";
   "• Developed client projects"; "• Focused on responsive design"; "• Performance optimization"; "";
   "SKILLS"; "• JavaScript, React, Node.js"; "• Python, MongoDB, AWS"; "• Git, Docker, CI/CD"].

(** Lines 587-610: the template literal, one line of 12 spaces of
    indentation per entry, closed by 8 spaces. *)
Definition resumeContent : string :=
  JsStr.nl ++ String.concat "" (map (fun l => JsStr.spaces 12 ++ l ++ JsStr.nl) resumeLines) ++ JsStr.spaces 8.

Definition resumeFile : download := mkDownload "Alex_Developer_Resume.txt" "text/plain" resumeContent.

(** The click listener, statement by statement. *)
Definition onResumeClick (r : resume_state) : resume_state * option js_error :=
  let url := nextUrl r in
  (* [URL.createObjectURL(blob)] *)
  let r1 := mkResume (downloads r) (bodyChildren r) (liveUrls r ++ [url]) (S url) in
  (* [document.body.appendChild(a)] *)
  let r2 := mkResume (downloads r1) (S (bodyChildren r1)) (liveUrls r1) (nextUrl r1) in
  (* [a.click()] *)
  let r3 := mkResume (downloads r2 ++ [resumeFile]) (bodyChildren r2) (liveUrls r2) (nextUrl r2) in
  (* [document.body.removeChild(a)] *)
  let r4 := mkResume (downloads r3) (pred (bodyChildren r3)) (liveUrls r3) (nextUrl r3) in
  (* [URL.revokeObjectURL(url)] *)
  let r5 := mkResume (downloads r4) (bodyChildren r4) (filter (fun u => negb (Nat.eqb u url)) (liveUrls r4))
                     (nextUrl r4) in
  (* [showNotification] is not in scope here *)
  (r5, Some (ReferenceError "showNotification")).

(** ** Lemmas *)

Ltac startup_simpl :=
  cbn [domContentLoaded report initResumeDownload revealHero runInits initAll initComponent addListeners
       ParticleField.initParticleBackground negb listeners field heroStyle errors fst snd app
       hasModal hasModalClose hasForm hasThemeToggle hasScrollTopBtn hasHamburger heroEl
       hasResumeBtn hasHeroContent].

Section StartupLemmas.
Context `{MathRandom}.

(** Without [.modal-close], the first [DOMContentLoaded] listener stops in
    [initProjectModals], after the cards' listeners. *)
Lemma listeners_without_close d :
  hasModalClose d = false ->
  listeners (domContentLoaded d) =
    app [LDebouncedScroll; LLoad; LNavLinkClick; LActiveSection; LNavbarScroll; LTypingTimer; LScrollObserver;
         LCardClick] (if hasResumeBtn d then [LResumeClick] else []).
Proof.
  intros Hc. destruct d as [m mc f t st hb he rb hc]; cbn in Hc; subst mc.
  startup_simpl. destruct rb, hc; reflexivity.
Qed.

End StartupLemmas.

Lemma dispatch_without_close ls s e :
  (forall l, In l ls -> ~ In l [LModalCloseClick; LModalBackdropClick; LEscapeKey]) ->
  dispatch ls s e = s \/ exists a, e = ProjectModal.CardClick a /\ dispatch ls s e = ProjectModal.page_step s e.
Proof.
  intros Hls. unfold dispatch. destruct (in_dec listener_eq_dec (listenerOf e) ls) as [Hin|]; [|now left].
  right. destruct e as [a| |b|k]; [now exists a | exfalso; apply (Hls _ Hin); cbn; tauto..].
Qed.

(** Listeners are only ever added: every step of the start-up keeps the
    listeners registered before it. *)
Lemma addListeners_mono ls p l : In l (listeners p) -> In l (listeners (addListeners ls p)).
Proof. intros H. apply in_or_app. now left. Qed.

#[local] Hint Resolve addListeners_mono : core.

Section Mono.
Context `{MathRandom}.

Lemma initComponent_mono d c p l : In l (listeners p) -> In l (listeners (fst (initComponent d c p))).
Proof.
  intros Hl. destruct c; cbn [initComponent];
    repeat match goal with |- context [if ?b then _ else _] => destruct b end; cbn [fst]; auto.
  destruct (ParticleField.initParticleBackground _ _); cbn; auto using in_or_app.
Qed.

Lemma runInits_mono d cs p l : In l (listeners p) -> In l (listeners (fst (runInits d cs p))).
Proof.
  revert p. induction cs as [|c cs IH]; intros p Hl; [exact Hl|]. cbn [runInits].
  pose proof (initComponent_mono d c p l Hl) as Hc.
  destruct (initComponent d c p) as [p' [e|]]; [exact Hc | now apply IH].
Qed.

Lemma report_mono r l : In l (listeners (fst r)) -> In l (listeners (report r)).
Proof. destruct r as [p [e|]]; cbn; auto. Qed.

(** The [load] listener, registered while the script is evaluated, is
    there whatever the start-up did. *)
Lemma load_registered d : In LLoad (listeners (domContentLoaded d)).
Proof.
  unfold domContentLoaded, revealHero. destruct (hasHeroContent d); cbn [listeners];
    apply report_mono; unfold initResumeDownload; destruct (hasResumeBtn d); cbn [fst];
    try apply addListeners_mono; apply report_mono, runInits_mono; cbn; auto.
Qed.

End Mono.

Lemma onLoad_loaded cls : In "loaded" (onLoad cls).
Proof.
  unfold onLoad. destruct (existsb _ cls) eqn:E.
  - now apply ProjectModal.existsb_eqb_In.
  - apply in_or_app. right. now left.
Qed.

Lemma onLoad_keeps cls c : In c cls -> In c (onLoad cls).
Proof. intros H. unfold onLoad. destruct (existsb _ cls); [exact H | apply in_or_app; now left]. Qed.

Section Load.
Context `{MathRandom}.

Lemma windowLoad_loaded d cls : In "loaded" (windowLoad (domContentLoaded d) cls).
Proof.
  unfold windowLoad. destruct (in_dec _ _ _) as [_|Hn]; [apply onLoad_loaded|].
  destruct (Hn (load_registered d)).
Qed.

End Load.

Lemma filter_fresh u l : Forall (fun v => v < u) l -> filter (fun v => negb (Nat.eqb v u)) l = l.
Proof.
  induction 1 as [|v l Hv _ IH]; [reflexivity|]. cbn.
  destruct (Nat.eqb_spec v u); [lia|]. cbn. now rewrite IH.
Qed.

(** The witnesses below draw [Math.random] from a constant stream. *)
#[local] Existing Instance ParticleField.random_const.

(** ** Properties *)

(** C33. One missing element stops the start-up: without [.modal-close],
    [initProjectModals] throws after registering the cards' listeners, and
    the contact form, theme switch, scroll-to-top button, skill bars,
    mobile menu, parallax and particle background are never set up; the
    resume button, registered by another [DOMContentLoaded] listener, still
    is. One error is reported, two if the resume button is missing too.
    The [load] listener, registered before, still adds [loaded] to the
    body's classes. *)
Theorem init_stops_at_first_error `{MathRandom} d cls :
  hasModalClose d = false ->
  listeners (domContentLoaded d) =
    app [LDebouncedScroll; LLoad; LNavLinkClick; LActiveSection; LNavbarScroll; LTypingTimer; LScrollObserver;
         LCardClick] (if hasResumeBtn d then [LResumeClick] else []) /\
  field (domContentLoaded d) = None /\
  errors (domContentLoaded d) =
    nullRead "addEventListener" :: (if hasResumeBtn d then [] else [nullRead "addEventListener"]) /\
  In "loaded" (windowLoad (domContentLoaded d) cls).
Proof.
  intros Hc. split; [now apply listeners_without_close|].
  split; [|split; [|apply windowLoad_loaded]];
  destruct d as [m mc f t st hb he rb hc]; cbn in Hc; subst mc;
  startup_simpl; destruct rb, hc; reflexivity.
Qed.

Lemma init_stops_at_first_error_witness :
  listeners (domContentLoaded (mkDom true false true true true true (Some ParticleField.hero100) true true)) =
    app [LDebouncedScroll; LLoad; LNavLinkClick; LActiveSection; LNavbarScroll; LTypingTimer; LScrollObserver;
         LCardClick] [LResumeClick] /\
  field (domContentLoaded (mkDom true false true true true true (Some ParticleField.hero100) true true)) = None /\
  errors (domContentLoaded (mkDom true false true true true true (Some ParticleField.hero100) true true)) =
    nullRead "addEventListener" :: [] /\
  In "loaded"
    (windowLoad (domContentLoaded (mkDom true false true true true true (Some ParticleField.hero100) true true))
       ["dark-mode"]).
Proof.
  apply (init_stops_at_first_error (mkDom true false true true true true (Some ParticleField.hero100) true true)
           ["dark-mode"]).
  reflexivity.
Defined.

(** C35. A modal that cannot be closed: on a page without [.modal-close],
    the cards still open the modal, but neither the backdrop nor Escape
    closes it, because their listeners were never registered; once open,
    it stays open whatever the user clicks or types. *)
Theorem modal_stays_open `{MathRandom} d s es :
  hasModalClose d = false -> ProjectModal.display s = "block" ->
  ProjectModal.display (run (dispatch (listeners (domContentLoaded d))) s es) = "block".
Proof.
  intros Hc Hs. apply (run_invariant _ (fun s => ProjectModal.display s = "block")); [exact Hs|].
  intros s' e Hs'. destruct (dispatch_without_close (listeners (domContentLoaded d)) s' e) as [->|(a & -> & ->)].
  - intros l. rewrite (listeners_without_close d Hc). destruct (hasResumeBtn d); cbn; intuition congruence.
  - exact Hs'.
  - now apply ProjectModal.card_click_keeps_open.
Qed.

Lemma modal_stays_open_witness :
  ProjectModal.display
    (run (dispatch (listeners (domContentLoaded (mkDom true false true true true true None true true))))
         (ProjectModal.page_step ProjectModal.initModal (ProjectModal.CardClick (Some "1")))
         [ProjectModal.KeyDown "Escape"; ProjectModal.ModalClick true; ProjectModal.CloseClick]) = "block".
Proof. apply modal_stays_open; reflexivity. Defined.

(** C36. The resume button downloads [Alex_Developer_Resume.txt] (plain
    text, the resume of lines 587-610), leaves [document.body] and the live
    object URLs as they were, and then throws a [ReferenceError]:
    [showNotification] is local to [initContactForm], so the success
    message is never shown. *)
Theorem resume_click_spec r :
  Forall (fun u => u < nextUrl r) (liveUrls r) ->
  onResumeClick r =
    (mkResume (downloads r ++ [resumeFile]) (bodyChildren r) (liveUrls r) (S (nextUrl r)),
     Some (ReferenceError "showNotification")).
Proof.
  intros Hr. unfold onResumeClick. cbn [downloads bodyChildren liveUrls nextUrl pred].
  rewrite filter_app, filter_fresh by exact Hr. cbn. rewrite Nat.eqb_refl. cbn. now rewrite app_nil_r.
Qed.

Lemma resume_click_spec_witness :
  onResumeClick (mkResume [] 3 [] 0) = (mkResume [resumeFile] 3 [] 1, Some (ReferenceError "showNotification")).
Proof. apply (resume_click_spec (mkResume [] 3 [] 0)). constructor. Defined.

(** C34. The particle background starts exactly when every element the
    calls before it need is present ([.modal-close], [#projectModal],
    [.contact-form], [#scrollToTop], [.hamburger]) and [.hero] exists. *)
Theorem particles_started `{MathRandom} d :
  field (domContentLoaded d) <> None <->
  hasModalClose d = true /\ hasModal d = true /\ hasForm d = true /\ hasScrollTopBtn d = true /\
  hasHamburger d = true /\ heroEl d <> None.
Proof.
  destruct d as [m mc f t st hb he rb hc].
  destruct m, mc, f, t, st, hb, he, rb, hc; startup_simpl; intuition congruence.
Qed.

Lemma particles_started_witness :
  field (domContentLoaded (mkDom true true true false true true (Some ParticleField.hero100) false false)) <> None.
Proof. apply particles_started. cbn. repeat split; discriminate. Defined.

(** C37. The start-up when every element is present: no error is
    reported, every listener of the script is registered, in the source's
    order (the theme toggle's only when its button exists), the
    [.hero-content] element, when present, gets its three inline styles,
    and the particle field is the one [initParticleBackground] starts. *)
Theorem startup_complete `{MathRandom} h d :
  hasModal d = true -> hasModalClose d = true -> hasForm d = true -> hasScrollTopBtn d = true ->
  hasHamburger d = true -> heroEl d = Some h -> hasResumeBtn d = true ->
  errors (domContentLoaded d) = [] /\
  heroStyle (domContentLoaded d) =
    (if hasHeroContent d
     then [("transition", "all 1s ease-out"); ("transform", "translateY(0)"); ("opacity", "1")] else []) /\
  listeners (domContentLoaded d) =
    app [LDebouncedScroll; LLoad; LNavLinkClick; LActiveSection; LNavbarScroll; LTypingTimer; LScrollObserver;
         LCardClick; LModalCloseClick; LModalBackdropClick; LEscapeKey; LFormSubmit]
      (app (if hasThemeToggle d then [LThemeClick] else [])
           [LScrollTopScroll; LScrollTopClick; LSkillObserver; LHamburgerClick; LMenuLinkClick; LParallaxScroll;
            LAnimationFrame; LResize; LResumeClick]) /\
  exists f, ParticleField.initParticleBackground (Some h) 0 = inr f /\ field (domContentLoaded d) = Some f.
Proof.
  destruct d as [m mc f t st hb he rb hc]; cbn; intros -> -> -> -> -> -> ->.
  startup_simpl.
  destruct t, hc; (split; [reflexivity | split; [reflexivity | split; [reflexivity | eexists; split; reflexivity]]]).
Qed.

Lemma startup_complete_witness :
  errors (domContentLoaded (mkDom true true true true true true (Some ParticleField.hero100) true false)) = [] /\
  heroStyle (domContentLoaded (mkDom true true true true true true (Some ParticleField.hero100) true false)) = [] /\
  listeners (domContentLoaded (mkDom true true true true true true (Some ParticleField.hero100) true false)) =
    app [LDebouncedScroll; LLoad; LNavLinkClick; LActiveSection; LNavbarScroll; LTypingTimer; LScrollObserver;
         LCardClick; LModalCloseClick; LModalBackdropClick; LEscapeKey; LFormSubmit]
      (app [LThemeClick]
           [LScrollTopScroll; LScrollTopClick; LSkillObserver; LHamburgerClick; LMenuLinkClick; LParallaxScroll;
            LAnimationFrame; LResize; LResumeClick]) /\
  exists f, ParticleField.initParticleBackground (Some ParticleField.hero100) 0 = inr f /\
    field (domContentLoaded (mkDom true true true true true true (Some ParticleField.hero100) true false)) = Some f.
Proof.
  apply (startup_complete ParticleField.hero100
           (mkDom true true true true true true (Some ParticleField.hero100) true false)); reflexivity.
Defined.

End Page.
