(* ===== verification/Observers.v ===== *)
(** * Scroll animations and skill bars

    This file models [initScrollAnimations] (lines 116-143) and
    [initSkillBars] (lines 414-430). Each creates an [IntersectionObserver],
    observes some elements, and reacts to the entries the browser delivers:
    the first adds the class [animate] to an intersecting target, the
    second copies a bar's [data-width] attribute into [style.width].

    The page is the list of elements, in document order; an element's
    position in it is its identity. The browser decides which observed
    targets intersect (thresholds 0.1 and 0.5, root margin [-50px]); a
    delivery is the list of entries it passes to the callback, and it
    only ever reports targets that were observed. Whether a string is a
    valid CSS length is the browser's CSS parser, a parameter [cssValid]
    of the section: an assignment of an invalid value to [style.width] is
    ignored, and [null] empties it. *)

From Stdlib Require Import String List Bool Arith Lia.
From S2P Require Import Prelude.
Import ListNotations.
Local Open Scope string_scope.

Module Observers.

Record element := mkEl {
  classes : list string;       (* [classList], in order *)
  dataWidth : option string;   (* [getAttribute('data-width')] *)
  styleWidth : string          (* [style.width] *)
}.

(** An [IntersectionObserverEntry]: the target's index and [isIntersecting]. *)
Record entry := mkEntry { target : nat; isIntersecting : bool }.

Record page := mkPage {
  elements : list element;
  observed1 : list nat;   (* targets of the scroll-animation observer *)
  observed2 : list nat    (* targets of the skill-bar observer *)
}.

Definition hasClass (c : string) (e : element) : bool := existsb (String.eqb c) (classes e).

(** [classList.add(c)]: a token already present is not added again. *)
Definition addClass (c : string) (e : element) : element :=
  mkEl (if hasClass c e then classes e else classes e ++ [c]) (dataWidth e) (styleWidth e).

(** The selector of line 131. *)
Definition animateSelector (e : element) : bool :=
  hasClass "timeline-item" e || hasClass "project-card" e || hasClass "skill-item" e ||
  hasClass "stat-item" e || hasClass "education-card" e.

(** Element [i] updated by [f]; out of range nothing happens. *)
Fixpoint updateAt (f : element -> element) (i : nat) (es : list element) : list element :=
  match es, i with
  | [], _ => []
  | e :: es', O => f e :: es'
  | e :: es', S i' => e :: updateAt f i' es'
  end.

(** The indices of the elements [querySelectorAll] returns. *)
Definition selectAll (f : element -> bool) (es : list element) : list nat :=
  filter (fun i => match nth_error es i with Some e => f e | None => false end) (seq 0 (length es)).

(** [forEach(el => el.classList.add(c))] over the indices [sel]. *)
Definition addsAt (c : string) (sel : list nat) (l : list element) : list element :=
  fold_left (fun es j => updateAt (addClass c) j es) sel l.

(** Lines 130-134: every selected element gets [scroll-animate] and is
    observed. *)
Definition initScrollAnimations (p : page) : page :=
  let sel := selectAll animateSelector (elements p) in
  mkPage (addsAt "scroll-animate" sel (elements p)) (observed1 p ++ sel) (observed2 p).

(** Lines 427-429. *)
Definition initSkillBars (p : page) : page :=
  mkPage (elements p) (observed1 p) (observed2 p ++ selectAll (hasClass "skill-progress") (elements p)).

(** Lines 121-127: the scroll-animation callback over a delivery. *)
Definition onScrollEntries (entries : list entry) (p : page) : page :=
  mkPage (fold_left (fun es en => if isIntersecting en then updateAt (addClass "animate") (target en) es else es)
                    entries (elements p))
         (observed1 p) (observed2 p).

Section Css.
Variable cssValid : string -> bool.

(** [el.style.width = v]: [null] empties it, an invalid value is
    ignored. *)
Definition setStyleWidth (v : option string) (e : element) : element :=
  match v with
  | None => mkEl (classes e) (dataWidth e) ""
  | Some w => if cssValid w then mkEl (classes e) (dataWidth e) w else e
  end.

(** Lines 417-425: the skill-bar callback over a delivery. *)
Definition onSkillEntries (entries : list entry) (p : page) : page :=
  mkPage (fold_left (fun es en =>
                       if isIntersecting en then
                         updateAt (fun e => setStyleWidth (dataWidth e) e) (target en) es
                       else es)
                    entries (elements p))
         (observed1 p) (observed2 p).

(** A delivery to one of the two observers; the browser only reports the
    targets of the observer it calls. *)
Inductive event := ScrollEntries (es : list entry) | SkillEntries (es : list entry).

Definition step (p : page) (ev : event) : page :=
  match ev with
  | ScrollEntries es =>
      onScrollEntries (filter (fun en => existsb (Nat.eqb (target en)) (observed1 p)) es) p
  | SkillEntries es =>
      onSkillEntries (filter (fun en => existsb (Nat.eqb (target en)) (observed2 p)) es) p
  end.

End Css.

(** The page after both [init] calls, on markup [es] (lines 9 and 14). *)
Definition start (es : list element) : page := initSkillBars (initScrollAnimations (mkPage es [] [])).

(** ** Lemmas on the element list *)

Lemma length_updateAt f i l : length (updateAt f i l) = length l.
Proof. revert i. induction l as [|e l IH]; intros [|i]; cbn; auto. Qed.

Lemma nth_error_updateAt f i l j :
  nth_error (updateAt f i l) j = if Nat.eqb i j then option_map f (nth_error l j) else nth_error l j.
Proof.
  revert i j. induction l as [|e l IH]; intros [|i] [|j]; cbn; try reflexivity.
  - now destruct (Nat.eqb i j).
  - apply IH.
Qed.

Lemma hasClass_addClass c c' e : hasClass c (addClass c' e) = hasClass c e || String.eqb c c'.
Proof.
  unfold addClass, hasClass. cbn [classes]. destruct (existsb (String.eqb c') (classes e)) eqn:E.
  - destruct (String.eqb_spec c c') as [->|]; [now rewrite E, orb_true_r | now rewrite orb_false_r].
  - rewrite existsb_app. cbn. now rewrite orb_false_r.
Qed.

Lemma hasClass_In c e : hasClass c e = true <-> In c (classes e).
Proof.
  unfold hasClass. rewrite existsb_exists. split.
  - intros (x & Hx & E). apply String.eqb_eq in E. now subst.
  - intros H. exists c. split; [exact H | apply String.eqb_refl].
Qed.

Lemma classes_addClass c e : incl (classes e) (classes (addClass c e)) /\ incl (classes (addClass c e)) (classes e ++ [c]).
Proof.
  unfold addClass. cbn [classes]. destruct (hasClass c e); split; auto using incl_refl, incl_appl.
Qed.

(** A relation between each element of the markup and the element at the
    same index now. *)
Definition pointwise (Q : element -> element -> Prop) (es l : list element) : Prop :=
  length l = length es /\
  forall i e0 e, nth_error es i = Some e0 -> nth_error l i = Some e -> Q e0 e.

Lemma pointwise_refl (Q : element -> element -> Prop) es : (forall e, Q e e) -> pointwise Q es es.
Proof. intros HQ. split; [reflexivity | intros i e0 e H1 H2; rewrite H1 in H2; injection H2 as <-; apply HQ]. Qed.

Lemma pointwise_updateAt (Q : element -> element -> Prop) f i es l :
  pointwise Q es l ->
  (forall e0 e, nth_error es i = Some e0 -> nth_error l i = Some e -> Q e0 e -> Q e0 (f e)) ->
  pointwise Q es (updateAt f i l).
Proof.
  intros [Hl HQ] Hf. split; [now rewrite length_updateAt|].
  intros j e0 e H0 H. rewrite nth_error_updateAt in H.
  destruct (Nat.eqb_spec i j) as [<-|]; [|eauto].
  destruct (nth_error l i) as [e'|] eqn:E; cbn in H; [|discriminate].
  injection H as <-. eauto.
Qed.

Lemma pointwise_impl (Q Q' : element -> element -> Prop) es l :
  (forall e0 e, Q e0 e -> Q' e0 e) -> pointwise Q es l -> pointwise Q' es l.
Proof. intros H [Hl HQ]. split; eauto. Qed.

Lemma nth_error_pointwise Q es l i e0 :
  pointwise Q es l -> nth_error es i = Some e0 -> exists e, nth_error l i = Some e /\ Q e0 e.
Proof.
  intros [Hl HQ] H0. destruct (nth_error l i) as [e|] eqn:E.
  - eauto.
  - apply nth_error_None in E. assert (i < length es) by (apply nth_error_Some; congruence). lia.
Qed.

Lemma In_selectAll f es i : In i (selectAll f es) <-> exists e, nth_error es i = Some e /\ f e = true.
Proof.
  unfold selectAll. rewrite filter_In, in_seq. split.
  - intros [[_ Hi] Hf]. destruct (nth_error es i) eqn:E; [eauto | discriminate].
  - intros (e & He & Hf). rewrite He. split; [split; [lia|] | exact Hf].
    apply nth_error_Some. congruence.
Qed.

(** [addClass c] never removes a class. *)
Lemma hasClass_addClass_mono c c' e : hasClass c e = true -> hasClass c (addClass c' e) = true.
Proof. intros H. now rewrite hasClass_addClass, H. Qed.

Lemma addsAt_mono c sel l :
  pointwise (fun a b => forall c', hasClass c' a = true -> hasClass c' b = true) l (addsAt c sel l).
Proof.
  unfold addsAt. apply fold_left_invariant; [apply pointwise_refl; auto|].
  intros l' j _ Hp. apply pointwise_updateAt; [exact Hp|]. intros a b _ _ H c' Hc.
  apply hasClass_addClass_mono, H, Hc.
Qed.

(** After [addClass c] at the indices [sel], every one of them has [c]. *)
Lemma addsAt_has c sel : forall l i e0,
  In i sel -> nth_error l i = Some e0 -> exists e, nth_error (addsAt c sel l) i = Some e /\ hasClass c e = true.
Proof.
  induction sel as [|j sel IH]; intros l i e0 Hi H0; [destruct Hi|]. unfold addsAt; cbn [fold_left]; fold (addsAt c sel).
  destruct (Nat.eqb_spec j i) as [<-|Hne].
  - destruct (nth_error_pointwise _ _ _ j (addClass c e0) (addsAt_mono c sel (updateAt (addClass c) j l)))
      as (e & He & Hm).
    + rewrite nth_error_updateAt, Nat.eqb_refl, H0. reflexivity.
    + exists e. split; [exact He|]. apply Hm. rewrite hasClass_addClass, String.eqb_refl. apply orb_true_r.
  - destruct Hi as [->|Hi]; [congruence|].
    apply (IH _ i e0 Hi). rewrite nth_error_updateAt. now rewrite (proj2 (Nat.eqb_neq j i) Hne).
Qed.

(** ** The invariant *)

Section Invariant.
Variable cssValid : string -> bool.

(** Element [e] now, against [e0] in the markup. *)
Definition evolved (e0 e : element) : Prop :=
  incl (classes e0) (classes e) /\
  incl (classes e) (classes e0 ++ ["scroll-animate"; "animate"]) /\
  dataWidth e = dataWidth e0 /\
  (animateSelector e0 = true -> hasClass "scroll-animate" e = true) /\
  (hasClass "animate" e = true -> hasClass "animate" e0 = true \/ animateSelector e0 = true) /\
  (styleWidth e = styleWidth e0 \/
   (hasClass "skill-progress" e0 = true /\ styleWidth e = styleWidth (setStyleWidth cssValid (dataWidth e0) e0))).

Definition observers_inv (es : list element) (p : page) : Prop :=
  pointwise evolved es (elements p) /\
  (forall i, In i (observed1 p) -> exists e0, nth_error es i = Some e0 /\ animateSelector e0 = true) /\
  (forall i, In i (observed2 p) -> exists e0, nth_error es i = Some e0 /\ hasClass "skill-progress" e0 = true).

Lemma hasClass_incl c a b : incl (classes a) (classes b) -> hasClass c a = true -> hasClass c b = true.
Proof. rewrite !hasClass_In. auto. Qed.

Lemma hasClass_incl_app c a b extra :
  incl (classes a) (classes b ++ extra) -> hasClass c a = true -> ~ In c extra -> hasClass c b = true.
Proof.
  rewrite !hasClass_In. intros Hi Ha Hn. destruct (in_app_or _ _ _ (Hi _ Ha)); [assumption | contradiction].
Qed.

Lemma nth_error_pointwise_rev Q es l i e :
  pointwise Q es l -> nth_error l i = Some e -> exists e0, nth_error es i = Some e0 /\ Q e0 e.
Proof.
  intros [Hl HQ] H. destruct (nth_error es i) as [e0|] eqn:E; [eauto|].
  apply nth_error_None in E. assert (i < length l) by (apply nth_error_Some; congruence). lia.
Qed.

Lemma evolved_animate e0 e : animateSelector e0 = true -> evolved e0 e -> evolved e0 (addClass "animate" e).
Proof.
  intros Hs (H1 & H2 & H3 & H4 & H5 & H6). destruct (classes_addClass "animate" e) as [Ha Hb].
  repeat split; auto.
  - eapply incl_tran; [exact H1 | exact Ha].
  - eapply incl_tran; [exact Hb|]. apply incl_app; [exact H2|].
    intros c [<-|[]]. apply in_or_app. right. cbn. auto.
  - intros Hsel. apply hasClass_addClass_mono, H4, Hsel.
Qed.

Lemma setStyleWidth_fields v e :
  classes (setStyleWidth cssValid v e) = classes e /\ dataWidth (setStyleWidth cssValid v e) = dataWidth e.
Proof. destruct v as [w|]; cbn; [destruct (cssValid w)|]; split; reflexivity. Qed.

Lemma evolved_width e0 e :
  hasClass "skill-progress" e0 = true -> evolved e0 e -> evolved e0 (setStyleWidth cssValid (dataWidth e) e).
Proof.
  intros Hs (H1 & H2 & H3 & H4 & H5 & H6).
  assert (Hw : styleWidth (setStyleWidth cssValid (dataWidth e) e) = styleWidth e \/
               styleWidth (setStyleWidth cssValid (dataWidth e) e) =
               styleWidth (setStyleWidth cssValid (dataWidth e0) e0)).
  { rewrite H3. destruct (dataWidth e0) as [w|]; cbn; [destruct (cssValid w)|]; cbn;
      first [left; reflexivity | right; reflexivity]. }
  destruct (setStyleWidth_fields (dataWidth e) e) as [Hc Hd]. unfold evolved, hasClass. rewrite Hc, Hd. fold (hasClass "scroll-animate" e) (hasClass "animate" e).
  repeat split; auto. destruct Hw as [-> | ->]; [exact H6 | right; split; [exact Hs | reflexivity]].
Qed.

(** After [initScrollAnimations]: the markup with [scroll-animate] added
    where the selector matches. *)
Lemma addsAt_scroll es :
  pointwise (fun e0 e => incl (classes e0) (classes e) /\ incl (classes e) (classes e0 ++ ["scroll-animate"]) /\
                         dataWidth e = dataWidth e0 /\ styleWidth e = styleWidth e0 /\
                         hasClass "animate" e = hasClass "animate" e0)
    es (addsAt "scroll-animate" (selectAll animateSelector es) es).
Proof.
  unfold addsAt. apply fold_left_invariant.
  - apply pointwise_refl. intros e. repeat split; auto using incl_refl, incl_appl.
  - intros l j _ Hp. apply pointwise_updateAt; [exact Hp|].
    intros e0 e _ _ (H1 & H2 & H3 & H4 & H5). destruct (classes_addClass "scroll-animate" e) as [Ha Hb].
    repeat split; auto.
    + eapply incl_tran; eauto.
    + eapply incl_tran; [exact Hb|]. apply incl_app; [exact H2 | apply incl_appr, incl_refl].
    + rewrite hasClass_addClass, H5. apply orb_false_r.
Qed.

Lemma start_inv es : observers_inv es (start es).
Proof.
  pose proof (addsAt_scroll es) as Hs.
  split; [|split].
  - cbn [start initSkillBars initScrollAnimations elements observed1 observed2 app]. split; [apply Hs|]. intros i e0 e H0 H.
    destruct (nth_error_pointwise_rev _ _ _ _ _ Hs H) as (e0' & H0' & H1 & H2 & H3 & H4 & H5).
    rewrite H0 in H0'. injection H0' as <-.
    repeat split; auto.
    + eapply incl_tran; [exact H2|]. apply incl_app; [apply incl_appl, incl_refl|].
      intros c [<-|[]]. apply in_or_app. right. cbn. auto.
    + intros Hsel. destruct (addsAt_has "scroll-animate" (selectAll animateSelector es) es i e0) as (e' & He' & Hc);
        [apply In_selectAll; eauto | exact H0 |].
      rewrite H in He'. now injection He' as ->.
    + rewrite H5. auto.
  - cbn [start initSkillBars initScrollAnimations elements observed1 observed2 app]. intros i Hi. apply In_selectAll in Hi. exact Hi.
  - cbn [start initSkillBars initScrollAnimations elements observed1 observed2 app]. intros i Hi. apply In_selectAll in Hi as (e & He & Hc).
    destruct (nth_error_pointwise_rev _ _ _ _ _ Hs He) as (e0 & H0 & _ & H2 & _).
    exists e0. split; [exact H0|]. eapply hasClass_incl_app; [exact H2 | exact Hc |].
    intros [E|[]]. discriminate E.
Qed.

Lemma In_filter_target i ents en :
  In en (filter (fun en => existsb (Nat.eqb (target en)) i) ents) -> In (target en) i.
Proof.
  intros H. apply filter_In in H as [_ H]. apply existsb_exists in H as (j & Hj & E).
  apply Nat.eqb_eq in E. now subst.
Qed.

Lemma observers_step_inv es p ev : observers_inv es p -> observers_inv es (step cssValid p ev).
Proof.
  intros (Hp & Ho1 & Ho2).
  destruct ev as [ents|ents]; cbn [step onScrollEntries onSkillEntries elements observed1 observed2];
    (split; [|split; assumption]).
  - apply (fold_left_invariant (pointwise evolved es)); [exact Hp|]. intros l en Hen Hl.
    destruct (isIntersecting en); [|exact Hl].
    destruct (Ho1 _ (In_filter_target _ _ _ Hen)) as (e0 & H0 & Hsel).
    apply pointwise_updateAt; [exact Hl|]. intros e0' e H0' _ Hev.
    rewrite H0 in H0'. injection H0' as <-. now apply evolved_animate.
  - apply (fold_left_invariant (pointwise evolved es)); [exact Hp|]. intros l en Hen Hl.
    destruct (isIntersecting en); [|exact Hl].
    destruct (Ho2 _ (In_filter_target _ _ _ Hen)) as (e0 & H0 & Hsk).
    apply pointwise_updateAt; [exact Hl|]. intros e0' e H0' _ Hev.
    rewrite H0 in H0'. injection H0' as <-. now apply evolved_width.
Qed.

Lemma width_after_fill e0 e :
  evolved e0 e -> styleWidth (setStyleWidth cssValid (dataWidth e) e) = styleWidth (setStyleWidth cssValid (dataWidth e0) e0).
Proof.
  intros (_ & _ & Hd & _ & _ & Hw). rewrite Hd.
  destruct (dataWidth e0) as [w|]; cbn; [|reflexivity].
  destruct (cssValid w) eqn:Ev; cbn; [reflexivity|].
  destruct Hw as [-> | (_ & ->)]; [reflexivity|]. cbn. now rewrite Ev.
Qed.

Lemma run_inv es evs : observers_inv es (run (step cssValid) (start es) evs).
Proof. apply run_invariant; [apply start_inv | intros; now apply observers_step_inv]. Qed.

Lemma observed2_run es evs : observed2 (run (step cssValid) (start es) evs) = observed2 (start es).
Proof.
  apply (run_invariant (step cssValid) (fun p => observed2 p = observed2 (start es))); [reflexivity|].
  intros p [] H; exact H.
Qed.

End Invariant.

(** ** Properties *)

(** C38. Invariant of the two observers: whatever entries the browser
    delivers, every element keeps the classes of the markup and gains at
    most [scroll-animate] and [animate]; [scroll-animate] is on exactly
    the elements the selector of line 131 matches (and those that had it),
    and [animate] only appears on those; [style.width] is the markup's,
    or, on a [.skill-progress] bar, what assigning its [data-width] gives. *)
Theorem observer_classes cssValid es evs i e0 e :
  nth_error es i = Some e0 -> nth_error (elements (run (step cssValid) (start es) evs)) i = Some e ->
  incl (classes e0) (classes e) /\ incl (classes e) (classes e0 ++ ["scroll-animate"; "animate"]) /\
  (animateSelector e0 = true -> hasClass "scroll-animate" e = true) /\
  (hasClass "animate" e = true -> hasClass "animate" e0 = true \/ animateSelector e0 = true) /\
  (styleWidth e = styleWidth e0 \/
   (hasClass "skill-progress" e0 = true /\ styleWidth e = styleWidth (setStyleWidth cssValid (dataWidth e0) e0))).
Proof.
  intros H0 H. destruct (run_inv cssValid es evs) as ((_ & Hp) & _).
  destruct (Hp i e0 e H0 H) as (H1 & H2 & _ & H4 & H5 & H6). auto.
Qed.

Lemma observer_classes_witness :
  nth_error [mkEl ["project-card"] None ""] 0 = Some (mkEl ["project-card"] None "") /\
  nth_error (elements (run (step (fun _ => true)) (start [mkEl ["project-card"] None ""])
                           [ScrollEntries [mkEntry 0 true]])) 0
    = Some (mkEl ["project-card"; "scroll-animate"; "animate"] None "") /\
  (incl ["project-card"] ["project-card"; "scroll-animate"; "animate"] /\
   incl ["project-card"; "scroll-animate"; "animate"] (["project-card"] ++ ["scroll-animate"; "animate"]) /\
   (animateSelector (mkEl ["project-card"] None "") = true ->
    hasClass "scroll-animate" (mkEl ["project-card"; "scroll-animate"; "animate"] None "") = true) /\
   (hasClass "animate" (mkEl ["project-card"; "scroll-animate"; "animate"] None "") = true ->
    hasClass "animate" (mkEl ["project-card"] None "") = true \/ animateSelector (mkEl ["project-card"] None "") = true) /\
   (styleWidth (mkEl ["project-card"; "scroll-animate"; "animate"] None "") = styleWidth (mkEl ["project-card"] None "") \/
    (hasClass "skill-progress" (mkEl ["project-card"] None "") = true /\
     styleWidth (mkEl ["project-card"; "scroll-animate"; "animate"] None "") =
     styleWidth (setStyleWidth (fun _ => true) (dataWidth (mkEl ["project-card"] None "")) (mkEl ["project-card"] None ""))))).
Proof.
  split; [reflexivity|]. split; [reflexivity|].
  apply (observer_classes (fun _ => true) [mkEl ["project-card"] None ""] [ScrollEntries [mkEntry 0 true]] 0
           (mkEl ["project-card"] None "") (mkEl ["project-card"; "scroll-animate"; "animate"] None ""));
    reflexivity.
Defined.

(** C39. Liveness of the skill bars: in any state the page reaches, once
    the browser reports a [.skill-progress] bar as intersecting, its
    [style.width] is what assigning its [data-width] gives: the width
    when it is a valid CSS length, the empty string when the attribute is
    missing. *)
Theorem skill_bar_filled cssValid es evs i e0 :
  nth_error es i = Some e0 -> hasClass "skill-progress" e0 = true ->
  exists e, nth_error (elements (step cssValid (run (step cssValid) (start es) evs) (SkillEntries [mkEntry i true]))) i
              = Some e /\
            styleWidth e = styleWidth (setStyleWidth cssValid (dataWidth e0) e0).
Proof.
  intros H0 Hs. destruct (run_inv cssValid es evs) as (Hp & _).
  destruct (nth_error_pointwise _ _ _ _ _ Hp H0) as (e & He & Hev).
  assert (Hi : In i (observed2 (run (step cssValid) (start es) evs))).
  { rewrite observed2_run. cbn [start initSkillBars initScrollAnimations observed2 app]. apply In_selectAll.
    destruct (nth_error_pointwise _ _ _ _ _ (addsAt_scroll es) H0) as (e1 & He1 & H1 & _).
    exists e1. split; [exact He1 | eapply hasClass_incl; eauto]. }
  cbn [step onSkillEntries elements filter target isIntersecting].
  replace (existsb (Nat.eqb i) (observed2 (run (step cssValid) (start es) evs))) with true
    by (symmetry; apply existsb_exists; exists i; split; [exact Hi | apply Nat.eqb_refl]).
  cbn [fold_left isIntersecting target]. rewrite nth_error_updateAt, Nat.eqb_refl, He.
  eexists. split; [reflexivity|]. now apply width_after_fill.
Qed.

Lemma skill_bar_filled_witness :
  exists e, nth_error (elements (step (fun _ => true)
                                  (run (step (fun _ => true)) (start [mkEl ["skill-progress"] (Some "85%") "0%"]) [])
                                  (SkillEntries [mkEntry 0 true]))) 0 = Some e /\
            styleWidth e = styleWidth (setStyleWidth (fun _ => true) (dataWidth (mkEl ["skill-progress"] (Some "85%") "0%"))
                                         (mkEl ["skill-progress"] (Some "85%") "0%")).
Proof. apply (skill_bar_filled (fun _ => true) [mkEl ["skill-progress"] (Some "85%") "0%"] [] 0); reflexivity. Defined.

End Observers.
